(** * Heuristic Slither detectors of the audit-knowledge repository

    A shallow embedding of the detector classes under
    [tools/slither-detectors] (MEV, L2, emerging protocols, admin security,
    cryptographic primitives, FCFS tiering) together with the Python
    built-ins and the view of Slither's contract model they rely on.

    Conventions of the embedding.
    - Text is ASCII: [lower] folds the letters A..Z and leaves every other
      byte alone.
    - A Python exception is a value [Raise e] of the [Result] monad; a
      [for] loop that appends to [results] is a monadic concatenation, so
      the first exception leaves the loop and the function, exactly as an
      uncaught exception does.
    - A Python [set] literal is iterated in an order chosen by the
      interpreter's string hashing.  Code that iterates over a set takes
      that order as a parameter of type [SetOrder]; membership tests need
      no order.
    - The interpreter is CPython with its default settings: converting
      between [int] and [str] raises [ValueError] beyond
      [int_max_str_digits] digits.
    - The objects the detectors read are Slither's: the name of a
      high-level call is a [Constant], not text. *)

From Stdlib Require Import String Ascii List Bool Arith ZArith Lia.
From Stdlib Require Import Permutation DecimalString.
Import ListNotations.
Open Scope string_scope.

(* ================================================================== *)
(** * Python built-ins                                                  *)
(* ================================================================== *)

Module Py.

(** The exception classes the detectors can meet. *)
Inductive Exception : Set :=
| AttributeError
| ValueError
| TypeError.

Inductive Result (A : Type) : Type :=
| Ok (a : A)
| Raise (e : Exception).

Arguments Ok {A} a.
Arguments Raise {A} e.

Definition bind {A B : Type} (m : Result A) (k : A -> Result B) : Result B :=
  match m with
  | Ok a => k a
  | Raise e => Raise e
  end.

(** [try: m  except (handled...): h] *)
Definition try_except {A : Type} (m : Result A)
  (handled : Exception -> bool) (h : Result A) : Result A :=
  match m with
  | Ok a => Ok a
  | Raise e => if handled e then h else Raise e
  end.

(** [any(f(x) for x in l)] and [for x in l: if f(x): return True], when
    [f] may raise: elements after the first hit are not evaluated. *)
Fixpoint anyM {A : Type} (f : A -> Result bool) (l : list A) : Result bool :=
  match l with
  | [] => Ok false
  | x :: l' =>
      bind (f x) (fun b => if b then Ok true else anyM f l')
  end.

(** [for x in l: results.extend(f(x))], when [f] may raise. *)
Fixpoint concatM {A B : Type} (f : A -> Result (list B)) (l : list A)
  : Result (list B) :=
  match l with
  | [] => Ok []
  | x :: l' =>
      bind (f x) (fun r => bind (concatM f l') (fun rs => Ok (r ++ rs)%list))
  end.

(** [[f(x) for x in l]], and any loop that evaluates [f] on every
    element, when [f] may raise. *)
Fixpoint mapM {A B : Type} (f : A -> Result B) (l : list A) : Result (list B) :=
  match l with
  | [] => Ok []
  | x :: l' =>
      bind (f x) (fun y => bind (mapM f l') (fun ys => Ok (y :: ys)))
  end.

(** ** Strings *)

Definition is_upper (c : ascii) : bool :=
  (Ascii.leb "A" c && Ascii.leb c "Z")%bool.

Definition lower_char (c : ascii) : ascii :=
  if is_upper c then ascii_of_nat (nat_of_ascii c + 32) else c.

(** [s.lower()] *)
Fixpoint lower (s : string) : string :=
  match s with
  | EmptyString => EmptyString
  | String c s' => String (lower_char c) (lower s')
  end.

(** [s.replace(c, "")] for a one-character [c]. *)
Fixpoint remove_char (c : ascii) (s : string) : string :=
  match s with
  | EmptyString => EmptyString
  | String d s' =>
      if Ascii.eqb c d then remove_char c s' else String d (remove_char c s')
  end.

(** [p in s] on strings. *)
Fixpoint contains (p s : string) : bool :=
  match s with
  | EmptyString => prefix p EmptyString
  | String _ s' => prefix p s || contains p s'
  end.

(** [any(p in s for p in patterns)] *)
Definition any_in (patterns : list string) (s : string) : bool :=
  existsb (fun p => contains p s) patterns.

(** [x in l] for a list or a set of strings. *)
Definition mem (x : string) (l : list string) : bool :=
  existsb (String.eqb x) l.

(** [" ".join(l)] *)
Fixpoint join (sep : string) (l : list string) : string :=
  match l with
  | [] => EmptyString
  | [x] => x
  | x :: l' => x ++ sep ++ join sep l'
  end.

(** The escapes [\n] and [\t]. *)
Definition LF : string := String (ascii_of_nat 10) EmptyString.
Definition TAB : string := String (ascii_of_nat 9) EmptyString.

(** [str(n)] for integers. *)
Definition str_nat (n : nat) : string :=
  NilZero.string_of_uint (Nat.to_uint n).

Definition str_Z (z : Z) : string :=
  NilZero.string_of_int (Z.to_int z).

(** ** Character classes of [str.isspace], [\s] and [\d] (ASCII range) *)

Definition is_space (c : ascii) : bool :=
  let n := nat_of_ascii c in
  ((9 <=? n) && (n <=? 13) || (28 <=? n) && (n <=? 32))%nat.

Definition is_digit (c : ascii) : bool :=
  (Ascii.leb "0" c && Ascii.leb c "9")%bool.

Definition digit_value (c : ascii) : Z :=
  Z.of_nat (nat_of_ascii c - 48).

(** [s.lstrip()], and what [\s*] consumes. *)
Fixpoint lstrip (s : string) : string :=
  match s with
  | EmptyString => EmptyString
  | String c s' => if is_space c then lstrip s' else s
  end.

(** Every character of [s] is a decimal digit. *)
Fixpoint all_digits (s : string) : bool :=
  match s with
  | EmptyString => true
  | String c s' => is_digit c && all_digits s'
  end.

(** ** [int(...)] *)

(** Digits of a decimal literal; a single underscore may separate two
    digits.  [seen] tells whether the previous character was a digit. *)
Fixpoint digits_value (acc : Z) (seen : bool) (s : string) : option Z :=
  match s with
  | EmptyString => if seen then Some acc else None
  | String c s' =>
      if is_digit c then digits_value (10 * acc + digit_value c) true s'
      else if Ascii.eqb c "_" && seen then digits_value acc false s'
      else None
  end.

Definition signed_value (s : string) : option Z :=
  match s with
  | String "-" s' => option_map Z.opp (digits_value 0 false s')
  | String "+" s' => digits_value 0 false s'
  | _ => digits_value 0 false s
  end.

(** White space as [int] skips it around a literal of an ASCII string:
    the characters of C's [isspace].  The separators 0x1c to 0x1f, which
    [str.isspace] and [\s] accept, are not among them. *)
Definition is_c_space (c : ascii) : bool :=
  let n := nat_of_ascii c in
  ((9 <=? n) && (n <=? 13) || (n =? 32))%nat.

Fixpoint skip_leading (s : string) : string :=
  match s with
  | EmptyString => EmptyString
  | String c s' => if is_c_space c then skip_leading s' else s
  end.

Fixpoint skip_trailing (s : string) : string :=
  match s with
  | EmptyString => EmptyString
  | String c s' =>
      match skip_trailing s' with
      | EmptyString => if is_c_space c then EmptyString else String c EmptyString
      | kept => String c kept
      end
  end.

(** [sys.int_info.default_max_str_digits] *)
Definition int_max_str_digits : Z := 4300.

(** The number of decimal digits in [s]. *)
Fixpoint count_digits (s : string) : nat :=
  match s with
  | EmptyString => 0
  | String c s' => if is_digit c then S (count_digits s') else count_digits s'
  end.

(** [int(s)] for a string [s]: [ValueError] unless [s] is a decimal
    literal, surrounded by optional white space, of at most
    [int_max_str_digits] digits.  Python's integers are unbounded, hence
    [Z]. *)
Definition int_of_str (s : string) : Result Z :=
  let literal := skip_trailing (skip_leading s) in
  match signed_value literal with
  | Some z =>
      if (Z.of_nat (count_digits literal) <=? int_max_str_digits)%Z
      then Ok z else Raise ValueError
  | None => Raise ValueError
  end.

(** [str(z)] and [f"{z}"] for an integer [z]: [ValueError] when [z] has
    more than [int_max_str_digits] digits. *)
Definition format_int (z : Z) : Result string :=
  if (Z.abs z <? 10 ^ int_max_str_digits)%Z then Ok (str_Z z)
  else Raise ValueError.

(** ** The regular expression [gas:\s*(\d+)] *)

(** [s[len(p):]] when [s] starts with [p]. *)
Fixpoint after_prefix (p s : string) : option string :=
  match p, s with
  | EmptyString, _ => Some s
  | String a p', String b s' =>
      if Ascii.eqb a b then after_prefix p' s' else None
  | String _ _, EmptyString => None
  end.

(** The longest prefix matched by [\d*]. *)
Fixpoint take_digits (s : string) : string :=
  match s with
  | EmptyString => EmptyString
  | String c s' => if is_digit c then String c (take_digits s') else EmptyString
  end.

(** [re.match(lit + r'\s*(\d+)', s)]: group 1 of a match anchored at the
    first character of [s]. *)
Definition match_number_after (lit s : string) : option string :=
  match after_prefix lit s with
  | None => None
  | Some rest =>
      match take_digits (lstrip rest) with
      | EmptyString => None
      | digits => Some digits
      end
  end.

(** [re.search(lit + r'\s*(\d+)', s)]: group 1 of the leftmost match. *)
Fixpoint search_number_after (lit s : string) : option string :=
  match match_number_after lit s with
  | Some digits => Some digits
  | None =>
      match s with
      | EmptyString => None
      | String _ s' => search_number_after lit s'
      end
  end.

(** Iteration order of a set literal. *)
Definition SetOrder : Type := list string -> list string.

(** The order in which the source lists the elements. *)
Definition source_order : SetOrder := fun elements => elements.

End Py.

Import Py.

Notation "x <- m ;; k" := (bind m (fun x => k))
  (at level 61, m at next level, right associativity).

(* ================================================================== *)
(** * The contract model consumed from Slither                         *)
(* ================================================================== *)

(** [DetectorClassification] *)
Inductive DetectorClassification : Set :=
| CRITICAL | HIGH | MEDIUM | LOW | INFORMATIONAL | OPTIMIZATION.

(** [NodeType], by member name. *)
Inductive NodeType : Set :=
| ENTRYPOINT | EXPRESSION | RETURN | IF | VARIABLE | ASSEMBLY | IFLOOP
| ENDIF | STARTLOOP | ENDLOOP | THROW | BREAK | CONTINUE | PLACEHOLDER
| TRY | CATCH | OTHER_ENTRYPOINT.

(** [node.type.name] *)
Definition type_name (t : NodeType) : string :=
  match t with
  | ENTRYPOINT => "ENTRYPOINT" | EXPRESSION => "EXPRESSION"
  | RETURN => "RETURN" | IF => "IF" | VARIABLE => "VARIABLE"
  | ASSEMBLY => "ASSEMBLY" | IFLOOP => "IFLOOP" | ENDIF => "ENDIF"
  | STARTLOOP => "STARTLOOP" | ENDLOOP => "ENDLOOP" | THROW => "THROW"
  | BREAK => "BREAK" | CONTINUE => "CONTINUE"
  | PLACEHOLDER => "PLACEHOLDER" | TRY => "TRY" | CATCH => "CATCH"
  | OTHER_ENTRYPOINT => "OTHER_ENTRYPOINT"
  end.

Inductive Visibility : Set := external | public | internal | private.

(** [function.visibility] is the string naming the visibility. *)
Definition visibility_str (v : Visibility) : string :=
  match v with
  | external => "external" | public => "public"
  | internal => "internal" | private => "private"
  end.

(** The value carried by a literal: Slither stores an [int] or a [str];
    [VOther] stands for any object [int()] rejects with [TypeError]. *)
Inductive Value : Type :=
| VInt (z : Z)
| VStr (s : string)
| VOther.

(** An expression: its text [str(e)] and, for a literal, its [value]
    attribute ([None] when the object has no such attribute). *)
Record Expression : Type := {
  expr_str : string;
  expr_value : option Value
}.

(** A variable (parameter or state variable).  Slither declares
    [Variable.name] as [Optional[str]]: [var_name = None] is Python's
    [None]. *)
Record Variable_ : Type := {
  var_name : option string;
  var_canonical_name : string;
  var_type : string;                      (* str(var.type) *)
  var_expression : option Expression      (* var.expression *)
}.

(** An argument of a call operation.  [arg_value] is [str(arg.value)]
    when the argument has a [value] attribute (a constant).
    [arg_depends_on] lists the positions, in [function.parameters], of the
    parameters [p] for which Slither's [is_dependent(arg, p, function)]
    answers true. *)
Record Argument : Type := {
  arg_value : option string;
  arg_depends_on : list nat
}.

(** What a high-level call is sent to. *)
Inductive Destination : Type :=
| DContract (name : string)
| DVariable (name : string).

(** Slither's [Constant], the operand that holds a literal:
    [constant_text] is what [str] and an f-string make of it.  The class
    has no method [lower]. *)
Record Constant : Type := {
  constant_text : string
}.

(** A value that is text in one branch of the code and a [Constant] in
    another. *)
Inductive TextOrConstant : Type :=
| Text (s : string)
| Operand (c : Constant).

(** [x.lower()] *)
Definition lower_method (x : TextOrConstant) : Result string :=
  match x with
  | Text s => Ok (lower s)
  | Operand _ => Raise AttributeError
  end.

(** [str(x)] *)
Definition str_of (x : TextOrConstant) : string :=
  match x with
  | Text s => s
  | Operand c => constant_text c
  end.

(** SlithIR operations, as far as the detectors tell them apart.  The
    [function_name] of a high-level call is a [Constant]; [None] stands
    for a value that is false in a condition. *)
Inductive Operation : Type :=
| HighLevelCall (destination : Destination) (function_name : option Constant)
    (arguments : list Argument)
| Assignment (lvalue_is_state_variable : bool)
| OtherOperation.

Record Node : Type := {
  node_id : nat;
  node_type : NodeType;
  node_str : string;                       (* str(node) *)
  node_expression : option string;         (* str(node.expression) *)
  contains_require_or_assert : bool;
  irs : list Operation
}.

Record Modifier : Type := {
  modifier_name : string
}.

(** An entry of [function.internal_calls]: [call_name] is the callee's
    [name] as text, [None] when the object has no [name] attribute. *)
Record InternalCallee : Type := {
  call_name : option string
}.

Record Function : Type := {
  name : string;
  canonical_name : string;
  visibility : Visibility;
  is_constructor : bool;
  parameters : list Variable_;
  modifiers : list Modifier;
  nodes : list Node;
  state_variables_written : list Variable_;
  internal_calls : list InternalCallee
}.

Record Contract : Type := {
  contract_name : string;
  functions : list Function;
  state_variables : list Variable_;
  inheritance : list string                (* names of the inherited contracts *)
}.

(** [contract.constructor] *)
Definition constructor (c : Contract) : option Function :=
  find is_constructor (functions c).

Record CompilationUnit : Type := {
  contracts : list Contract
}.

(** [compilation_unit.contracts_derived]: the contracts no other contract
    of the unit inherits from. *)
Definition contracts_derived (cu : CompilationUnit) : list Contract :=
  let inherited := flat_map inheritance (contracts cu) in
  filter (fun c => negb (mem (contract_name c) inherited)) (contracts cu).

(** The function [f] with another body, and the contract [c] with other
    state variables: the edits a source change makes to the model. *)
Definition set_nodes (f : Function) (body : list Node) : Function :=
  {| name := name f; canonical_name := canonical_name f;
     visibility := visibility f; is_constructor := is_constructor f;
     parameters := parameters f; modifiers := modifiers f; nodes := body;
     state_variables_written := state_variables_written f;
     internal_calls := internal_calls f |}.

Definition set_state_variables (c : Contract) (vars : list Variable_)
  : Contract :=
  {| contract_name := contract_name c; functions := functions c;
     state_variables := vars; inheritance := inheritance c |}.

(** What an [info] list may hold. *)
Inductive InfoItem : Type :=
| IStr (s : string)
| IFunction (f : Function)
| IContract (c : Contract)
| INode (n : Node).

(** The result object built by [AbstractDetector.generate_result]. *)
Record Output : Type := {
  check : string;
  impact : DetectorClassification;
  confidence : DetectorClassification;
  info : list InfoItem
}.

(** A detector class: its static metadata and its [_detect] method. *)
Record AbstractDetector : Type := {
  ARGUMENT : string;
  HELP : string;
  IMPACT : DetectorClassification;
  CONFIDENCE : DetectorClassification;
  _detect : CompilationUnit -> Result (list Output)
}.

Definition generate_result (argument : string)
  (impact_ confidence_ : DetectorClassification) (info_ : list InfoItem)
  : Output :=
  {| check := argument; impact := impact_; confidence := confidence_;
     info := info_ |}.

(** [name.lower()] on an attribute that may be [None]. *)
Definition lower_of (n : option string) : Result string :=
  match n with
  | Some s => Ok (lower s)
  | None => Raise AttributeError
  end.

(** [is_dependent(arg, param, function)], for the parameter at position
    [param_index] of [function.parameters]. *)
Definition is_dependent (arg : Argument) (param_index : nat) : bool :=
  existsb (Nat.eqb param_index) (arg_depends_on arg).

(** [any(is_dependent(arg, param, function) for param in function.parameters)] *)
Definition depends_on_a_parameter (arg : Argument) (function : Function)
  : bool :=
  existsb (is_dependent arg) (seq 0 (length (parameters function))).

(* ================================================================== *)
(** * mev_risks.py                                                      *)
(* ================================================================== *)

Module MissingSlippageProtection.

Definition ARGUMENT := "mev-missing-slippage".
Definition HELP := "Missing slippage protection in swap functions".
Definition IMPACT := HIGH.
Definition CONFIDENCE := MEDIUM.

Definition DEX_SWAP_FUNCTIONS : list string := [
  "swap"; "swapExactTokensForTokens"; "swapExactTokensForETH";
  "swapExactETHForTokens"; "swapTokensForExactTokens"; "exchange";
  "exchange_underlying"; "sell"; "buy"; "exactInputSingle"; "exactInput";
  "exactOutputSingle"; "exactOutput" ].

Definition MIN_OUTPUT_PARAMS : list string := [
  "minamountout"; "amountoutmin"; "minout"; "minimumamount"; "minreceived";
  "minreturn"; "amountoutminimum" ].

(** The loop over [ir.arguments]. *)
Fixpoint scan_arguments (arguments : list Argument) (function : Function)
  : bool :=
  match arguments with
  | [] => false
  | arg :: rest =>
      match arg_value arg with
      | Some "0" => false
      | _ =>
          if depends_on_a_parameter arg function then true
          else scan_arguments rest function
      end
  end.

Definition _has_slippage_protection (arguments : list Argument)
  (function : Function) : Result bool :=
  named <- anyM (fun param =>
                   n <- lower_of (var_name param) ;;
                   Ok (mem (remove_char "_" n) MIN_OUTPUT_PARAMS))
                (parameters function) ;;
  if named then Ok true else Ok (scan_arguments arguments function).

(** The body of the loop over [node.irs]. *)
Definition check_operation (order : SetOrder) (function : Function)
  (node : Node) (ir : Operation) : Result (list (Node * string)) :=
  match ir with
  | HighLevelCall _ function_name arguments =>
      let func_name := match function_name with
                       | Some c => Operand c
                       | None => Text EmptyString
                       end in
      lowered <- lower_method func_name ;;
      if mem lowered (map lower (order DEX_SWAP_FUNCTIONS)) then
        has_slippage <- _has_slippage_protection arguments function ;;
        if negb has_slippage then
          Ok [(node, "calls " ++ str_of func_name
                     ++ " without slippage protection")]
        else Ok []
      else Ok []
  | _ => Ok []
  end.

Definition _check_function_slippage (order : SetOrder) (function : Function)
  : Result (list (Node * string)) :=
  concatM (fun node => concatM (check_operation order function node) (irs node))
          (nodes function).

(** The result appended for one issue. *)
Definition issue_result (function : Function) (issue : Node * string)
  : Output :=
  let '(node, description) := issue in
  generate_result ARGUMENT IMPACT CONFIDENCE
    [ IStr ("MEV Risk: " ++ canonical_name function ++ " ");
      IStr description; IStr (LF ++ TAB ++ "- "); INode node; IStr LF ].

(** The body of the loop over [contract.functions]. *)
Definition detect_function (order : SetOrder) (function : Function)
  : Result (list Output) :=
  if is_constructor function
     || mem (visibility_str (visibility function)) ["private"; "internal"]
  then Ok []
  else
    issues <- _check_function_slippage order function ;;
    Ok (map (issue_result function) issues).

Definition _detect (order : SetOrder) (cu : CompilationUnit)
  : Result (list Output) :=
  concatM (fun contract => concatM (detect_function order) (functions contract))
          (contracts_derived cu).

Definition detector (order : SetOrder) : AbstractDetector :=
  Build_AbstractDetector ARGUMENT HELP IMPACT CONFIDENCE (_detect order).

End MissingSlippageProtection.

Module ExcessiveSlippageTolerance.

Definition ARGUMENT := "mev-excessive-slippage".
Definition HELP := "Excessive slippage tolerance in swap functions".
Definition IMPACT := MEDIUM.
Definition CONFIDENCE := MEDIUM.

(** 5% in basis points *)
Definition MAX_SLIPPAGE_BPS : Z := 500.

Definition _is_slippage_variable (var : Variable_) : Result bool :=
  name_ <- lower_of (var_name var) ;;
  Ok (any_in ["slippage"; "tolerance"; "maxslip"; "minout"] name_).

(** [int(expression.value)] *)
Definition int_of_value (v : Value) : Result Z :=
  match v with
  | VInt z => Ok z
  | VStr s => int_of_str s
  | VOther => Raise TypeError
  end.

Definition _extract_numeric_value (expression : Expression)
  : Result (option Z) :=
  match expr_value expression with
  | Some v =>
      try_except (z <- int_of_value v ;; Ok (Some z))
        (fun e => match e with
                  | ValueError | TypeError => true
                  | _ => false
                  end)
        (Ok None)
  | None => Ok None
  end.

(** The issue appended for a value above the threshold; the f-string
    that builds it formats [value], see [_check_slippage_value]. *)
Definition excessive_issue (var : Variable_) (value : Z) : list InfoItem :=
  [ IStr ("Excessive slippage tolerance: " ++ var_canonical_name var ++ " = "
          ++ str_Z value ++ "bps (>" ++ str_Z MAX_SLIPPAGE_BPS ++ "bps)"
          ++ LF) ].

Definition _check_slippage_value (var : Variable_) (contract : Contract)
  : Result (list (list InfoItem)) :=
  match var_expression var with
  | Some expression =>
      value <- _extract_numeric_value expression ;;
      match value with
      | Some v =>
          if negb (v =? 0)%Z && (MAX_SLIPPAGE_BPS <? v)%Z
          then formatted <- format_int v ;; Ok [excessive_issue var v]
          else Ok []
      | None => Ok []
      end
  | None => Ok []
  end.

(** The body of the loop over [contract.state_variables]. *)
Definition detect_variable (contract : Contract) (var : Variable_)
  : Result (list Output) :=
  slippage <- _is_slippage_variable var ;;
  if slippage then
    issues <- _check_slippage_value var contract ;;
    Ok (map (generate_result ARGUMENT IMPACT CONFIDENCE) issues)
  else Ok [].

Definition _detect (cu : CompilationUnit) : Result (list Output) :=
  concatM (fun contract =>
             concatM (detect_variable contract) (state_variables contract))
          (contracts_derived cu).

Definition detector : AbstractDetector :=
  Build_AbstractDetector ARGUMENT HELP IMPACT CONFIDENCE _detect.

End ExcessiveSlippageTolerance.

Module MissingDeadlineCheck.

Definition ARGUMENT := "mev-missing-deadline".
Definition HELP := "Missing deadline check in swap functions".
Definition IMPACT := MEDIUM.
Definition CONFIDENCE := MEDIUM.

Definition DEADLINE_PARAMS : list string :=
  [ "deadline"; "expiry"; "validuntil"; "expires"; "timeout" ].

Definition _is_swap_function (function : Function) : bool :=
  any_in ["swap"; "exchange"; "trade"; "sell"; "buy"] (lower (name function)).

(** [str(node.expression) if node.expression else ""] *)
Definition expression_content (node : Node) : string :=
  match node_expression node with
  | Some s => s
  | None => EmptyString
  end.

Definition _has_deadline_check (function : Function) : Result bool :=
  named <- anyM (fun param =>
                   n <- lower_of (var_name param) ;;
                   Ok (mem (remove_char "_" n) DEADLINE_PARAMS))
                (parameters function) ;;
  if named then Ok true
  else
    Ok (existsb (fun node =>
                   contains_require_or_assert node
                   && (contains "block.timestamp" (expression_content node)
                       || contains "deadline" (lower (expression_content node))))
                (nodes function)).

Definition detect_function (function : Function) : Result (list Output) :=
  if _is_swap_function function then
    has_deadline <- _has_deadline_check function ;;
    if negb has_deadline then
      Ok [ generate_result ARGUMENT IMPACT CONFIDENCE
             [ IStr ("MEV Risk: " ++ canonical_name function ++ " ");
               IStr ("lacks deadline check - transactions can be delayed and front-run"
                     ++ LF) ] ]
    else Ok []
  else Ok [].

Definition _detect (cu : CompilationUnit) : Result (list Output) :=
  concatM (fun contract => concatM detect_function (functions contract))
          (contracts_derived cu).

Definition detector : AbstractDetector :=
  Build_AbstractDetector ARGUMENT HELP IMPACT CONFIDENCE _detect.

End MissingDeadlineCheck.

Module FlashLoanEnabler.

Definition ARGUMENT := "mev-flash-loan-enabler".
Definition HELP := "Function may enable flash loan attacks".
Definition IMPACT := HIGH.
Definition CONFIDENCE := LOW.

Definition FLASH_LOAN_CALLBACKS : list string :=
  [ "onflashloan"; "executeOperation"; "uniswapV2Call";
    "uniswapV3FlashCallback"; "pancakeCall"; "callee"; "callback" ].

Definition _validates_caller (function : Function) : bool :=
  existsb (fun node =>
             contains_require_or_assert node
             && contains "msg.sender"
                  (MissingDeadlineCheck.expression_content node))
          (nodes function).

Definition _has_reentrancy_guard (function : Function) : bool :=
  existsb (fun modifier =>
             any_in ["nonreentrant"; "lock"; "mutex"]
               (lower (modifier_name modifier)))
          (modifiers function).

(** [ir.destination != contract] *)
Definition destination_differs (d : Destination) (contract : Contract) : bool :=
  match d with
  | DContract n => negb (String.eqb n (contract_name contract))
  | DVariable _ => true
  end.

Definition is_external_call (contract : Contract) (ir : Operation) : bool :=
  match ir with
  | HighLevelCall destination _ _ => destination_differs destination contract
  | _ => false
  end.

Definition is_state_change (ir : Operation) : bool :=
  match ir with
  | Assignment lvalue_is_state_variable => lvalue_is_state_variable
  | _ => false
  end.

(** One entry per matching operation, in node order. *)
Definition external_call_nodes (function : Function) (contract : Contract)
  : list Node :=
  flat_map (fun node => map (fun _ => node)
                          (filter (is_external_call contract) (irs node)))
           (nodes function).

Definition state_change_nodes (function : Function) : list Node :=
  flat_map (fun node => map (fun _ => node) (filter is_state_change (irs node)))
           (nodes function).

(** The inner loop over [state_change_nodes], left by [break] after the
    first issue. *)
Fixpoint state_change_after (function : Function) (ext_node : Node)
  (state_nodes : list Node) : list (list InfoItem) :=
  match state_nodes with
  | [] => []
  | state_node :: rest =>
      if (node_id ext_node <? node_id state_node)%nat
         && negb (_has_reentrancy_guard function)
      then [[ IStr ("State change after external call in "
                    ++ canonical_name function ++ " ");
              IStr ("at " ++ node_str state_node
                    ++ " - potential flash loan/reentrancy vector" ++ LF) ]]
      else state_change_after function ext_node rest
  end.

Definition _check_flash_loan_risk (function : Function) (contract : Contract)
  : list (list InfoItem) :=
  ((if mem (remove_char "_" (lower (name function))) FLASH_LOAN_CALLBACKS
       && negb (_validates_caller function)
    then [[ IStr ("Flash loan callback " ++ canonical_name function ++ " ");
            IStr ("does not validate caller - may enable unauthorized calls"
                  ++ LF) ]]
    else [])
   ++ flat_map (fun ext_node =>
                  state_change_after function ext_node
                    (state_change_nodes function))
               (external_call_nodes function contract))%list.

Definition detect_function (contract : Contract) (function : Function)
  : list Output :=
  if mem (visibility_str (visibility function)) ["external"; "public"] then
    map (generate_result ARGUMENT IMPACT CONFIDENCE)
        (_check_flash_loan_risk function contract)
  else [].

Definition _detect (cu : CompilationUnit) : Result (list Output) :=
  Ok (flat_map (fun contract =>
                  flat_map (detect_function contract) (functions contract))
               (contracts_derived cu)).

Definition detector : AbstractDetector :=
  Build_AbstractDetector ARGUMENT HELP IMPACT CONFIDENCE _detect.

End FlashLoanEnabler.

Module OracleManipulationRisk.

Definition ARGUMENT := "mev-oracle-manipulation".
Definition HELP := "Potential oracle manipulation vulnerability".
Definition IMPACT := HIGH.
Definition CONFIDENCE := LOW.

Definition SPOT_PRICE_FUNCTIONS : list string :=
  [ "getspot"; "getspotprice"; "getreserves"; "slot0"; "getprice"; "getrate" ].

Definition TWAP_FUNCTIONS : list string :=
  [ "observe"; "consult"; "twap"; "gettwap"; "getaverageprice" ].

Definition _check_oracle_usage (order : SetOrder) (function : Function)
  : list (list InfoItem) :=
  let uses_spot_price :=
    existsb (fun node => any_in (order SPOT_PRICE_FUNCTIONS) (lower (node_str node)))
            (nodes function) in
  let uses_twap :=
    existsb (fun node => any_in (order TWAP_FUNCTIONS) (lower (node_str node)))
            (nodes function) in
  let has_freshness_check :=
    existsb (fun node =>
               let content := lower (node_str node) in
               contains "updatedat" content || contains "staleness" content
               || contains "heartbeat" content
               || contains "roundid" content && contains_require_or_assert node)
            (nodes function) in
  ((if uses_spot_price && negb uses_twap then
      [[ IStr ("Oracle manipulation risk in " ++ canonical_name function ++ ": ");
         IStr ("uses spot price without TWAP - vulnerable to flash loan manipulation"
               ++ LF) ]]
    else [])
   ++ (if (uses_spot_price || uses_twap) && negb has_freshness_check then
         [[ IStr ("Stale oracle risk in " ++ canonical_name function ++ ": ");
            IStr ("no freshness/staleness check on oracle data" ++ LF) ]]
       else []))%list.

Definition _detect (order : SetOrder) (cu : CompilationUnit)
  : Result (list Output) :=
  Ok (flat_map (fun contract =>
                  flat_map (fun function =>
                              map (generate_result ARGUMENT IMPACT CONFIDENCE)
                                  (_check_oracle_usage order function))
                           (functions contract))
               (contracts_derived cu)).

Definition detector (order : SetOrder) : AbstractDetector :=
  Build_AbstractDetector ARGUMENT HELP IMPACT CONFIDENCE (_detect order).

End OracleManipulationRisk.

Module mev_risks.

Definition DETECTORS (order : SetOrder) : list AbstractDetector :=
  [ MissingSlippageProtection.detector order;
    ExcessiveSlippageTolerance.detector;
    MissingDeadlineCheck.detector;
    FlashLoanEnabler.detector;
    OracleManipulationRisk.detector order ].

End mev_risks.

(* ================================================================== *)
(** * l2_specific.py                                                    *)
(* ================================================================== *)

Module SequencerDependency.

Definition ARGUMENT := "l2-sequencer-dependency".
Definition HELP := "Operation vulnerable to sequencer downtime".
Definition IMPACT := HIGH.
Definition CONFIDENCE := MEDIUM.

Definition TIME_SENSITIVE_FUNCTIONS : list string :=
  [ "liquidate"; "liquidation"; "auction"; "settle"; "expire"; "claim";
    "withdraw"; "exercise"; "executeliquidation"; "triggerauction";
    "callmargin" ].

Definition SEQUENCER_CHECK_PATTERNS : list string :=
  [ "sequenceruptimefeed"; "sequencerstatus"; "l2sequencer"; "issequencerup" ].

Definition _is_l2_contract (cu : CompilationUnit) : bool :=
  existsb (fun contract =>
             any_in ["arbitrum"; "optimism"; "l2"; "rollup"]
               (lower (contract_name contract))
             || existsb (fun function =>
                           existsb (fun node =>
                                      any_in ["arbsys"; "l2messenger"; "ovmcontext"]
                                        (lower (node_str node)))
                                   (nodes function))
                        (functions contract))
          (contracts cu).

Definition _is_time_sensitive (order : SetOrder) (function : Function) : bool :=
  any_in (order TIME_SENSITIVE_FUNCTIONS)
    (remove_char "_" (lower (name function))).

Definition _contract_checks_sequencer (order : SetOrder) (contract : Contract)
  : bool :=
  existsb (fun function =>
             existsb (fun node =>
                        any_in (order SEQUENCER_CHECK_PATTERNS)
                          (remove_char "_" (lower (node_str node))))
                     (nodes function))
          (functions contract).

Definition detect_contract (order : SetOrder) (contract : Contract)
  : list Output :=
  let has_sequencer_check := _contract_checks_sequencer order contract in
  flat_map (fun function =>
              if _is_time_sensitive order function && negb has_sequencer_check
              then
                [ generate_result ARGUMENT IMPACT CONFIDENCE
                    [ IStr ("L2 Risk: " ++ canonical_name function ++ " ");
                      IStr ("is time-sensitive but contract lacks sequencer uptime check"
                            ++ LF);
                      IStr ("Consider using Chainlink Sequencer Uptime Feed" ++ LF) ] ]
              else [])
           (functions contract).

Definition _detect (order : SetOrder) (cu : CompilationUnit)
  : Result (list Output) :=
  if negb (_is_l2_contract cu) then Ok []
  else Ok (flat_map (detect_contract order) (contracts_derived cu)).

Definition detector (order : SetOrder) : AbstractDetector :=
  Build_AbstractDetector ARGUMENT HELP IMPACT CONFIDENCE (_detect order).

End SequencerDependency.

Module L1L2MessageRisk.

Definition ARGUMENT := "l2-message-risk".
Definition HELP := "L1<->L2 message handling vulnerability".
Definition IMPACT := HIGH.
Definition CONFIDENCE := MEDIUM.

Definition L1L2_PATTERNS : list string :=
  [ "onlybridge"; "onlymessenger"; "crosschainmessage"; "receivemessage";
    "finalizemessage"; "relayermessage"; "createretryableticket";
    "redeemticket" ].

Definition _is_message_handler (order : SetOrder) (function : Function) : bool :=
  any_in (order L1L2_PATTERNS) (remove_char "_" (lower (name function)))
  || existsb (fun modifier =>
                contains "bridge" (lower (modifier_name modifier))
                || contains "messenger" (lower (modifier_name modifier)))
             (modifiers function).

Definition _check_message_handler (function : Function) : list string :=
  let has_replay_protection :=
    existsb (fun node =>
               any_in ["nonce"; "processed"; "executed"; "messageid"]
                 (lower (node_str node)))
            (nodes function) in
  let has_timestamp_check :=
    existsb (fun node =>
               contains "block.timestamp" (lower (node_str node))
               || contains "staleness" (lower (node_str node)))
            (nodes function) in
  ((if negb has_replay_protection
    then ["lacks replay protection (no nonce/processed check)"] else [])
   ++ (if negb has_timestamp_check
       then ["no freshness validation for cross-chain data"] else []))%list.

Definition detect_function (order : SetOrder) (function : Function)
  : list Output :=
  if _is_message_handler order function then
    map (fun issue =>
           generate_result ARGUMENT IMPACT CONFIDENCE
             [ IStr ("L2 Message Risk: " ++ canonical_name function ++ " ");
               IStr issue; IStr LF ])
        (_check_message_handler function)
  else [].

Definition _detect (order : SetOrder) (cu : CompilationUnit)
  : Result (list Output) :=
  Ok (flat_map (fun contract =>
                  flat_map (detect_function order) (functions contract))
               (contracts_derived cu)).

Definition detector (order : SetOrder) : AbstractDetector :=
  Build_AbstractDetector ARGUMENT HELP IMPACT CONFIDENCE (_detect order).

End L1L2MessageRisk.

Module AddressAliasingRisk.

Definition ARGUMENT := "l2-address-aliasing".
Definition HELP := "Address aliasing not handled in cross-chain communication".
Definition IMPACT := HIGH.
Definition CONFIDENCE := LOW.

Definition ALIAS_OFFSET := "0x1111000000000000000000000000000000001111".

Definition _has_cross_chain_handler (contract : Contract) : bool :=
  existsb (fun function =>
             mem (visibility_str (visibility function)) ["external"; "public"]
             && (existsb (fun modifier =>
                            any_in ["bridge"; "l1"; "crosschain"]
                              (lower (modifier_name modifier)))
                         (modifiers function)
                 || any_in ["froml1"; "onreceive"; "relayed"]
                      (lower (name function))))
          (functions contract).

Definition _handles_address_aliasing (contract : Contract) : bool :=
  existsb (fun function =>
             existsb (fun node =>
                        any_in [ "addressaliashelper"; "undol1tol2alias";
                                 "applyl1tol2alias"; "1111000000000000" ]
                          (lower (node_str node)))
                     (nodes function))
          (functions contract).

Definition detect_contract (contract : Contract) : list Output :=
  if _has_cross_chain_handler contract
     && negb (_handles_address_aliasing contract)
  then
    [ generate_result ARGUMENT IMPACT CONFIDENCE
        [ IStr ("L2 Address Aliasing Risk: " ++ contract_name contract ++ " ");
          IStr ("handles cross-chain messages but may not account for address aliasing"
                ++ LF);
          IStr ("L1 contract addresses are offset by 0x1111...1111 on L2" ++ LF) ] ]
  else [].

Definition _detect (cu : CompilationUnit) : Result (list Output) :=
  Ok (flat_map detect_contract (contracts_derived cu)).

Definition detector : AbstractDetector :=
  Build_AbstractDetector ARGUMENT HELP IMPACT CONFIDENCE _detect.

End AddressAliasingRisk.

Module L2GasCalculationRisk.

Definition ARGUMENT := "l2-gas-calculation".
Definition HELP := "L2 gas calculation may be incorrect".
Definition IMPACT := MEDIUM.
Definition CONFIDENCE := LOW.

(** [gas_match = re.search(r'gas:\s*(\d+)', content)] followed, when there
    is a match, by [int(gas_match.group(1))]. *)
Definition gas_value_of (content : string) : Result (option Z) :=
  match search_number_after "gas:" content with
  | Some group1 => gas_value <- int_of_str group1 ;; Ok (Some gas_value)
  | None => Ok None
  end.

(** The issues of one node. *)
Definition check_node (node : Node) : Result (list string) :=
  let content := node_str node in
  hardcoded <-
    (if (contains ".call{gas:" content || contains ".call{value:" content)
        && contains "gas:" content
     then
       gas_match <- gas_value_of content ;;
       match gas_match with
       | Some gas_value =>
           if (0 <? gas_value)%Z && (gas_value <? 1000000)%Z then
             Ok [ ("hardcoded gas limit (" ++ str_Z gas_value
                   ++ ") may be insufficient on L2")%string ]
           else Ok []
       | None => Ok []
       end
     else Ok []) ;;
  Ok (hardcoded
      ++ (if contains "block.gaslimit" content
          then ["block.gaslimit differs significantly on L2 networks"]
          else []))%list.

Definition _check_gas_usage (function : Function) : Result (list string) :=
  concatM check_node (nodes function).

Definition detect_function (function : Function) : Result (list Output) :=
  issues <- _check_gas_usage function ;;
  Ok (map (fun issue =>
             generate_result ARGUMENT IMPACT CONFIDENCE
               [ IStr ("L2 Gas Risk: " ++ canonical_name function ++ " ");
                 IStr issue; IStr LF ])
          issues).

Definition _detect (cu : CompilationUnit) : Result (list Output) :=
  concatM (fun contract => concatM detect_function (functions contract))
          (contracts_derived cu).

Definition detector : AbstractDetector :=
  Build_AbstractDetector ARGUMENT HELP IMPACT CONFIDENCE _detect.

End L2GasCalculationRisk.

Module ReorgRisk.

Definition ARGUMENT := "l2-reorg-risk".
Definition HELP := "Operation may be affected by L2 reorg".
Definition IMPACT := MEDIUM.
Definition CONFIDENCE := LOW.

Definition check_node (node : Node) : list string :=
  let content := lower (node_str node) in
  ((if contains "blockhash" content
    then ["uses blockhash - unreliable on L2 due to different finality"]
    else [])
   ++ (if contains "prevrandao" content || contains "block.difficulty" content
       then ["uses prevrandao/difficulty - behavior differs on L2"]
       else []))%list.

Definition _check_finality_assumptions (function : Function) : list string :=
  flat_map check_node (nodes function).

Definition _detect (cu : CompilationUnit) : Result (list Output) :=
  Ok (flat_map (fun contract =>
                  flat_map (fun function =>
                              map (fun issue =>
                                     generate_result ARGUMENT IMPACT CONFIDENCE
                                       [ IStr ("L2 Finality Risk: "
                                               ++ canonical_name function ++ " ");
                                         IStr issue; IStr LF ])
                                  (_check_finality_assumptions function))
                           (functions contract))
               (contracts_derived cu)).

Definition detector : AbstractDetector :=
  Build_AbstractDetector ARGUMENT HELP IMPACT CONFIDENCE _detect.

End ReorgRisk.

Module l2_specific.

Definition DETECTORS (order : SetOrder) : list AbstractDetector :=
  [ SequencerDependency.detector order;
    L1L2MessageRisk.detector order;
    AddressAliasingRisk.detector;
    L2GasCalculationRisk.detector;
    ReorgRisk.detector ].

End l2_specific.

(* ================================================================== *)
(** * emerging_protocols.py                                             *)
(* ================================================================== *)

Module RestakingSlashingRisk.

Definition ARGUMENT := "restaking-slashing-risk".
Definition HELP := "Potential slashing cascade vulnerability".
Definition IMPACT := HIGH.
Definition CONFIDENCE := MEDIUM.

Definition SLASHING_PATTERNS : list string :=
  [ "slash"; "penalize"; "slashing"; "penalty"; "punish"; "confiscate" ].

Definition _is_restaking_contract (contract : Contract) : bool :=
  any_in [ "restaking"; "eigenlayer"; "avs"; "operator"; "delegation";
           "staking"; "symbiotic"; "vault" ]
    (lower (contract_name contract)).

Definition _is_slashing_function (order : SetOrder) (function : Function)
  : bool :=
  any_in (order SLASHING_PATTERNS) (remove_char "_" (lower (name function))).

Definition _check_slashing_safety (function : Function) (contract : Contract)
  : Result (list string) :=
  names <- mapM (fun var => lower_of (var_name var)) (state_variables contract) ;;
  let contents := map (fun node => lower (node_str node)) (nodes function) in
  let has_cap :=
    existsb (fun n => contains "slashingcap" n || contains "maxslash" n) names
    || existsb (fun content => contains "maxslash" content
                               || contains "cap" content) contents in
  let has_circuit_breaker :=
    existsb (fun content => contains "paused" content
                            || contains "emergency" content) contents in
  let tracks_cumulative :=
    existsb (fun n => contains "cumulativeslash" n || contains "totalslash" n)
            names
    || existsb (fun content =>
                  (contains "cumulative" content || contains "+=" content)
                  && any_in ["slash"; "penalty"] content) contents in
  Ok ((if negb has_cap
       then ["no slashing cap implemented - cascade risk"] else [])
      ++ (if negb tracks_cumulative
          then ["doesn't track cumulative slashing across AVS"] else [])
      ++ (if negb has_circuit_breaker
          then ["no circuit breaker for excessive slashing"] else []))%list.

Definition detect_function (order : SetOrder) (contract : Contract)
  (function : Function) : Result (list Output) :=
  if _is_slashing_function order function then
    issues <- _check_slashing_safety function contract ;;
    Ok (map (fun issue =>
               generate_result ARGUMENT IMPACT CONFIDENCE
                 [ IStr ("Restaking Risk: " ++ canonical_name function ++ " ");
                   IStr issue; IStr LF ])
            issues)
  else Ok [].

Definition _detect (order : SetOrder) (cu : CompilationUnit)
  : Result (list Output) :=
  concatM (fun contract =>
             if negb (_is_restaking_contract contract) then Ok []
             else concatM (detect_function order contract) (functions contract))
          (contracts_derived cu).

Definition detector (order : SetOrder) : AbstractDetector :=
  Build_AbstractDetector ARGUMENT HELP IMPACT CONFIDENCE (_detect order).

End RestakingSlashingRisk.

Module RestakingDelegationRisk.

Definition ARGUMENT := "restaking-delegation-risk".
Definition HELP := "Delegation manipulation vulnerability".
Definition IMPACT := MEDIUM.
Definition CONFIDENCE := MEDIUM.

Definition DELEGATION_PATTERNS : list string :=
  [ "delegate"; "undelegate"; "redelegate"; "setoperator"; "chooseoperator";
    "selectvalidator" ].

Definition _is_delegation_function (order : SetOrder) (function : Function)
  : bool :=
  any_in (order DELEGATION_PATTERNS) (remove_char "_" (lower (name function))).

Definition _check_delegation_safety (function : Function) : list string :=
  let contents := map (fun node => lower (node_str node)) (nodes function) in
  let has_cooldown :=
    existsb (any_in ["cooldown"; "waitperiod"; "delay"]) contents
    || existsb (fun modifier =>
                  any_in ["cooldown"; "delay"; "timelock"]
                    (lower (modifier_name modifier)))
               (modifiers function) in
  let has_timelock :=
    existsb (fun content => contains "block.timestamp" content
                            && any_in [">="; ">"; "after"] content) contents in
  if negb has_cooldown && negb has_timelock
  then ["no cooldown/timelock - vulnerable to frontrunning"] else [].

Definition detect_function (order : SetOrder) (function : Function)
  : list Output :=
  if _is_delegation_function order function then
    map (fun issue =>
           generate_result ARGUMENT IMPACT CONFIDENCE
             [ IStr ("Delegation Risk: " ++ canonical_name function ++ " ");
               IStr issue; IStr LF ])
        (_check_delegation_safety function)
  else [].

Definition _detect (order : SetOrder) (cu : CompilationUnit)
  : Result (list Output) :=
  Ok (flat_map (fun contract =>
                  flat_map (detect_function order) (functions contract))
               (contracts_derived cu)).

Definition detector (order : SetOrder) : AbstractDetector :=
  Build_AbstractDetector ARGUMENT HELP IMPACT CONFIDENCE (_detect order).

End RestakingDelegationRisk.

Module IntentReplayRisk.

Definition ARGUMENT := "intent-replay-risk".
Definition HELP := "Intent may be replayed or manipulated".
Definition IMPACT := HIGH.
Definition CONFIDENCE := MEDIUM.

Definition INTENT_PATTERNS : list string :=
  [ "executeintent"; "fillorder"; "settleintent"; "resolveintent";
    "executesigned"; "fillsigned" ].

Definition _is_intent_handler (order : SetOrder) (function : Function) : bool :=
  any_in (order INTENT_PATTERNS) (remove_char "_" (lower (name function))).

Definition mentions_consumption (content : string) : bool :=
  contains "nonce" content || contains "executed" content
  || contains "consumed" content.

Definition _check_intent_safety (function : Function) : list string :=
  let has_nonce_check :=
    existsb (fun node => mentions_consumption (lower (node_str node))
                         && contains_require_or_assert node)
            (nodes function) in
  let marks_consumed :=
    existsb (fun node =>
               let content := lower (node_str node) in
               mentions_consumption content
               && (contains "= true" content || contains "[" content))
            (nodes function) in
  let has_expiry_check :=
    existsb (fun node =>
               let content := lower (node_str node) in
               any_in ["deadline"; "expiry"; "validuntil"] content
               && (contains "block.timestamp" content
                   || contains_require_or_assert node))
            (nodes function) in
  ((if negb has_nonce_check
    then ["no nonce/consumed check - intent may be replayed"] else [])
   ++ (if negb has_expiry_check
       then ["no expiry validation - stale intents may execute"] else [])
   ++ (if negb marks_consumed
       then ["intent not marked as consumed after execution"] else []))%list.

Definition detect_function (order : SetOrder) (function : Function)
  : list Output :=
  if _is_intent_handler order function then
    map (fun issue =>
           generate_result ARGUMENT IMPACT CONFIDENCE
             [ IStr ("Intent Risk: " ++ canonical_name function ++ " ");
               IStr issue; IStr LF ])
        (_check_intent_safety function)
  else [].

Definition _detect (order : SetOrder) (cu : CompilationUnit)
  : Result (list Output) :=
  Ok (flat_map (fun contract =>
                  flat_map (detect_function order) (functions contract))
               (contracts_derived cu)).

Definition detector (order : SetOrder) : AbstractDetector :=
  Build_AbstractDetector ARGUMENT HELP IMPACT CONFIDENCE (_detect order).

End IntentReplayRisk.

Module SolverCollusionRisk.

Definition ARGUMENT := "solver-collusion-risk".
Definition HELP := "Solver may extract value through collusion".
Definition IMPACT := HIGH.
Definition CONFIDENCE := LOW.

Definition _is_solver_contract (contract : Contract) : bool :=
  any_in ["solver"; "resolver"; "filler"; "relayer"; "settler"]
    (lower (contract_name contract)).

Definition _check_solver_fairness (contract : Contract) : list string :=
  let has_auction :=
    existsb (fun function =>
               let name_ := lower (name function) in
               contains "auction" name_ || contains "bid" name_
               || contains "compete" name_)
            (functions contract) in
  let has_reputation :=
    existsb (fun function =>
               let name_ := lower (name function) in
               contains "reputation" name_ || contains "score" name_
               || contains "slash" name_)
            (functions contract) in
  let has_price_check :=
    existsb (fun function =>
               existsb (fun node =>
                          any_in ["minprice"; "priceimprovement"; "marketprice"]
                            (lower (node_str node)))
                       (nodes function))
            (functions contract) in
  ((if negb has_auction
    then ["no solver auction mechanism - single solver may extract value"]
    else [])
   ++ (if negb has_price_check
       then ["no price improvement validation"] else [])
   ++ (if negb has_reputation
       then ["no solver reputation/slashing mechanism"] else []))%list.

Definition detect_contract (contract : Contract) : list Output :=
  if _is_solver_contract contract then
    map (fun issue =>
           generate_result ARGUMENT IMPACT CONFIDENCE
             [ IStr ("Solver Risk: " ++ contract_name contract ++ " ");
               IStr issue; IStr LF ])
        (_check_solver_fairness contract)
  else [].

Definition _detect (cu : CompilationUnit) : Result (list Output) :=
  Ok (flat_map detect_contract (contracts_derived cu)).

Definition detector : AbstractDetector :=
  Build_AbstractDetector ARGUMENT HELP IMPACT CONFIDENCE _detect.

End SolverCollusionRisk.

Module PointsSybilRisk.

Definition ARGUMENT := "points-sybil-risk".
Definition HELP := "Points system vulnerable to Sybil/gaming".
Definition IMPACT := HIGH.
Definition CONFIDENCE := MEDIUM.

Definition POINTS_PATTERNS : list string :=
  [ "addpoints"; "accumulatepoints"; "awardpoints"; "updatepoints";
    "claimpoints"; "refer"; "referral" ].

Definition _is_points_function (order : SetOrder) (function : Function)
  : bool :=
  any_in (order POINTS_PATTERNS) (remove_char "_" (lower (name function))).

Definition _check_points_safety (function : Function) : list string :=
  let contents := map (fun node => lower (node_str node)) (nodes function) in
  let has_time_weight :=
    existsb (any_in ["timeweight"; "duration"; "elapsed"]) contents in
  let has_min_duration :=
    existsb (any_in ["minduration"; "lockperiod"; "vestingstart"]) contents in
  let has_cap := existsb (any_in ["maxpoints"; "cap"; "limit"]) contents in
  ((if negb has_time_weight && negb has_min_duration
    then ["no time-weighting - vulnerable to flash loan point farming"]
    else [])
   ++ (if contains "referral" (lower (name function)) && negb has_cap
       then ["referral rewards not capped - Sybil risk"] else []))%list.

Definition detect_function (order : SetOrder) (function : Function)
  : list Output :=
  if _is_points_function order function then
    map (fun issue =>
           generate_result ARGUMENT IMPACT CONFIDENCE
             [ IStr ("Points Risk: " ++ canonical_name function ++ " ");
               IStr issue; IStr LF ])
        (_check_points_safety function)
  else [].

Definition _detect (order : SetOrder) (cu : CompilationUnit)
  : Result (list Output) :=
  Ok (flat_map (fun contract =>
                  flat_map (detect_function order) (functions contract))
               (contracts_derived cu)).

Definition detector (order : SetOrder) : AbstractDetector :=
  Build_AbstractDetector ARGUMENT HELP IMPACT CONFIDENCE (_detect order).

End PointsSybilRisk.

Module MerkleProofRisk.

Definition ARGUMENT := "merkle-proof-risk".
Definition HELP := "Merkle proof claim may be manipulated".
Definition IMPACT := HIGH.
Definition CONFIDENCE := MEDIUM.

Definition _is_merkle_claim (function : Function) : Result bool :=
  let name_ := lower (name function) in
  params <- mapM (fun p => lower_of (var_name p)) (parameters function) ;;
  Ok ((contains "claim" name_ || contains "redeem" name_)
      && contains "proof" (join " " params)).

Definition _check_merkle_safety (function : Function) (contract : Contract)
  : Result (list string) :=
  names <- mapM (fun var => lower_of (var_name var)) (state_variables contract) ;;
  let contents := map (fun node => lower (node_str node)) (nodes function) in
  let has_claim_tracking :=
    existsb (fun n => contains "claimed" n || contains "redeemed" n) names
    || existsb (fun content => contains "claimed[" content
                               || contains "redeemed[" content) contents in
  let verifies_sender :=
    existsb (fun content =>
               (contains "merkle" content || contains "verify" content)
               && contains "msg.sender" content) contents in
  Ok ((if negb has_claim_tracking
       then ["no claim tracking - double claim possible"] else [])
      ++ (if negb verifies_sender
          then ["proof doesn't include msg.sender - proof may be reused"]
          else []))%list.

Definition detect_function (contract : Contract) (function : Function)
  : Result (list Output) :=
  claim <- _is_merkle_claim function ;;
  if claim then
    issues <- _check_merkle_safety function contract ;;
    Ok (map (fun issue =>
               generate_result ARGUMENT IMPACT CONFIDENCE
                 [ IStr ("Merkle Risk: " ++ canonical_name function ++ " ");
                   IStr issue; IStr LF ])
            issues)
  else Ok [].

Definition _detect (cu : CompilationUnit) : Result (list Output) :=
  concatM (fun contract =>
             concatM (detect_function contract) (functions contract))
          (contracts_derived cu).

Definition detector : AbstractDetector :=
  Build_AbstractDetector ARGUMENT HELP IMPACT CONFIDENCE _detect.

End MerkleProofRisk.

Module emerging_protocols.

Definition DETECTORS (order : SetOrder) : list AbstractDetector :=
  [ RestakingSlashingRisk.detector order;
    RestakingDelegationRisk.detector order;
    IntentReplayRisk.detector order;
    SolverCollusionRisk.detector;
    PointsSybilRisk.detector order;
    MerkleProofRisk.detector ].

End emerging_protocols.

(* ================================================================== *)
(** * admin_security.py                                                 *)
(* ================================================================== *)

Module ProxyUpgradeNoTimelock.

Definition ARGUMENT := "admin-upgrade-no-timelock".
Definition HELP := "Proxy upgrade without timelock - instant admin takeover risk".
Definition IMPACT := HIGH.
Definition CONFIDENCE := HIGH.

Definition UPGRADE_PATTERNS : list string :=
  [ "upgrade"; "upgradeto"; "upgradetoandcall"; "setimplementation";
    "changeimplementation"; "_setimplementation" ].

Definition TIMELOCK_PATTERNS : list string :=
  [ "timelock"; "delay"; "scheduledupgrade"; "pendingimplementation";
    "upgradequeue"; "mindelay" ].

Definition _is_proxy_or_admin (contract : Contract) : bool :=
  any_in [ "proxy"; "admin"; "upgradeable"; "upgradeability"; "proxyadmin";
           "transparentproxy"; "uups" ]
    (lower (contract_name contract)).

Definition _is_upgrade_function (order : SetOrder) (function : Function) : bool :=
  any_in (order UPGRADE_PATTERNS) (remove_char "_" (lower (name function))).

Definition _contract_has_timelock (order : SetOrder) (contract : Contract)
  : Result bool :=
  by_variable <- anyM (fun var =>
                         name_ <- lower_of (var_name var) ;;
                         Ok (any_in (order TIMELOCK_PATTERNS) name_))
                      (state_variables contract) ;;
  if by_variable then Ok true
  else
    Ok (existsb (fun function =>
                   any_in ["schedule"; "queue"; "execute"]
                     (lower (name function)))
                (functions contract)).

Definition _function_has_delay (order : SetOrder) (function : Function) : bool :=
  existsb (fun node =>
             let content := lower (node_str node) in
             any_in (order TIMELOCK_PATTERNS) content
             || contains "block.timestamp" content && contains ">=" content)
          (nodes function).

(** The result appended for one upgrade function. *)
Definition upgrade_result (function : Function) : Output :=
  generate_result ARGUMENT IMPACT CONFIDENCE
    [ IStr ("🚨 Admin Risk: " ++ canonical_name function ++ " ");
      IStr ("allows immediate proxy upgrade without timelock" ++ LF);
      IStr ("On L2: Attacker can upgrade → drain → bridge to L1 in one tx"
            ++ LF);
      IStr ("Recommendation: Add timelock > 7 days (L2→L1 bridge delay)"
            ++ LF) ].

(** The body of the loop over [contract.functions]. *)
Definition detect_function (order : SetOrder) (has_timelock : bool)
  (function : Function) : list Output :=
  if _is_upgrade_function order function
     && (negb has_timelock && negb (_function_has_delay order function))
  then [upgrade_result function]
  else [].

(** The body of the loop over [contracts_derived]. *)
Definition detect_contract (order : SetOrder) (contract : Contract)
  : Result (list Output) :=
  if negb (_is_proxy_or_admin contract) then Ok []
  else
    has_timelock <- _contract_has_timelock order contract ;;
    Ok (flat_map (detect_function order has_timelock) (functions contract)).

Definition _detect (order : SetOrder) (cu : CompilationUnit)
  : Result (list Output) :=
  concatM (detect_contract order) (contracts_derived cu).

Definition detector (order : SetOrder) : AbstractDetector :=
  Build_AbstractDetector ARGUMENT HELP IMPACT CONFIDENCE (_detect order).

End ProxyUpgradeNoTimelock.

Module SharedDeployerRisk.

Definition ARGUMENT := "admin-shared-deployer".
Definition HELP :=
  "Contract may be using deployer as admin - single point of failure".
Definition IMPACT := HIGH.
Definition CONFIDENCE := MEDIUM.

Definition _has_admin_transfer (contract : Contract) : bool :=
  existsb (fun function =>
             any_in ["transferadmin"; "setadmin"; "changeadmin"]
               (lower (name function)))
          (functions contract).

Definition _has_ownership_transfer (contract : Contract) : bool :=
  existsb (fun function =>
             any_in ["transferownership"; "setowner"; "changeowner"]
               (lower (name function)))
          (functions contract).

(** The issues of one node of the constructor. *)
Definition check_node (contract : Contract) (node : Node) : list string :=
  let content := lower (node_str node) in
  ((if contains "msg.sender" content && contains "admin" content
       && negb (_has_admin_transfer contract)
    then ["assigns deployer (msg.sender) as admin without transfer mechanism"]
    else [])
   ++ (if contains "msg.sender" content && contains "owner" content
          && negb (_has_ownership_transfer contract)
       then ["assigns deployer as owner - ensure ownership is transferred to multi-sig"]
       else []))%list.

Definition _check_deployer_patterns (contract : Contract) : list string :=
  match constructor contract with
  | Some constructor_ => flat_map (check_node contract) (nodes constructor_)
  | None => []
  end.

Definition detect_contract (contract : Contract) : list Output :=
  map (fun issue =>
         generate_result ARGUMENT IMPACT CONFIDENCE
           [ IStr ("🔑 Admin Risk: " ++ contract_name contract ++ " ");
             IStr issue; IStr LF ])
      (_check_deployer_patterns contract).

Definition _detect (cu : CompilationUnit) : Result (list Output) :=
  Ok (flat_map detect_contract (contracts_derived cu)).

Definition detector : AbstractDetector :=
  Build_AbstractDetector ARGUMENT HELP IMPACT CONFIDENCE _detect.

End SharedDeployerRisk.

Module L2BridgeExitRisk.

Definition ARGUMENT := "l2-bridge-exit-risk".
Definition HELP := "Admin may drain funds via L2→L1 bridge".
Definition IMPACT := HIGH.
Definition CONFIDENCE := LOW.

Definition BRIDGE_PATTERNS : list string :=
  [ "bridge"; "withdraw"; "l1gateway"; "outboundtransfer"; "sendtoL1";
    "initiatewithdrawal" ].

Definition ADMIN_PATTERNS : list string :=
  [ "onlyadmin"; "onlyowner"; "onlygovernance"; "onlyauthorized";
    "adminonly" ].

Definition _is_admin_withdrawal (order : SetOrder) (function : Function)
  : bool :=
  any_in ["withdraw"; "rescue"; "recover"; "sweep"; "transfer"; "bridge"]
    (lower (name function))
  && existsb (fun modifier =>
                any_in (order ADMIN_PATTERNS) (lower (modifier_name modifier)))
             (modifiers function).

Definition _check_withdrawal_safety (function : Function) : list string :=
  let contents := map (fun node => lower (node_str node)) (nodes function) in
  let has_limit :=
    existsb (any_in ["maxwithdrawal"; "withdrawallimit"; "dailylimit"])
            contents in
  let has_delay := existsb (any_in ["delay"; "timelock"; "pending"]) contents in
  let has_multisig :=
    existsb (any_in ["multisig"; "threshold"; "signatures"]) contents in
  ((if negb has_limit
    then ["no withdrawal limit - admin can drain all funds"] else [])
   ++ (if negb has_delay
       then ["no withdrawal delay - instant drain possible"] else [])
   ++ (if negb has_multisig
       then ["no multi-sig requirement - single key compromise sufficient"]
       else []))%list.

Definition detect_function (order : SetOrder) (function : Function)
  : list Output :=
  if _is_admin_withdrawal order function then
    map (fun issue =>
           generate_result ARGUMENT IMPACT CONFIDENCE
             [ IStr ("🌉 L2 Exit Risk: " ++ canonical_name function ++ " ");
               IStr issue; IStr LF ])
        (_check_withdrawal_safety function)
  else [].

Definition _detect (order : SetOrder) (cu : CompilationUnit)
  : Result (list Output) :=
  Ok (flat_map (fun contract =>
                  flat_map (detect_function order) (functions contract))
               (contracts_derived cu)).

Definition detector (order : SetOrder) : AbstractDetector :=
  Build_AbstractDetector ARGUMENT HELP IMPACT CONFIDENCE (_detect order).

End L2BridgeExitRisk.

Module EmergencyWithdrawRisk.

Definition ARGUMENT := "admin-emergency-withdraw".
Definition HELP := "Emergency withdraw may enable admin to steal user funds".
Definition IMPACT := HIGH.
Definition CONFIDENCE := MEDIUM.

Definition EMERGENCY_PATTERNS : list string :=
  [ "emergency"; "rescue"; "recover"; "sweep"; "panic" ].

Definition _is_emergency_function (order : SetOrder) (function : Function)
  : bool :=
  any_in (order EMERGENCY_PATTERNS) (lower (name function)).

Definition _check_emergency_safety (function : Function) : list string :=
  let restricted_to_admin :=
    existsb (fun modifier =>
               any_in ["admin"; "owner"; "governance"]
                 (lower (modifier_name modifier)))
            (modifiers function) in
  let contents := map (fun node => lower (node_str node)) (nodes function) in
  let requires_user_action :=
    existsb (fun content => contains "msg.sender" content
                            && any_in ["user"; "depositor"; "position"] content)
            contents in
  let has_token_whitelist :=
    existsb (fun content => contains "allowedtoken" content
                            || contains "rescuetokens" content) contents in
  ((if restricted_to_admin && negb requires_user_action
    then ["admin can withdraw without user consent"] else [])
   ++ (if negb has_token_whitelist
       then ["no token whitelist - can rescue any token including user deposits"]
       else []))%list.

Definition detect_function (order : SetOrder) (function : Function)
  : list Output :=
  if _is_emergency_function order function then
    map (fun issue =>
           generate_result ARGUMENT IMPACT CONFIDENCE
             [ IStr ("⚠️ Emergency Risk: " ++ canonical_name function ++ " ");
               IStr issue; IStr LF ])
        (_check_emergency_safety function)
  else [].

Definition _detect (order : SetOrder) (cu : CompilationUnit)
  : Result (list Output) :=
  Ok (flat_map (fun contract =>
                  flat_map (detect_function order) (functions contract))
               (contracts_derived cu)).

Definition detector (order : SetOrder) : AbstractDetector :=
  Build_AbstractDetector ARGUMENT HELP IMPACT CONFIDENCE (_detect order).

End EmergencyWithdrawRisk.

Module MultiSigBypassRisk.

Definition ARGUMENT := "admin-multisig-bypass".
Definition HELP := "Multi-sig protection may be bypassable".
Definition IMPACT := HIGH.
Definition CONFIDENCE := LOW.

Definition _is_multisig_contract (contract : Contract) : bool :=
  any_in ["multisig"; "gnosis"; "safe"; "wallet"; "signers"]
    (lower (contract_name contract)).

Definition _function_has_delay (function : Function) : bool :=
  existsb (fun node =>
             any_in ["delay"; "timelock"; "pending"; "queue"]
               (lower (node_str node)))
          (nodes function).

(** The issues of one function of the contract. *)
Definition check_function (function : Function) : list string :=
  let name_ := lower (name function) in
  ((if contains "threshold" name_ && negb (_function_has_delay function)
    then ["threshold change has no timelock"] else [])
   ++ (if any_in ["addsigner"; "removesigner"; "addowner"; "removeowner"] name_
          && negb (_function_has_delay function)
       then ["signer management has no timelock"] else []))%list.

Definition _check_multisig_safety (contract : Contract) : list string :=
  flat_map check_function (functions contract).

Definition detect_contract (contract : Contract) : list Output :=
  if _is_multisig_contract contract then
    map (fun issue =>
           generate_result ARGUMENT IMPACT CONFIDENCE
             [ IStr ("🔐 Multi-Sig Risk: " ++ contract_name contract ++ " ");
               IStr issue; IStr LF ])
        (_check_multisig_safety contract)
  else [].

Definition _detect (cu : CompilationUnit) : Result (list Output) :=
  Ok (flat_map detect_contract (contracts_derived cu)).

Definition detector : AbstractDetector :=
  Build_AbstractDetector ARGUMENT HELP IMPACT CONFIDENCE _detect.

End MultiSigBypassRisk.

Module admin_security.

Definition DETECTORS (order : SetOrder) : list AbstractDetector :=
  [ ProxyUpgradeNoTimelock.detector order;
    SharedDeployerRisk.detector;
    L2BridgeExitRisk.detector order;
    EmergencyWithdrawRisk.detector order;
    MultiSigBypassRisk.detector ].

End admin_security.

(* ================================================================== *)
(** * cryptographic_primitives.py                                       *)
(* ================================================================== *)

Module BN254ZeroPointDetector.

Definition ARGUMENT := "crypto-bn254-zero-point".
Definition HELP :=
  "BN254/BLS zero point (0,0) may bypass signature verification".
Definition IMPACT := CRITICAL.
Definition CONFIDENCE := MEDIUM.

Definition CRYPTO_PATTERNS : list string :=
  [ "bn254"; "bls"; "g1point"; "g2point"; "pairing"; "verifysignature";
    "verifyproof"; "aggregate"; "ecadd"; "ecmul"; "ecpairing" ].

Definition _handles_crypto (function : Function) : Result bool :=
  if any_in CRYPTO_PATTERNS (lower (name function)) then Ok true
  else
    by_parameter <-
      anyM (fun param =>
              let param_type := lower (var_type param) in
              if contains "uint256[2]" param_type
                 || contains "uint256[4]" param_type
              then
                n <- lower_of (var_name param) ;;
                Ok (any_in ["key"; "point"; "sig"; "pub"; "g1"; "g2"] n)
              else Ok false)
           (parameters function) ;;
    if by_parameter then Ok true
    else
      Ok (existsb (fun call =>
                     match call_name call with
                     | Some n => any_in CRYPTO_PATTERNS (lower n)
                     | None => false
                     end)
                  (internal_calls function)).

Definition zero_patterns : list string :=
  [ "!= 0"; "!= 0x0"; "!= address(0)"; "> 0"; "point.x != 0"; "point.y != 0";
    "require(.*key.*!= 0"; "require(.*point.*!= 0" ].

(** The local [source] the method computes first is never read. *)
Definition _has_zero_check (function : Function) : bool :=
  existsb (fun node =>
             existsb (fun pattern =>
                        contains (lower pattern) (lower (node_str node)))
                     zero_patterns)
          (nodes function).

Definition detect_function (function : Function) : Result (list Output) :=
  handles <- _handles_crypto function ;;
  if negb handles then Ok []
  else if negb (_has_zero_check function) then
    Ok [ generate_result ARGUMENT IMPACT CONFIDENCE
           [ IFunction function;
             IStr (" handles BN254/BLS points but may not validate against zero point (0,0)"
                   ++ LF);
             IStr ("Zero point is the identity element and can bypass signature verification"
                   ++ LF) ] ]
  else Ok [].

Definition _detect (cu : CompilationUnit) : Result (list Output) :=
  concatM (fun contract => concatM detect_function (functions contract))
          (contracts_derived cu).

Definition detector : AbstractDetector :=
  Build_AbstractDetector ARGUMENT HELP IMPACT CONFIDENCE _detect.

End BN254ZeroPointDetector.

Module RogueKeyAttackDetector.

Definition ARGUMENT := "crypto-rogue-key".
Definition HELP := "Missing proof-of-possession for BLS key registration".
Definition IMPACT := HIGH.
Definition CONFIDENCE := LOW.

Definition _is_key_registration (function : Function) : Result bool :=
  if any_in ["register"; "setkey"; "addkey"; "updatekey"; "setpublic"]
       (lower (name function))
  then
    anyM (fun param =>
            n <- lower_of (var_name param) ;;
            Ok (any_in ["key"; "pubkey"; "public"; "g1"; "g2"] n))
         (parameters function)
  else Ok false.

Definition _has_pop_verification (function : Function) : Result bool :=
  if existsb (fun node =>
                any_in ["verify"; "proof"; "signature"; "pop"]
                  (lower (node_str node)))
             (nodes function)
  then Ok true
  else
    anyM (fun param =>
            n <- lower_of (var_name param) ;;
            Ok (any_in ["proof"; "signature"; "pop"; "attestation"] n))
         (parameters function).

Definition detect_function (function : Function) : Result (list Output) :=
  registers <- _is_key_registration function ;;
  if negb registers then Ok []
  else
    has_pop <- _has_pop_verification function ;;
    if negb has_pop then
      Ok [ generate_result ARGUMENT IMPACT CONFIDENCE
             [ IFunction function;
               IStr (" registers BLS/BN254 keys without proof-of-possession"
                     ++ LF);
               IStr ("This enables rogue key attacks on aggregate signatures"
                     ++ LF) ] ]
    else Ok [].

Definition _detect (cu : CompilationUnit) : Result (list Output) :=
  concatM (fun contract => concatM detect_function (functions contract))
          (contracts_derived cu).

Definition detector : AbstractDetector :=
  Build_AbstractDetector ARGUMENT HELP IMPACT CONFIDENCE _detect.

End RogueKeyAttackDetector.

Module SignatureMalleabilityDetector.

Definition ARGUMENT := "crypto-sig-malleability".
Definition HELP :=
  "ECDSA signature may be malleable (s-value not restricted to lower half)".
Definition IMPACT := MEDIUM.
Definition CONFIDENCE := MEDIUM.

Definition _has_malleability_check (function : Function) : bool :=
  existsb (fun node =>
             let node_str_ := lower (node_str node) in
             contains "s <" node_str_ || contains "s <=" node_str_
             || contains "secp256k1" node_str_ && contains "div" node_str_
             || contains "ecdsa.recover" node_str_
             || contains "ecdsa.tryrecover" node_str_)
          (nodes function).

Definition detect_function (function : Function) : list Output :=
  flat_map (fun node =>
              if contains "ecrecover" (lower (node_str node))
                 && negb (_has_malleability_check function)
              then
                [ generate_result ARGUMENT IMPACT CONFIDENCE
                    [ INode node;
                      IStr (" uses ecrecover without s-value malleability protection"
                            ++ LF) ] ]
              else [])
           (nodes function).

Definition _detect (cu : CompilationUnit) : Result (list Output) :=
  Ok (flat_map (fun contract => flat_map detect_function (functions contract))
               (contracts_derived cu)).

Definition detector : AbstractDetector :=
  Build_AbstractDetector ARGUMENT HELP IMPACT CONFIDENCE _detect.

End SignatureMalleabilityDetector.

Module ZKProofVerificationGapDetector.

Definition ARGUMENT := "crypto-zk-verification-gap".
Definition HELP := "ZK proof verification may have gaps".
Definition IMPACT := HIGH.
Definition CONFIDENCE := LOW.

Definition ZK_PATTERNS : list string :=
  [ "verify"; "proof"; "groth16"; "plonk"; "snark"; "stark" ].

Definition _handles_zk (function : Function) : Result bool :=
  if any_in ZK_PATTERNS (lower (name function)) then Ok true
  else
    anyM (fun param =>
            n <- lower_of (var_name param) ;;
            Ok (contains "proof" n))
         (parameters function).

Definition _check_verification_completeness (function : Function)
  : list string :=
  let contents := map (fun node => lower (node_str node)) (nodes function) in
  let has_return_check :=
    existsb (fun s => contains "require" s && contains "verify" s) contents in
  let has_revert := existsb (contains "revert") contents in
  if negb has_return_check && negb has_revert
  then ["ZK verification result may not be checked"] else [].

Definition detect_function (function : Function) : Result (list Output) :=
  handles <- _handles_zk function ;;
  if negb handles then Ok []
  else
    Ok (map (fun issue =>
               generate_result ARGUMENT IMPACT CONFIDENCE
                 [ IFunction function; IStr (" " ++ issue ++ LF) ])
            (_check_verification_completeness function)).

Definition _detect (cu : CompilationUnit) : Result (list Output) :=
  concatM (fun contract => concatM detect_function (functions contract))
          (contracts_derived cu).

Definition detector : AbstractDetector :=
  Build_AbstractDetector ARGUMENT HELP IMPACT CONFIDENCE _detect.

End ZKProofVerificationGapDetector.

Module PrecompileGasExhaustionDetector.

Definition ARGUMENT := "crypto-precompile-gas-l2".
Definition HELP :=
  "Cryptographic precompile may exceed gas limits on some L2s".
Definition IMPACT := MEDIUM.
Definition CONFIDENCE := LOW.

Definition ECC_PRECOMPILES : list string :=
  [ "ecadd"; "ecmul"; "ecpairing"; "ecrecover"; "modexp" ].

Definition _count_precompile_uses (function : Function) : nat :=
  fold_left (fun count node =>
               fold_left (fun count precompile =>
                            if contains precompile (lower (node_str node))
                            then count + 1 else count)
                         ECC_PRECOMPILES count)
            (nodes function) 0.

Definition detect_function (function : Function) : list Output :=
  let precompile_uses := _count_precompile_uses function in
  if (0 <? precompile_uses)%nat then
    [ generate_result ARGUMENT IMPACT CONFIDENCE
        [ IFunction function;
          IStr (" uses " ++ str_nat precompile_uses
                ++ " ECC precompile(s) which may have higher gas costs on L2"
                ++ LF);
          IStr ("Consider L2-specific gas testing" ++ LF) ] ]
  else [].

Definition _detect (cu : CompilationUnit) : Result (list Output) :=
  Ok (flat_map (fun contract => flat_map detect_function (functions contract))
               (contracts_derived cu)).

Definition detector : AbstractDetector :=
  Build_AbstractDetector ARGUMENT HELP IMPACT CONFIDENCE _detect.

End PrecompileGasExhaustionDetector.

Module cryptographic_primitives.

Definition DETECTORS : list AbstractDetector :=
  [ BN254ZeroPointDetector.detector;
    RogueKeyAttackDetector.detector;
    SignatureMalleabilityDetector.detector;
    ZKProofVerificationGapDetector.detector;
    PrecompileGasExhaustionDetector.detector ].

End cryptographic_primitives.

(* ================================================================== *)
(** * fcfs_tiering.py                                                   *)
(* ================================================================== *)

Module TierBoundaryEdgeCaseDetector.

Definition ARGUMENT := "fcfs-tier-boundary".
Definition HELP :=
  "Integer division in tier boundaries may cause edge case bugs".
Definition IMPACT := HIGH.
Definition CONFIDENCE := MEDIUM.

Definition TIER_PATTERNS : list string :=
  [ "tier"; "rank"; "level"; "boundary"; "threshold" ].

Definition DIVISION_PATTERNS : list string :=
  [ "/ 100"; "* 100 /"; "percent"; "%" ].

Definition _handles_tiers (function : Function) : bool :=
  any_in TIER_PATTERNS (lower (name function))
  || existsb (fun node => any_in TIER_PATTERNS (lower (node_str node)))
             (nodes function).

Definition _has_tier_division (function : Function) : bool :=
  existsb (fun node =>
             let node_str_ := lower (node_str node) in
             (contains "/ 100" node_str_ || contains "/ 1000" node_str_)
             && any_in TIER_PATTERNS node_str_
             || (contains "percent" node_str_ || contains "bps" node_str_))
          (nodes function).

Definition detect_function (function : Function) : list Output :=
  if negb (_handles_tiers function) then []
  else if _has_tier_division function then
    [ generate_result ARGUMENT IMPACT CONFIDENCE
        [ IFunction function;
          IStr (" calculates tier boundaries using integer division" ++ LF);
          IStr ("At specific staker counts (e.g., 10N+4), boundaries may collide"
                ++ LF) ] ]
  else [].

Definition _detect (cu : CompilationUnit) : Result (list Output) :=
  Ok (flat_map (fun contract => flat_map detect_function (functions contract))
               (contracts_derived cu)).

Definition detector : AbstractDetector :=
  Build_AbstractDetector ARGUMENT HELP IMPACT CONFIDENCE _detect.

End TierBoundaryEdgeCaseDetector.

Module GhostStakerDetector.

Definition ARGUMENT := "fcfs-ghost-staker".
Definition HELP := "Zero-amount staking may create ghost entries in ranking".
Definition IMPACT := HIGH.
Definition CONFIDENCE := MEDIUM.

(** The test [_enforces_minimum] applies to one node. *)
Definition node_enforces_minimum (node : Node) : bool :=
  let node_str_ := lower (node_str node) in
  (contains "require" node_str_ || contains "revert" node_str_)
  && any_in ["amount > 0"; "amount >= min"; "minstake"; "_amount > 0"] node_str_
  || contains "if" node_str_ && contains "== 0" node_str_
     && contains "revert" node_str_.

Definition _enforces_minimum (function : Function) : bool :=
  existsb node_enforces_minimum (nodes function).

(** The test on the function's name that opens the loop body. *)
Definition is_stake_function (function : Function) : bool :=
  any_in ["stake"; "deposit"; "join"; "register"] (lower (name function)).

(** The result appended for one function. *)
Definition ghost_result (function : Function) : Output :=
  generate_result ARGUMENT IMPACT CONFIDENCE
    [ IFunction function;
      IStr (" may allow zero-amount staking, creating ghost entries" ++ LF) ].

Definition detect_function (function : Function) : list Output :=
  if negb (is_stake_function function) then []
  else if negb (_enforces_minimum function) then [ghost_result function]
  else [].

Definition _detect (cu : CompilationUnit) : Result (list Output) :=
  Ok (flat_map (fun contract => flat_map detect_function (functions contract))
               (contracts_derived cu)).

Definition detector : AbstractDetector :=
  Build_AbstractDetector ARGUMENT HELP IMPACT CONFIDENCE _detect.

End GhostStakerDetector.

Module CascadingTierUpdateDoSDetector.

Definition ARGUMENT := "fcfs-cascade-dos".
Definition HELP := "Cascading tier updates may cause gas exhaustion DoS".
Definition IMPACT := HIGH.
Definition CONFIDENCE := LOW.

Definition _modifies_ranking (function : Function) : Result bool :=
  if any_in ["stake"; "unstake"; "update"; "rerank"; "recalculate"]
       (lower (name function))
  then Ok true
  else
    anyM (fun var =>
            var_name_ <- lower_of (var_name var) ;;
            Ok (any_in ["rank"; "tier"; "position"; "tree"; "fenwick"] var_name_))
         (state_variables_written function).

Definition is_loop_node (node : Node) : bool :=
  mem (type_name (node_type node)) ["STARTLOOP"; "IFLOOP"].

Definition mentions_update (node : Node) : bool :=
  any_in ["update"; "recalculate"; "tier"; "rank"] (lower (node_str node)).

(** One iteration of the loop over [function.nodes], on the pair
    [(loop_count, has_update_in_loop)]. *)
Definition cascading_step (state : nat * bool) (node : Node) : nat * bool :=
  let '(loop_count, has_update_in_loop) := state in
  let loop_count := if is_loop_node node then loop_count + 1 else loop_count in
  let has_update_in_loop :=
    if (0 <? loop_count)%nat && mentions_update node then true
    else has_update_in_loop in
  (loop_count, has_update_in_loop).

Definition _has_cascading_loop (function : Function) : bool :=
  snd (fold_left cascading_step (nodes function) (0, false)).

(** The nodes from the first loop node on. *)
Fixpoint from_first_loop (body : list Node) : list Node :=
  match body with
  | [] => []
  | node :: rest =>
      if is_loop_node node then node :: rest else from_first_loop rest
  end.

Definition detect_function (function : Function) : Result (list Output) :=
  modifies <- _modifies_ranking function ;;
  if negb modifies then Ok []
  else if _has_cascading_loop function then
    Ok [ generate_result ARGUMENT IMPACT CONFIDENCE
           [ IFunction function;
             IStr (" may trigger cascading tier updates with O(k × log n) gas cost"
                   ++ LF);
             IStr ("Consider lazy calculation or batched updates" ++ LF) ] ]
  else Ok [].

Definition _detect (cu : CompilationUnit) : Result (list Output) :=
  concatM (fun contract => concatM detect_function (functions contract))
          (contracts_derived cu).

Definition detector : AbstractDetector :=
  Build_AbstractDetector ARGUMENT HELP IMPACT CONFIDENCE _detect.

End CascadingTierUpdateDoSDetector.

Module PositionGamingDetector.

Definition ARGUMENT := "fcfs-position-gaming".
Definition HELP := "FCFS ranking may be vulnerable to position gaming".
Definition IMPACT := MEDIUM.
Definition CONFIDENCE := LOW.

Definition _has_fcfs_mechanics (contract : Contract) : Result bool :=
  by_variable <-
    anyM (fun var =>
            var_name_ <- lower_of (var_name var) ;;
            Ok (any_in ["rank"; "tier"; "position"; "fcfs"; "queue"] var_name_))
         (state_variables contract) ;;
  if by_variable then Ok true
  else
    Ok (existsb (fun func =>
                   any_in ["rank"; "tier"; "position"] (lower (name func)))
                (functions contract)).

Definition _has_anti_gaming (contract : Contract) : Result bool :=
  by_variable <-
    anyM (fun var =>
            var_name_ <- lower_of (var_name var) ;;
            Ok (any_in ["cooldown"; "lockup"; "timelock"; "commit"; "reveal"]
                  var_name_))
         (state_variables contract) ;;
  if by_variable then Ok true
  else
    Ok (existsb (fun func =>
                   any_in ["cooldown"; "commit"; "reveal"; "lock"]
                     (lower (name func)))
                (functions contract)).

Definition detect_contract (contract : Contract) : Result (list Output) :=
  fcfs <- _has_fcfs_mechanics contract ;;
  if negb fcfs then Ok []
  else
    anti_gaming <- _has_anti_gaming contract ;;
    if negb anti_gaming then
      Ok [ generate_result ARGUMENT IMPACT CONFIDENCE
             [ IContract contract;
               IStr (" implements FCFS ranking without anti-gaming measures"
                     ++ LF);
               IStr ("Consider cooldowns, time-weighting, or commit-reveal"
                     ++ LF) ] ]
    else Ok [].

Definition _detect (cu : CompilationUnit) : Result (list Output) :=
  concatM detect_contract (contracts_derived cu).

Definition detector : AbstractDetector :=
  Build_AbstractDetector ARGUMENT HELP IMPACT CONFIDENCE _detect.

End PositionGamingDetector.

Module FenwickTreeConsistencyDetector.

Definition ARGUMENT := "fcfs-fenwick-consistency".
Definition HELP := "Fenwick tree may become inconsistent with actual state".
Definition IMPACT := HIGH.
Definition CONFIDENCE := LOW.

Definition TREE_PATTERNS : list string :=
  [ "fenwick"; "bit"; "binaryindexed"; "segmenttree"; "rankingtree" ].

Definition _uses_tree_structure (contract : Contract) : Result bool :=
  anyM (fun var =>
          var_name_ <- lower_of (var_name var) ;;
          Ok (any_in TREE_PATTERNS var_name_
              || any_in TREE_PATTERNS (lower (var_type var))))
       (state_variables contract).

Definition is_unstake_function (func : Function) : bool :=
  any_in ["unstake"; "withdraw"; "leave"; "exit"] (lower (name func)).

Definition has_tree_remove (func : Function) : bool :=
  existsb (fun node => any_in ["remove"; "delete"; "pop"] (lower (node_str node)))
          (nodes func).

Definition _check_consistency (contract : Contract)
  : list (string * Function) :=
  flat_map (fun func =>
              if negb (has_tree_remove func)
              then [("Unstake function may not remove from ranking tree", func)]
              else [])
           (filter is_unstake_function (functions contract)).

Definition detect_contract (contract : Contract) : Result (list Output) :=
  uses_tree <- _uses_tree_structure contract ;;
  if negb uses_tree then Ok []
  else
    Ok (map (fun '(issue, location) =>
               generate_result ARGUMENT IMPACT CONFIDENCE
                 [ IFunction location; IStr (" " ++ issue ++ LF) ])
            (_check_consistency contract)).

Definition _detect (cu : CompilationUnit) : Result (list Output) :=
  concatM detect_contract (contracts_derived cu).

Definition detector : AbstractDetector :=
  Build_AbstractDetector ARGUMENT HELP IMPACT CONFIDENCE _detect.

End FenwickTreeConsistencyDetector.

Module fcfs_tiering.

Definition DETECTORS : list AbstractDetector :=
  [ TierBoundaryEdgeCaseDetector.detector;
    GhostStakerDetector.detector;
    CascadingTierUpdateDoSDetector.detector;
    PositionGamingDetector.detector;
    FenwickTreeConsistencyDetector.detector ].

End fcfs_tiering.

(* ================================================================== *)
(** * __init__.py                                                       *)
(* ================================================================== *)

Definition MEV_DETECTORS := mev_risks.DETECTORS.
Definition L2_DETECTORS := l2_specific.DETECTORS.
Definition EMERGING_DETECTORS := emerging_protocols.DETECTORS.
Definition ADMIN_DETECTORS := admin_security.DETECTORS.
Definition CRYPTO_DETECTORS := cryptographic_primitives.DETECTORS.
Definition FCFS_DETECTORS := fcfs_tiering.DETECTORS.

Definition ALL_DETECTORS (order : SetOrder) : list AbstractDetector :=
  (MEV_DETECTORS order ++ L2_DETECTORS order ++ EMERGING_DETECTORS order
   ++ ADMIN_DETECTORS order ++ CRYPTO_DETECTORS ++ FCFS_DETECTORS)%list.

(* ================================================================== *)
(** * Concrete models                                                   *)
(* ================================================================== *)

Module Scenario.

Definition parameter (n t : string) : Variable_ :=
  {| var_name := Some n; var_canonical_name := n; var_type := t;
     var_expression := None |}.

(** A parameter whose [name] is [None]. *)
Definition nameless_parameter (t : string) : Variable_ :=
  {| var_name := None; var_canonical_name := EmptyString; var_type := t;
     var_expression := None |}.

Definition state_variable (n t : string) : Variable_ :=
  {| var_name := Some n; var_canonical_name := n; var_type := t;
     var_expression := None |}.

(** A constant argument and an argument that depends on the parameters
    at the given positions. *)
Definition constant (v : string) : Argument :=
  {| arg_value := Some v; arg_depends_on := [] |}.

Definition variable (depends_on : list nat) : Argument :=
  {| arg_value := None; arg_depends_on := depends_on |}.

(** The [function_name] of a call to the member [n]. *)
Definition called (n : string) : option Constant :=
  Some {| constant_text := n |}.

Definition node (id : nat) (t : NodeType) (text : string)
  (operations : list Operation) : Node :=
  {| node_id := id; node_type := t; node_str := text;
     node_expression := None; contains_require_or_assert := false;
     irs := operations |}.

Definition external_function (n canonical : string)
  (params : list Variable_) (body : list Node) : Function :=
  {| name := n; canonical_name := canonical; visibility := external;
     is_constructor := false; parameters := params; modifiers := [];
     nodes := body; state_variables_written := []; internal_calls := [] |}.

Definition contract (n : string) (fs : list Function) (vs : list Variable_)
  : Contract :=
  {| contract_name := n; functions := fs; state_variables := vs;
     inheritance := [] |}.

(** ** The exploit scenario of [MissingSlippageProtection]'s wiki text

<<
function swap(address tokenIn, address tokenOut, uint256 amountIn) external {
    router.swapExactTokensForTokens(amountIn, 0, path, msg.sender, block.timestamp);
}
>> *)

Definition wiki_call : Operation :=
  HighLevelCall (DVariable "router") (called "swapExactTokensForTokens")
    [ variable [2]; constant "0"; variable []; variable []; variable [] ].

Definition wiki_swap : Function :=
  external_function "swap" "Vault.swap(address,address,uint256)"
    [ parameter "tokenIn" "address"; parameter "tokenOut" "address";
      parameter "amountIn" "uint256" ]
    [ node 0 ENTRYPOINT "ENTRY_POINT" [];
      node 1 EXPRESSION
        "EXPRESSION router.swapExactTokensForTokens(amountIn,0,path,msg.sender,block.timestamp)"
        [wiki_call] ].

Definition wiki_unit : CompilationUnit :=
  {| contracts := [contract "Vault" [wiki_swap] []] |}.

(** ** A Curve-style exchange whose minimum output is a parameter

<<
function trade(uint256 dx, uint256 minDy) external {
    pool.exchange(0, 1, dx, minDy);
}
>> *)

Definition trade : Function :=
  external_function "trade" "Vault.trade(uint256,uint256)"
    [ parameter "dx" "uint256"; parameter "minDy" "uint256" ]
    [ node 0 ENTRYPOINT "ENTRY_POINT" [];
      node 1 EXPRESSION "EXPRESSION pool.exchange(0,1,dx,minDy)"
        [ HighLevelCall (DVariable "pool") (called "exchange")
            [ constant "0"; constant "1"; variable [0]; variable [1] ] ] ].

Definition trade_unit : CompilationUnit :=
  {| contracts := [contract "Vault" [trade] []] |}.

(** ** Three functions, the second with a nameless parameter

    [sell_all] and [buy_back] call [router.swap(0)]; [convert] forwards
    its only parameter to [router.swap]. *)

Definition zero_swap (n canonical : string) : Function :=
  external_function n canonical []
    [ node 0 ENTRYPOINT "ENTRY_POINT" [];
      node 1 EXPRESSION "EXPRESSION router.swap(0)"
        [HighLevelCall (DVariable "router") (called "swap") [constant "0"]] ].

Definition sell_all : Function := zero_swap "sellAll" "Desk.sellAll()".
Definition buy_back : Function := zero_swap "buyBack" "Desk.buyBack()".

Definition convert (param : Variable_) : Function :=
  external_function "convert" "Desk.convert(uint256)" [param]
    [ node 0 ENTRYPOINT "ENTRY_POINT" [];
      node 1 EXPRESSION "EXPRESSION router.swap(amount)"
        [HighLevelCall (DVariable "router") (called "swap") [variable [0]]] ].

Definition desk (param : Variable_) : CompilationUnit :=
  {| contracts := [contract "Desk" [sell_all; convert param; buy_back] []] |}.

Definition faulty_desk : CompilationUnit := desk (nameless_parameter "uint256").

(** ** A proxy admin whose upgrade function compares [block.timestamp] *)

Definition upgrade_to (body : list Node) : Function :=
  external_function "upgradeTo" "ProxyAdmin.upgradeTo(address)"
    [parameter "newImplementation" "address"] body.

Definition guarded_body : list Node :=
  [ node 0 ENTRYPOINT "ENTRY_POINT" [];
    node 1 EXPRESSION "EXPRESSION require(bool)(block.timestamp >= eta)" [];
    node 2 EXPRESSION "EXPRESSION implementation = newImplementation"
      [Assignment true] ].

Definition plain_body : list Node :=
  [ node 0 ENTRYPOINT "ENTRY_POINT" [];
    node 1 EXPRESSION "EXPRESSION implementation = newImplementation"
      [Assignment true] ].

Definition proxy_admin (body : list Node) (vars : list Variable_)
  : Contract :=
  contract "ProxyAdmin" [upgrade_to body] vars.

Definition proxy_unit (body : list Node) (vars : list Variable_)
  : CompilationUnit :=
  {| contracts := [proxy_admin body vars] |}.

(** ** A loop followed by a ranking update

<<
function unstakeAll(uint256[] calldata amounts) external {
    for (uint256 i = 0; i < amounts.length; i++) { total += amounts[i]; }
    updateRanking(msg.sender);
}
>> *)

Definition unstake_loop : list Node :=
  [ node 2 STARTLOOP "BEGIN_LOOP" [];
    node 3 IFLOOP "IF_LOOP i < amounts.length" [];
    node 4 EXPRESSION "EXPRESSION total += amounts[i]" [Assignment true];
    node 5 EXPRESSION "EXPRESSION i ++" [];
    node 6 ENDLOOP "END_LOOP" [] ].

Definition unstake_all : Function :=
  external_function "unstakeAll" "Pool.unstakeAll(uint256[])"
    [parameter "amounts" "uint256[]"]
    ([ node 0 ENTRYPOINT "ENTRY_POINT" [];
       node 1 VARIABLE "NEW VARIABLE i = 0" [] ]
     ++ unstake_loop
     ++ [ node 7 EXPRESSION "EXPRESSION updateRanking(msg.sender)" [] ])%list.

Definition pool_unit : CompilationUnit :=
  {| contracts := [contract "Pool" [unstake_all] []] |}.

(** ** The exploit scenario of [GhostStakerDetector]'s wiki text, and the
    same function with the missing [require] *)

Definition stake (body : list Node) : Function :=
  external_function "stake" "Staking.stake(uint256)"
    [parameter "amount" "uint256"] body.

Definition stake_body : list Node :=
  [ node 0 ENTRYPOINT "ENTRY_POINT" [];
    node 1 EXPRESSION "EXPRESSION stakedAmount[msg.sender] += amount"
      [Assignment true];
    node 2 EXPRESSION "EXPRESSION rankingTree.add(msg.sender)"
      [HighLevelCall (DVariable "rankingTree") (called "add") [variable []]] ].

Definition require_minimum : Node :=
  {| node_id := 1; node_type := EXPRESSION;
     node_str := "EXPRESSION require(bool)(amount >= minStakeAmount)";
     node_expression := Some "require(bool)(amount >= minStakeAmount)";
     contains_require_or_assert := true; irs := [] |}.

Definition staking_unit (body : list Node) : CompilationUnit :=
  {| contracts := [contract "Staking" [stake body] []] |}.

(** ** A slippage bound declared as a state variable

<<
uint256 public maxSlippageBps = 500;
>> *)

(** A literal initializer: Slither keeps the literal's text as its value. *)
Definition literal (text : string) : Expression :=
  {| expr_str := text; expr_value := Some (VStr text) |}.

Definition max_slippage (initializer : option Expression) : Variable_ :=
  {| var_name := Some "maxSlippageBps";
     var_canonical_name := "Vault.maxSlippageBps"; var_type := "uint256";
     var_expression := initializer |}.

Definition vault (initializer : option Expression) : Contract :=
  contract "Vault" [] [max_slippage initializer].

(** ** A stake function guarded by a [require] on [msg.value] *)

Definition require_value : Node :=
  {| node_id := 1; node_type := EXPRESSION;
     node_str := "EXPRESSION require(bool)(msg.value > 0)";
     node_expression := Some "require(bool)(msg.value > 0)";
     contains_require_or_assert := true; irs := [] |}.

(** ** A proxy admin that another contract inherits from

    [Treasury is ProxyAdmin]: Slither lists the inherited [upgradeTo]
    among the functions of [Treasury] too. *)

Definition treasury : Contract :=
  {| contract_name := "Treasury"; functions := [upgrade_to plain_body];
     state_variables := []; inheritance := ["ProxyAdmin"] |}.

Definition inherited_proxy_unit : CompilationUnit :=
  {| contracts := [proxy_admin plain_body []; treasury] |}.

(** ** Three swap functions, the second with a nameless parameter *)

Definition plain (n canonical : string) (params : list Variable_) : Function :=
  external_function n canonical params [node 0 ENTRYPOINT "ENTRY_POINT" []].

Definition exchange_desk (param : Variable_) : CompilationUnit :=
  {| contracts :=
       [ contract "Desk"
           [ plain "sellAll" "Desk.sellAll()" [];
             plain "exchange" "Desk.exchange(uint256)" [param];
             plain "buyBack" "Desk.buyBack()" [] ] [] ] |}.

(** ** A call whose [gas:] is followed by 4301 digits

    The text of the node is
    [EXPRESSION target.call{gas: 99...9}(data)]. *)

Fixpoint nines (n : nat) : string :=
  match n with
  | O => EmptyString
  | S n' => String "9" (nines n')
  end.

Definition long_gas_text : string :=
  "EXPRESSION target.call{gas: " ++ nines 4301 ++ "}(data)".

Definition forward : Function :=
  external_function "forward" "Relay.forward(bytes)"
    [parameter "data" "bytes"]
    [ node 0 ENTRYPOINT "ENTRY_POINT" [];
      node 1 EXPRESSION long_gas_text [] ].

(** ** A unit whose numbers exceed the interpreter's digit limit: the
    gas of [forward], and a slippage bound held as an integer of 4301
    digits *)

Definition oversized_unit : CompilationUnit :=
  {| contracts :=
       [ contract "Relay" [forward]
           [ {| var_name := Some "maxSlippageBps";
                var_canonical_name := "Relay.maxSlippageBps";
                var_type := "uint256";
                var_expression :=
                  Some {| expr_str := "maxSlippageBps";
                          expr_value := Some (VInt (10 ^ 4300)) |} |} ] ] |}.

End Scenario.

(* ================================================================== *)
(** * Notions used in the statements                                    *)
(* ================================================================== *)

(** Every character of [s] is white space for [\s]. *)
Fixpoint all_spaces (s : string) : bool :=
  match s with
  | EmptyString => true
  | String c s' => is_space c && all_spaces s'
  end.

(** Every variable of the list has a name. *)
Definition all_named (vars : list Variable_) : Prop :=
  forall v, In v vars -> var_name v <> None.

(** A unit in which the state variables of the derived contracts, the
    parameters of their functions and the state variables these write
    all have a name. *)
Definition well_named (cu : CompilationUnit) : Prop :=
  forall contract,
    In contract (contracts_derived cu) ->
    all_named (state_variables contract)
    /\ forall function,
         In function (functions contract) ->
         all_named (parameters function)
         /\ all_named (state_variables_written function).

(** The result carries the metadata of the rule. *)
Definition tagged (rule : AbstractDetector) (result : Output) : Prop :=
  check result = ARGUMENT rule
  /\ impact result = IMPACT rule
  /\ confidence result = CONFIDENCE rule.

(** The name a rule compares with its patterns:
    [name.lower().replace("_", "")]. *)
Definition normalized (n : string) : string := remove_char "_" (lower n).

(** No call node of a function carries, after [gas:], a number of more
    digits than [int] converts. *)
Definition short_gas_values (cu : CompilationUnit) : Prop :=
  forall contract function node d,
    In contract (contracts_derived cu) ->
    In function (functions contract) ->
    In node (nodes function) ->
    contains ".call{gas:" (node_str node)
    || contains ".call{value:" (node_str node) = true ->
    search_number_after "gas:" (node_str node) = Some d ->
    (Z.of_nat (String.length d) <= int_max_str_digits)%Z.

(** No slippage-named state variable is initialized with an integer of
    more digits than an f-string formats. *)
Definition short_slippage_values (cu : CompilationUnit) : Prop :=
  forall contract var expression value,
    In contract (contracts_derived cu) ->
    In var (state_variables contract) ->
    ExcessiveSlippageTolerance._is_slippage_variable var = Ok true ->
    var_expression var = Some expression ->
    ExcessiveSlippageTolerance._extract_numeric_value expression
    = Ok (Some value) ->
    (value < 10 ^ int_max_str_digits)%Z.

(** No function that the missing-slippage rule scans makes a high-level
    call that has a [function_name]. *)
Definition no_named_call (cu : CompilationUnit) : Prop :=
  forall contract function node destination c arguments,
    In contract (contracts_derived cu) ->
    In function (functions contract) ->
    is_constructor function = false ->
    visibility function <> private ->
    visibility function <> internal ->
    In node (nodes function) ->
    ~ In (HighLevelCall destination (Some c) arguments) (irs node).

(** The rules that call [lower] on a name that may be [None] or a
    [Constant]. *)
Definition name_reading_rules : list string :=
  [ MissingSlippageProtection.ARGUMENT; ExcessiveSlippageTolerance.ARGUMENT;
    MissingDeadlineCheck.ARGUMENT; RestakingSlashingRisk.ARGUMENT;
    MerkleProofRisk.ARGUMENT; ProxyUpgradeNoTimelock.ARGUMENT;
    BN254ZeroPointDetector.ARGUMENT; RogueKeyAttackDetector.ARGUMENT;
    ZKProofVerificationGapDetector.ARGUMENT;
    CascadingTierUpdateDoSDetector.ARGUMENT; PositionGamingDetector.ARGUMENT;
    FenwickTreeConsistencyDetector.ARGUMENT ].

(** The rules that convert between [int] and [str] outside any [try]. *)
Definition digit_limit_rules : list string :=
  [ ExcessiveSlippageTolerance.ARGUMENT; L2GasCalculationRisk.ARGUMENT ].

(** A unit none of whose variables has a name. *)
Definition nameless_unit : CompilationUnit :=
  {| contracts :=
       [ Scenario.contract "StakingProxy"
           [ {| name := "swap";
                canonical_name := "StakingProxy.swap(uint256[2])";
                visibility := external; is_constructor := false;
                parameters := [Scenario.nameless_parameter "uint256[2]"];
                modifiers := [];
                nodes :=
                  [ Scenario.node 1 EXPRESSION
                      "EXPRESSION router.swapExactTokensForTokens(amounts)"
                      [HighLevelCall (DVariable "router")
                         (Scenario.called "swapExactTokensForTokens")
                         [Scenario.variable [0]]] ];
                state_variables_written :=
                  [Scenario.nameless_parameter "uint256"];
                internal_calls := [] |};
             Scenario.external_function "registerKey"
               "StakingProxy.registerKey(uint256[2])"
               [Scenario.nameless_parameter "uint256[2]"] [];
             Scenario.external_function "slash" "StakingProxy.slash()" [] [] ]
           [Scenario.nameless_parameter "uint256"] ] |}.

(* ================================================================== *)
(** * The built-ins on concrete inputs                                  *)
(* ================================================================== *)

Example lower_folds_letters :
  lower "SwapExactTokensForTokens_X9" = "swapexacttokensfortokens_x9".
Proof. reflexivity. Qed.

Example remove_char_underscores :
  remove_char "_" (lower "_min_Amount_Out") = "minamountout".
Proof. reflexivity. Qed.

Example contains_substrings :
  contains "bc" "abcd" = true /\ contains "bd" "abcd" = false
  /\ contains "" "" = true /\ contains "a" "" = false.
Proof. repeat split. Qed.

Example int_of_str_literals :
  int_of_str "500" = Ok 500%Z /\ int_of_str " -1_000 " = Ok (-1000)%Z
  /\ int_of_str "0x258" = Raise ValueError
  /\ int_of_str "1__0" = Raise ValueError
  /\ int_of_str "" = Raise ValueError.
Proof. repeat split. Qed.

(** [int] does not skip the separators that [\s] matches, and refuses a
    literal of 4301 digits. *)
Example int_of_str_refusals :
  is_space (ascii_of_nat 28) = true
  /\ int_of_str (String (ascii_of_nat 28) "501") = Raise ValueError
  /\ (exists z, int_of_str (Scenario.nines 4300) = Ok z)
  /\ int_of_str (Scenario.nines 4301) = Raise ValueError
  /\ format_int 500 = Ok "500"
  /\ format_int (10 ^ 4300) = Raise ValueError.
Proof.
  split; [reflexivity|]. split; [reflexivity|].
  split; [eexists; vm_compute; reflexivity|].
  split; [vm_compute; reflexivity|].
  split; vm_compute; reflexivity.
Qed.

Example contracts_derived_drops_bases :
  map contract_name
      (contracts_derived
         {| contracts :=
              [ {| contract_name := "Base"; functions := [];
                   state_variables := []; inheritance := [] |};
                {| contract_name := "Vault"; functions := [];
                   state_variables := []; inheritance := ["Base"] |} ] |})
  = ["Vault"].
Proof. reflexivity. Qed.

(* ================================================================== *)
(** * Loops in the [Result] monad                                       *)
(* ================================================================== *)

Section Loops.

Context {A B : Type}.

Lemma concatM_pure (g : A -> list B) (l : list A) :
  concatM (fun x => Ok (g x)) l = Ok (flat_map g l).
Proof.
  induction l as [|x l IH]; simpl; [reflexivity|].
  now rewrite IH.
Qed.

Lemma concatM_ext (f g : A -> Result (list B)) (l : list A) :
  (forall x, In x l -> f x = g x) -> concatM f l = concatM g l.
Proof.
  induction l as [|x l IH]; intros Hfg; simpl; [reflexivity|].
  rewrite (Hfg x (or_introl eq_refl)), IH; [reflexivity|].
  intros y Hy. apply Hfg. now right.
Qed.

(** A loop that completes returns what its iterations returned. *)
Lemma concatM_Ok_in (f : A -> Result (list B)) (l : list A) (rs : list B) :
  concatM f l = Ok rs ->
  forall y, In y rs <-> exists x r, In x l /\ f x = Ok r /\ In y r.
Proof.
  revert rs. induction l as [|x l IH]; simpl; intros rs Hrs y.
  - injection Hrs as <-. split; [intros []|intros (x & r & [] & _)].
  - destruct (f x) as [r|e] eqn:Hfx; simpl in Hrs; [|discriminate].
    destruct (concatM f l) as [rs'|e] eqn:Hl; simpl in Hrs; [|discriminate].
    injection Hrs as <-. rewrite in_app_iff, (IH rs' eq_refl y). split.
    + intros [Hy|(x' & r' & Hx' & Hfx' & Hy)].
      * exists x, r. auto.
      * exists x', r'. auto.
    + intros (x' & r' & [<-|Hx'] & Hfx' & Hy).
      * left. congruence.
      * right. exists x', r'. auto.
Qed.

(** An exception raised by one iteration leaves the loop. *)
Lemma concatM_raises (f : A -> Result (list B)) (l : list A) (x : A)
  (e : Exception) :
  In x l -> f x = Raise e -> exists e', concatM f l = Raise e'.
Proof.
  induction l as [|a l IH]; simpl; [intros []|].
  intros [->|Hx] Hfx.
  - rewrite Hfx. simpl. eauto.
  - destruct (f a) as [r|e0]; simpl; [|eauto].
    destruct (IH Hx Hfx) as [e' ->]. simpl. eauto.
Qed.

(** An exception that leaves the loop was raised by one iteration. *)
Lemma concatM_Raise_in (f : A -> Result (list B)) (l : list A)
  (e : Exception) :
  concatM f l = Raise e -> exists x, In x l /\ f x = Raise e.
Proof.
  induction l as [|a l IH]; simpl; [discriminate|].
  destruct (f a) as [r|e0] eqn:Hfa; simpl.
  - destruct (concatM f l) as [rs|e1]; simpl; [discriminate|].
    intros [= ->]. destruct (IH eq_refl) as (x & Hx & Hfx). eauto.
  - intros [= ->]. eauto.
Qed.

(** A loop none of whose iterations raises completes. *)
Lemma concatM_completes (f : A -> Result (list B)) (l : list A) :
  (forall x, In x l -> exists r, f x = Ok r) -> exists rs, concatM f l = Ok rs.
Proof.
  induction l as [|a l IH]; simpl; intros Hf; [eauto|].
  destruct (Hf a (or_introl eq_refl)) as [r ->]. simpl.
  destruct IH as [rs ->]; [intros x Hx; apply Hf; now right|].
  simpl. eauto.
Qed.

Lemma anyM_pure (p : A -> bool) (l : list A) :
  anyM (fun x => Ok (p x)) l = Ok (existsb p l).
Proof.
  induction l as [|x l IH]; simpl; [reflexivity|].
  destruct (p x); simpl; [reflexivity|exact IH].
Qed.

Lemma anyM_ext (f g : A -> Result bool) (l : list A) :
  (forall x, In x l -> f x = g x) -> anyM f l = anyM g l.
Proof.
  induction l as [|x l IH]; intros Hfg; simpl; [reflexivity|].
  rewrite (Hfg x (or_introl eq_refl)), IH; [reflexivity|].
  intros y Hy. apply Hfg. now right.
Qed.

Lemma existsb_ext_in (p q : A -> bool) (l : list A) :
  (forall x, In x l -> p x = q x) -> existsb p l = existsb q l.
Proof.
  induction l as [|x l IH]; intros Hpq; simpl; [reflexivity|].
  rewrite (Hpq x (or_introl eq_refl)), IH; [reflexivity|].
  intros y Hy. apply Hpq. now right.
Qed.

End Loops.

(** A test that does not depend on the order of the list tested. *)
Lemma existsb_Permutation {A : Type} (p : A -> bool) (l l' : list A) :
  Permutation l l' -> existsb p l = existsb p l'.
Proof.
  induction 1 as [|x l l' _ IH|x y l|l l' l'' _ IH1 _ IH2]; simpl.
  - reflexivity.
  - now rewrite IH.
  - now destruct (p x), (p y).
  - congruence.
Qed.

(* ================================================================== *)
(** * The empty model                                                   *)
(* ================================================================== *)

(** C7. Every rule of the combined catalogue [ALL_DETECTORS], whatever the
    iteration order of its pattern sets, returns the empty list of
    findings on a compilation unit that holds no contract, and returns it
    normally: no evaluation raises. *)
Theorem empty_model_no_findings (order : SetOrder) :
  Forall (fun d => _detect d {| contracts := [] |} = Ok [])
         (ALL_DETECTORS order).
Proof.
  unfold ALL_DETECTORS, MEV_DETECTORS, L2_DETECTORS, EMERGING_DETECTORS,
    ADMIN_DETECTORS, CRYPTO_DETECTORS, FCFS_DETECTORS.
  repeat (apply Forall_cons; [reflexivity|]).
  apply Forall_nil.
Qed.

(** The catalogue holds the thirty-one rules of the six families. *)
Lemma ALL_DETECTORS_length (order : SetOrder) :
  length (ALL_DETECTORS order) = 31.
Proof. reflexivity. Qed.

(* ================================================================== *)
(** * Numeric extraction                                                *)
(* ================================================================== *)

Lemma digit_not_space (c : ascii) : is_digit c = true -> is_space c = false.
Proof.
  destruct c as [[] [] [] [] [] [] [] []]; vm_compute; intros H;
    solve [reflexivity | discriminate H].
Qed.

Lemma lstrip_digits (d : string) : all_digits d = true -> lstrip d = d.
Proof.
  destruct d as [|c d]; simpl; [reflexivity|].
  intros H. apply andb_prop in H as [Hc _].
  now rewrite (digit_not_space c Hc).
Qed.

Lemma digit_not_c_space (c : ascii) :
  is_digit c = true -> is_c_space c = false.
Proof.
  destruct c as [[] [] [] [] [] [] [] []]; vm_compute; intros H;
    solve [reflexivity | discriminate H].
Qed.

Lemma skip_leading_digits (d : string) :
  all_digits d = true -> skip_leading d = d.
Proof.
  destruct d as [|c d]; simpl; [reflexivity|].
  intros H. apply andb_prop in H as [Hc _].
  now rewrite (digit_not_c_space c Hc).
Qed.

Lemma skip_trailing_digits (d : string) :
  all_digits d = true -> skip_trailing d = d.
Proof.
  induction d as [|c d IH]; simpl; [reflexivity|].
  intros H. apply andb_prop in H as [Hc Hd].
  rewrite (IH Hd), (digit_not_c_space c Hc). now destruct d.
Qed.

Lemma count_digits_all_digits (d : string) :
  all_digits d = true -> count_digits d = String.length d.
Proof.
  induction d as [|c d IH]; simpl; [reflexivity|].
  intros H. apply andb_prop in H as [Hc Hd]. now rewrite Hc, (IH Hd).
Qed.

Lemma digit_value_nonneg (c : ascii) : (0 <= digit_value c)%Z.
Proof. unfold digit_value. apply Nat2Z.is_nonneg. Qed.

Lemma digits_value_digits (d : string) :
  all_digits d = true ->
  forall (acc : Z) (seen : bool),
    (seen = true \/ d <> EmptyString) -> (0 <= acc)%Z ->
    exists z, digits_value acc seen d = Some z /\ (0 <= z)%Z.
Proof.
  induction d as [|c d IH]; cbn [digits_value all_digits];
    intros H acc seen Hne Hacc.
  - destruct Hne as [->|Hne]; [eauto|congruence].
  - apply andb_prop in H as [Hc Hd]. rewrite Hc.
    apply IH; [assumption|now left|].
    pose proof (digit_value_nonneg c). lia.
Qed.

Lemma signed_value_digit (c : ascii) (d : string) :
  is_digit c = true ->
  signed_value (String c d) = digits_value 0 false (String c d).
Proof.
  destruct c as [[] [] [] [] [] [] [] []]; intros H;
    solve [reflexivity | vm_compute in H; discriminate H].
Qed.

(** On a non-empty string of digits [int()] fails only by the
    interpreter's limit. *)
Lemma int_of_str_digits (d : string) :
  all_digits d = true -> d <> EmptyString ->
  ((Z.of_nat (String.length d) <= int_max_str_digits)%Z ->
   exists z, int_of_str d = Ok z /\ (0 <= z)%Z)
  /\ ((int_max_str_digits < Z.of_nat (String.length d))%Z ->
      int_of_str d = Raise ValueError).
Proof.
  intros H Hne. unfold int_of_str. cbv zeta.
  rewrite (skip_leading_digits d H), (skip_trailing_digits d H),
    (count_digits_all_digits d H).
  destruct d as [|c d]; [congruence|].
  pose proof H as H'. simpl in H'. apply andb_prop in H' as [Hc _].
  rewrite (signed_value_digit c d Hc).
  destruct (digits_value_digits (String c d) H 0%Z false) as (z & -> & Hz);
    [now right|lia|].
  destruct (Z.leb_spec (Z.of_nat (String.length (String c d)))
              int_max_str_digits) as [Hle|Hgt].
  - split; [eauto|lia].
  - split; [lia|reflexivity].
Qed.

(** [int()] of a string raises nothing but [ValueError]. *)
Lemma int_of_str_raises (s : string) (e : Exception) :
  int_of_str s = Raise e -> e = ValueError.
Proof.
  unfold int_of_str. cbv zeta.
  destruct (signed_value _); [destruct (_ <=? _)%Z|];
    [discriminate|now intros [= <-]|now intros [= <-]].
Qed.

Lemma format_int_raises (z : Z) (e : Exception) :
  format_int z = Raise e -> e = ValueError.
Proof.
  unfold format_int. destruct (_ <? _)%Z; [discriminate|now intros [= <-]].
Qed.

Lemma take_digits_all_digits (s : string) : all_digits (take_digits s) = true.
Proof.
  induction s as [|c s IH]; simpl; [reflexivity|].
  destruct (is_digit c) eqn:Hc; simpl; [now rewrite Hc|reflexivity].
Qed.

Lemma match_number_after_digits (lit s d : string) :
  match_number_after lit s = Some d ->
  all_digits d = true /\ d <> EmptyString.
Proof.
  unfold match_number_after.
  destruct (after_prefix lit s) as [rest|]; [|discriminate].
  pose proof (take_digits_all_digits (lstrip rest)) as H.
  destruct (take_digits (lstrip rest)) as [|c r]; [discriminate|].
  intros [= <-]. split; [exact H|discriminate].
Qed.

(** Group 1 of a match is a non-empty string of digits. *)
Lemma search_number_after_digits (lit s d : string) :
  search_number_after lit s = Some d ->
  all_digits d = true /\ d <> EmptyString.
Proof.
  induction s as [|c s IH]; simpl.
  - destruct (match_number_after lit "") as [d'|] eqn:Hm; [|discriminate].
    intros [= <-]. exact (match_number_after_digits _ _ _ Hm).
  - destruct (match_number_after lit (String c s)) as [d'|] eqn:Hm.
    + intros [= <-]. exact (match_number_after_digits _ _ _ Hm).
    + exact IH.
Qed.

(** What the scan followed by [int] yields on a text, by the group the
    scan finds. *)
Lemma gas_value_of_cases (content : string) :
  (search_number_after "gas:" content = None
   /\ L2GasCalculationRisk.gas_value_of content = Ok None)
  \/ (exists d n,
        search_number_after "gas:" content = Some d
        /\ (Z.of_nat (String.length d) <= int_max_str_digits)%Z
        /\ int_of_str d = Ok n /\ (0 <= n)%Z
        /\ L2GasCalculationRisk.gas_value_of content = Ok (Some n))
  \/ (exists d,
        search_number_after "gas:" content = Some d
        /\ (int_max_str_digits < Z.of_nat (String.length d))%Z
        /\ L2GasCalculationRisk.gas_value_of content = Raise ValueError).
Proof.
  unfold L2GasCalculationRisk.gas_value_of.
  destruct (search_number_after "gas:" content) as [d|] eqn:Hs; [|now left].
  right. destruct (search_number_after_digits _ _ _ Hs) as [Hd Hne].
  destruct (int_of_str_digits d Hd Hne) as [Hshort Hlong].
  destruct (Z.leb_spec (Z.of_nat (String.length d)) int_max_str_digits)
    as [Hle|Hgt].
  - left. destruct (Hshort Hle) as (n & Hn & H0). exists d, n.
    rewrite Hn. auto.
  - right. exists d. rewrite (Hlong Hgt). auto.
Qed.

(** C4. The scan for a number after [gas:] in a node's text
    ([re.search(r'gas:\s*(\d+)', content)] followed by [int] of group 1)
    yields 21000 on [swap{gas: 21000}] and nothing on [swap()].  On the
    text [EXPRESSION target.call{gas: 99...9}(data)] with 4301 digits it
    raises [ValueError].  On every text it returns nothing, returns a
    natural number, or raises [ValueError]; the last exactly when the
    group the scan finds has more than [int_max_str_digits] digits. *)
Theorem gas_value_extraction :
  L2GasCalculationRisk.gas_value_of "swap{gas: 21000}" = Ok (Some 21000%Z)
  /\ L2GasCalculationRisk.gas_value_of "swap()" = Ok None
  /\ L2GasCalculationRisk.gas_value_of Scenario.long_gas_text
     = Raise ValueError
  /\ forall content : string,
       L2GasCalculationRisk.gas_value_of content = Ok None
       \/ (exists n : Z,
             L2GasCalculationRisk.gas_value_of content = Ok (Some n)
             /\ (0 <= n)%Z)
       \/ (L2GasCalculationRisk.gas_value_of content = Raise ValueError
           /\ exists d,
                search_number_after "gas:" content = Some d
                /\ (int_max_str_digits < Z.of_nat (String.length d))%Z).
Proof.
  split; [reflexivity|]. split; [reflexivity|].
  split; [vm_compute; reflexivity|].
  intros content.
  destruct (gas_value_of_cases content)
    as [[_ H]|[(d & n & _ & _ & _ & H0 & H)|(d & Hs & Hlong & H)]].
  - now left.
  - right. left. eauto.
  - right. right. eauto.
Qed.

(** The scan skips an occurrence of [gas:] that no number follows and
    reads leading zeros as Python's [int] does. *)
Example gas_value_second_occurrence :
  L2GasCalculationRisk.gas_value_of "gas: x, gas:007}" = Ok (Some 7%Z).
Proof. reflexivity. Qed.

(* ================================================================== *)
(** * mev-excessive-slippage                                            *)
(* ================================================================== *)

(** The [try]/[except] of [_extract_numeric_value] catches both exceptions
    [int] can raise. *)
Lemma extract_numeric_value_total (expression : Expression) :
  exists value, ExcessiveSlippageTolerance._extract_numeric_value expression
                = Ok value.
Proof.
  unfold ExcessiveSlippageTolerance._extract_numeric_value.
  destruct (expr_value expression) as [[z|s|]|];
    cbn [ExcessiveSlippageTolerance.int_of_value bind try_except]; eauto.
  destruct (int_of_str s) as [z|e] eqn:H; cbn [bind try_except]; [eauto|].
  rewrite (int_of_str_raises _ _ H). eauto.
Qed.

Lemma extract_unparseable (expression : Expression) (v : Value) (e : Exception) :
  expr_value expression = Some v ->
  ExcessiveSlippageTolerance.int_of_value v = Raise e ->
  ExcessiveSlippageTolerance._extract_numeric_value expression = Ok None.
Proof.
  intros Hv He. unfold ExcessiveSlippageTolerance._extract_numeric_value.
  rewrite Hv, He. cbn [bind try_except].
  destruct v as [z|s|]; cbn [ExcessiveSlippageTolerance.int_of_value] in He.
  - discriminate.
  - now rewrite (int_of_str_raises _ _ He).
  - now injection He as <-.
Qed.

Lemma check_slippage_value_cases (var : Variable_) (contract : Contract) :
  ExcessiveSlippageTolerance._check_slippage_value var contract = Ok []
  \/ (exists expression value,
        var_expression var = Some expression
        /\ ExcessiveSlippageTolerance._extract_numeric_value expression
           = Ok (Some value)
        /\ (500 < value)%Z
        /\ ExcessiveSlippageTolerance._check_slippage_value var contract
           = Ok [ExcessiveSlippageTolerance.excessive_issue var value])
  \/ (exists expression value,
        var_expression var = Some expression
        /\ ExcessiveSlippageTolerance._extract_numeric_value expression
           = Ok (Some value)
        /\ (10 ^ int_max_str_digits <= value)%Z
        /\ ExcessiveSlippageTolerance._check_slippage_value var contract
           = Raise ValueError).
Proof.
  unfold ExcessiveSlippageTolerance._check_slippage_value.
  destruct (var_expression var) as [expression|]; [|now left].
  destruct (extract_numeric_value_total expression) as [[v|] Hv];
    rewrite Hv; cbn [bind]; [|now left].
  destruct (negb (v =? 0)%Z && (ExcessiveSlippageTolerance.MAX_SLIPPAGE_BPS <? v)%Z)
    eqn:Hgt; [|now left].
  apply andb_prop in Hgt as [_ Hgt]. apply Z.ltb_lt in Hgt.
  unfold ExcessiveSlippageTolerance.MAX_SLIPPAGE_BPS in Hgt.
  right. unfold format_int.
  destruct (Z.ltb_spec (Z.abs v) (10 ^ int_max_str_digits)) as [Hlt|Hge];
    cbn [bind].
  - left. exists expression, v. auto.
  - right. exists expression, v. repeat split; auto. lia.
Qed.

(** C10. A finding of the excessive-slippage rule always comes from a
    slippage-named state variable of a derived contract whose initializer
    has a numeric value strictly above 500.  For such a variable the rule
    returns normally with no finding when the value is exactly 500, when
    there is no initializer, and when [int] rejects the initializer's
    value. *)
Theorem excessive_slippage_threshold :
  (forall (cu : CompilationUnit) (results : list Output) (result : Output),
     ExcessiveSlippageTolerance._detect cu = Ok results ->
     In result results ->
     exists contract var expression value,
       In contract (contracts_derived cu)
       /\ In var (state_variables contract)
       /\ ExcessiveSlippageTolerance._is_slippage_variable var = Ok true
       /\ var_expression var = Some expression
       /\ ExcessiveSlippageTolerance._extract_numeric_value expression
          = Ok (Some value)
       /\ (500 < value)%Z
       /\ result = generate_result ExcessiveSlippageTolerance.ARGUMENT
                     ExcessiveSlippageTolerance.IMPACT
                     ExcessiveSlippageTolerance.CONFIDENCE
                     (ExcessiveSlippageTolerance.excessive_issue var value))
  /\ (forall (contract : Contract) (var : Variable_),
        ExcessiveSlippageTolerance._is_slippage_variable var = Ok true ->
        (forall expression,
           var_expression var = Some expression ->
           ExcessiveSlippageTolerance._extract_numeric_value expression
           = Ok (Some 500%Z) ->
           ExcessiveSlippageTolerance.detect_variable contract var = Ok [])
        /\ (var_expression var = None ->
            ExcessiveSlippageTolerance.detect_variable contract var = Ok [])
        /\ (forall expression v e,
              var_expression var = Some expression ->
              expr_value expression = Some v ->
              ExcessiveSlippageTolerance.int_of_value v = Raise e ->
              ExcessiveSlippageTolerance.detect_variable contract var = Ok [])).
Proof.
  split.
  - intros cu results result Hdetect Hin.
    unfold ExcessiveSlippageTolerance._detect in Hdetect.
    apply (concatM_Ok_in _ _ _ Hdetect) in Hin
      as (contract & rs & Hcontract & Hrs & Hin).
    apply (concatM_Ok_in _ _ _ Hrs) in Hin as (var & r & Hvar & Hr & Hin).
    unfold ExcessiveSlippageTolerance.detect_variable in Hr.
    destruct (ExcessiveSlippageTolerance._is_slippage_variable var)
      as [[|]|] eqn:Hname; simpl in Hr; try discriminate.
    + destruct (check_slippage_value_cases var contract)
        as [Hnone|[(expression & value & He & Hv & Hgt & Hsome)
                  |(_ & _ & _ & _ & _ & Hraise)]].
      * rewrite Hnone in Hr. simpl in Hr. injection Hr as <-. destruct Hin.
      * rewrite Hsome in Hr. simpl in Hr. injection Hr as <-.
        destruct Hin as [<-|[]].
        exists contract, var, expression, value. auto 10.
      * rewrite Hraise in Hr. discriminate Hr.
    + injection Hr as <-. destruct Hin.
  - intros contract var Hname.
    unfold ExcessiveSlippageTolerance.detect_variable,
      ExcessiveSlippageTolerance._check_slippage_value.
    rewrite Hname. simpl. repeat split.
    + intros expression -> ->. reflexivity.
    + intros ->. reflexivity.
    + intros expression v e -> Hv He.
      now rewrite (extract_unparseable expression v e Hv He).
Qed.

(** The threshold on concrete initializers: 501 is reported; 500, no
    initializer and the hexadecimal literal [0x258] are not. *)
Example excessive_slippage_501 :
  exists result,
    ExcessiveSlippageTolerance._detect
      {| contracts := [Scenario.vault (Some (Scenario.literal "501"))] |}
    = Ok [result].
Proof. eexists. reflexivity. Qed.

Lemma excessive_slippage_threshold_witness :
  ExcessiveSlippageTolerance.detect_variable
    (Scenario.vault (Some (Scenario.literal "500")))
    (Scenario.max_slippage (Some (Scenario.literal "500"))) = Ok []
  /\ ExcessiveSlippageTolerance.detect_variable
       (Scenario.vault None) (Scenario.max_slippage None) = Ok []
  /\ ExcessiveSlippageTolerance.detect_variable
       (Scenario.vault (Some (Scenario.literal "0x258")))
       (Scenario.max_slippage (Some (Scenario.literal "0x258"))) = Ok [].
Proof.
  split; [|split].
  - apply (proj2 excessive_slippage_threshold
             (Scenario.vault (Some (Scenario.literal "500")))
             (Scenario.max_slippage (Some (Scenario.literal "500")))
             eq_refl)
      with (expression := Scenario.literal "500"); reflexivity.
  - apply (proj2 excessive_slippage_threshold
             (Scenario.vault None) (Scenario.max_slippage None) eq_refl).
    reflexivity.
  - apply (proj2 excessive_slippage_threshold
             (Scenario.vault (Some (Scenario.literal "0x258")))
             (Scenario.max_slippage (Some (Scenario.literal "0x258")))
             eq_refl)
      with (expression := Scenario.literal "0x258")
           (v := VStr "0x258") (e := ValueError); reflexivity.
Defined.

(* ================================================================== *)
(** * mev-missing-slippage                                              *)
(* ================================================================== *)

Lemma mem_Permutation (x : string) (l l' : list string) :
  Permutation l l' -> mem x l = mem x l'.
Proof. apply existsb_Permutation. Qed.

Lemma any_in_Permutation (l l' : list string) (s : string) :
  Permutation l l' -> any_in l s = any_in l' s.
Proof. apply existsb_Permutation. Qed.

(** What [scan_arguments] answers is decided by the first argument that
    is the constant 0 or depends on a parameter. *)
Lemma scan_arguments_first_dependent (arg : Argument) (rest : list Argument)
  (function : Function) :
  arg_value arg <> Some "0" ->
  depends_on_a_parameter arg function = true ->
  MissingSlippageProtection.scan_arguments (arg :: rest) function = true.
Proof.
  intros Hzero Hdep. simpl. rewrite Hdep.
  destruct (arg_value arg) as [v|]; [|reflexivity].
  destruct (String.eqb_spec v "0") as [->|Hne]; [congruence|].
  destruct v as [|[[] [] [] [] [] [] [] []] [|c v]]; try reflexivity.
  congruence.
Qed.

Lemma scan_arguments_first_zero (arg : Argument) (rest : list Argument)
  (function : Function) :
  arg_value arg = Some "0" ->
  MissingSlippageProtection.scan_arguments (arg :: rest) function = false.
Proof. intros H. simpl. now rewrite H. Qed.

(** C1. On the exploit scenario of the rule's own wiki text (an external
    function [swap], no parameter named as a minimum output, calling
    [swapExactTokensForTokens] with the constant 0 as second argument) the
    missing-slippage rule returns no finding: it raises [AttributeError],
    because it calls [lower] on the call's [function_name], which is a
    [Constant].  The test of the arguments, had it been reached, would
    have found the call protected: the first argument [amountIn] depends
    on a parameter, and the scan of the arguments stops there. *)
Theorem wiki_exploit_not_reported (order : SetOrder) :
  is_constructor Scenario.wiki_swap = false
  /\ visibility Scenario.wiki_swap = external
  /\ In Scenario.wiki_call
        (flat_map irs (nodes Scenario.wiki_swap))
  /\ match Scenario.wiki_call with
     | HighLevelCall _ (Some c) _ =>
         mem (lower (constant_text c))
             (map lower MissingSlippageProtection.DEX_SWAP_FUNCTIONS)
     | _ => false
     end = true
  /\ match Scenario.wiki_call with
     | HighLevelCall _ _ arguments => nth_error arguments 1
     | _ => None
     end = Some (Scenario.constant "0")
  /\ (forall p n, In p (parameters Scenario.wiki_swap) ->
        var_name p = Some n ->
        mem (remove_char "_" (lower n))
            MissingSlippageProtection.MIN_OUTPUT_PARAMS = false)
  /\ MissingSlippageProtection._detect order Scenario.wiki_unit
     = Raise AttributeError
  /\ match Scenario.wiki_call with
     | HighLevelCall _ _ arguments =>
         MissingSlippageProtection._has_slippage_protection arguments
           Scenario.wiki_swap
     | _ => Ok false
     end = Ok true.
Proof.
  repeat split; try reflexivity.
  - simpl. auto.
  - intros p n [<-|[<-|[<-|[]]]] [= <-]; reflexivity.
Qed.

(** The scan is blind to the position of the minimum output in the other
    direction too: the arguments of [pool.exchange(0, 1, dx, minDy)] are
    found unprotected, although the last is a parameter, because the
    first is the constant 0. *)
Example exchange_with_minimum_unprotected :
  MissingSlippageProtection._has_slippage_protection
    [ Scenario.constant "0"; Scenario.constant "1"; Scenario.variable [0];
      Scenario.variable [1] ]
    Scenario.trade
  = Ok false.
Proof. reflexivity. Qed.

(** C9. The missing-slippage rule skips a constructor and a private or
    internal function before it looks at the body: the function
    contributes no finding and no exception, whatever its nodes, calls and
    arguments are.  Every finding the rule returns comes from an issue of
    a function that is neither. *)
Theorem missing_slippage_skips (order : SetOrder) :
  (forall function : Function,
     is_constructor function = true
     \/ visibility function = private \/ visibility function = internal ->
     MissingSlippageProtection.detect_function order function = Ok [])
  /\ (forall (cu : CompilationUnit) (results : list Output) (result : Output),
        MissingSlippageProtection._detect order cu = Ok results ->
        In result results ->
        exists contract function issues issue,
          In contract (contracts_derived cu)
          /\ In function (functions contract)
          /\ is_constructor function = false
          /\ visibility function <> private
          /\ visibility function <> internal
          /\ MissingSlippageProtection._check_function_slippage order function
             = Ok issues
          /\ In issue issues
          /\ result = MissingSlippageProtection.issue_result function issue).
Proof.
  split.
  - intros function H. unfold MissingSlippageProtection.detect_function.
    destruct H as [->|[->| ->]]; [reflexivity| |];
      now rewrite orb_true_r.
  - intros cu results result Hdetect Hin.
    unfold MissingSlippageProtection._detect in Hdetect.
    apply (concatM_Ok_in _ _ _ Hdetect) in Hin
      as (contract & rs & Hcontract & Hrs & Hin).
    apply (concatM_Ok_in _ _ _ Hrs) in Hin
      as (function & r & Hfunction & Hr & Hin).
    unfold MissingSlippageProtection.detect_function in Hr.
    destruct (is_constructor function) eqn:Hcons; simpl in Hr.
    { injection Hr as <-. destruct Hin. }
    destruct (visibility function) eqn:Hvis; simpl in Hr;
      try (injection Hr as <-; destruct Hin).
    + destruct (MissingSlippageProtection._check_function_slippage order function)
        as [issues|] eqn:Hissues; simpl in Hr; [|discriminate].
      injection Hr as <-. apply in_map_iff in Hin as (issue & <- & Hissue).
      exists contract, function, issues, issue.
      repeat split; auto; congruence.
    + destruct (MissingSlippageProtection._check_function_slippage order function)
        as [issues|] eqn:Hissues; simpl in Hr; [|discriminate].
      injection Hr as <-. apply in_map_iff in Hin as (issue & <- & Hissue).
      exists contract, function, issues, issue.
      repeat split; auto; congruence.
Qed.

(** A constructor that calls [router.swap(0)] and has a nameless
    parameter is skipped. *)
Lemma missing_slippage_skips_witness :
  MissingSlippageProtection.detect_function source_order
    {| name := "constructor"; canonical_name := "Desk.constructor()";
       visibility := public; is_constructor := true;
       parameters := [Scenario.nameless_parameter "uint256"];
       modifiers := []; nodes := nodes Scenario.sell_all;
       state_variables_written := []; internal_calls := [] |}
  = Ok [].
Proof.
  apply (proj1 (missing_slippage_skips source_order)). now left.
Defined.

(** C8, as the claim states it, fails.  On [faulty_desk] the evaluation
    of the missing-slippage rule raises on [convert], and the rule does
    not catch the exception: [_detect] raises.  The missing-deadline rule
    returns three findings on the desk [sellAll], [exchange], [buyBack];
    once the parameter of [exchange] has no name, its evaluation raises
    on [exchange], [_detect] raises, and the findings for [sellAll] and
    [buyBack] are not returned. *)
Lemma fault_aborts_rule :
  MissingSlippageProtection.detect_function source_order
    (Scenario.convert (Scenario.nameless_parameter "uint256"))
  = Raise AttributeError
  /\ MissingSlippageProtection._detect source_order Scenario.faulty_desk
     = Raise AttributeError
  /\ (exists r1 r2 r3,
        MissingDeadlineCheck.detect_function
          (Scenario.plain "sellAll" "Desk.sellAll()" []) = Ok [r1]
        /\ MissingDeadlineCheck.detect_function
             (Scenario.plain "buyBack" "Desk.buyBack()" []) = Ok [r3]
        /\ MissingDeadlineCheck._detect
             (Scenario.exchange_desk (Scenario.parameter "amount" "uint256"))
           = Ok [r1; r2; r3])
  /\ MissingDeadlineCheck.detect_function
       (Scenario.plain "exchange" "Desk.exchange(uint256)"
          [Scenario.nameless_parameter "uint256"])
     = Raise AttributeError
  /\ MissingDeadlineCheck._detect
       (Scenario.exchange_desk (Scenario.nameless_parameter "uint256"))
     = Raise AttributeError.
Proof.
  split; [reflexivity|]. split; [reflexivity|]. split.
  - eexists. eexists. eexists. repeat split; reflexivity.
  - split; reflexivity.
Qed.

(** C8, amended. The missing-slippage rule raises exactly when its
    evaluation of some function of a derived contract raises: the
    exception is not caught and recorded, it leaves [_detect], which then
    returns no finding for any function. *)
Theorem missing_slippage_exception_propagates (order : SetOrder)
  (cu : CompilationUnit) :
  (exists e, MissingSlippageProtection._detect order cu = Raise e)
  <-> exists contract function e,
        In contract (contracts_derived cu)
        /\ In function (functions contract)
        /\ MissingSlippageProtection.detect_function order function = Raise e.
Proof.
  unfold MissingSlippageProtection._detect. split.
  - intros [e He].
    apply concatM_Raise_in in He as (contract & Hcontract & He).
    apply concatM_Raise_in in He as (function & Hfunction & He).
    exists contract, function, e. auto.
  - intros (contract & function & e & Hcontract & Hfunction & He).
    destruct (concatM_raises _ _ _ _ Hfunction He) as [e' He'].
    exact (concatM_raises
             (fun contract =>
                concatM (MissingSlippageProtection.detect_function order)
                        (functions contract))
             _ _ _ Hcontract He').
Qed.

(** On [faulty_desk] the exception raised for [convert] leaves the rule. *)
Lemma missing_slippage_exception_propagates_witness :
  exists e,
    MissingSlippageProtection._detect source_order Scenario.faulty_desk
    = Raise e.
Proof.
  apply (proj2 (missing_slippage_exception_propagates source_order
                  Scenario.faulty_desk)).
  exists (Scenario.contract "Desk"
            [ Scenario.sell_all;
              Scenario.convert (Scenario.nameless_parameter "uint256");
              Scenario.buy_back ] []),
         (Scenario.convert (Scenario.nameless_parameter "uint256")),
         AttributeError.
  repeat split; simpl; auto.
Defined.

(* ================================================================== *)
(** * fcfs-ghost-staker                                                 *)
(* ================================================================== *)

Lemma ghost_result_inj (f g : Function) :
  GhostStakerDetector.ghost_result f = GhostStakerDetector.ghost_result g ->
  f = g.
Proof. intros H. now injection H. Qed.

(** The findings of the ghost-staker rule, one by one. *)
Lemma ghost_staker_findings (cu : CompilationUnit) (result : Output) :
  In result
     (flat_map (fun contract =>
                  flat_map GhostStakerDetector.detect_function
                           (functions contract))
               (contracts_derived cu))
  <-> exists contract function,
        In contract (contracts_derived cu)
        /\ In function (functions contract)
        /\ GhostStakerDetector.is_stake_function function = true
        /\ GhostStakerDetector._enforces_minimum function = false
        /\ result = GhostStakerDetector.ghost_result function.
Proof.
  rewrite in_flat_map. split.
  - intros (contract & Hcontract & Hin).
    apply in_flat_map in Hin as (function & Hfunction & Hin).
    unfold GhostStakerDetector.detect_function in Hin.
    destruct (GhostStakerDetector.is_stake_function function) eqn:Hname;
      simpl in Hin; [|destruct Hin].
    destruct (GhostStakerDetector._enforces_minimum function) eqn:Hmin;
      simpl in Hin; [destruct Hin|].
    destruct Hin as [<-|[]]. exists contract, function. auto.
  - intros (contract & function & Hcontract & Hfunction & Hname & Hmin & ->).
    exists contract. split; [assumption|].
    apply in_flat_map. exists function. split; [assumption|].
    unfold GhostStakerDetector.detect_function. rewrite Hname, Hmin.
    now left.
Qed.

(** The minimum-enforcement test, pattern by pattern. *)
Lemma node_enforces_minimum_spec (node : Node) :
  GhostStakerDetector.node_enforces_minimum node = true
  <-> ((contains "require" (lower (node_str node)) = true
        \/ contains "revert" (lower (node_str node)) = true)
       /\ (contains "amount > 0" (lower (node_str node)) = true
           \/ contains "amount >= min" (lower (node_str node)) = true
           \/ contains "minstake" (lower (node_str node)) = true
           \/ contains "_amount > 0" (lower (node_str node)) = true))
      \/ (contains "if" (lower (node_str node)) = true
          /\ contains "== 0" (lower (node_str node)) = true
          /\ contains "revert" (lower (node_str node)) = true).
Proof.
  unfold GhostStakerDetector.node_enforces_minimum, any_in. cbv zeta.
  cbn [existsb]. rewrite orb_false_r.
  rewrite orb_true_iff, !andb_true_iff, !orb_true_iff. tauto.
Qed.

Lemma node_enforces_minimum_false (node : Node) :
  GhostStakerDetector.node_enforces_minimum node = false
  <-> ((contains "require" (lower (node_str node)) = false
        /\ contains "revert" (lower (node_str node)) = false)
       \/ (contains "amount > 0" (lower (node_str node)) = false
           /\ contains "amount >= min" (lower (node_str node)) = false
           /\ contains "minstake" (lower (node_str node)) = false
           /\ contains "_amount > 0" (lower (node_str node)) = false))
      /\ (contains "if" (lower (node_str node)) = false
          \/ contains "== 0" (lower (node_str node)) = false
          \/ contains "revert" (lower (node_str node)) = false).
Proof.
  unfold GhostStakerDetector.node_enforces_minimum, any_in. cbv zeta.
  cbn [existsb]. rewrite orb_false_r.
  rewrite orb_false_iff, !andb_false_iff, !orb_false_iff. tauto.
Qed.

(** C2, as the claim states it, fails: [require(msg.value > 0)] is a
    node that requires an amount above 0, and the stake function of the
    wiki scenario is still reported once its body starts with it. *)
Lemma require_on_value_still_reported :
  contains_require_or_assert Scenario.require_value = true
  /\ node_str Scenario.require_value
     = "EXPRESSION require(bool)(msg.value > 0)"
  /\ GhostStakerDetector._detect
       (Scenario.staking_unit (Scenario.require_value :: Scenario.stake_body))
     = Ok [ GhostStakerDetector.ghost_result
              (Scenario.stake
                 (Scenario.require_value :: Scenario.stake_body)) ].
Proof. repeat split. Qed.

(** C2, amended. For a function of a derived contract whose lowercase
    name contains "stake", "deposit", "join" or "register", the
    ghost-staker rule returns normally, and the finding for the function
    is among the results exactly when no node of the body has a
    lowercase text that contains "require" or "revert" together with one
    of the texts "amount > 0", "amount >= min", "minstake" and
    "_amount > 0", or that contains "if", "== 0" and "revert".  Inserting
    a node whose text contains "require" or "revert" and one of the four
    texts anywhere in a body leaves the function without finding. *)
Theorem ghost_staker_rule (cu : CompilationUnit) (contract : Contract)
  (function : Function) :
  In contract (contracts_derived cu) ->
  In function (functions contract) ->
  (exists p, In p ["stake"; "deposit"; "join"; "register"]
             /\ contains p (lower (name function)) = true) ->
  exists results,
    GhostStakerDetector._detect cu = Ok results
    /\ (In (GhostStakerDetector.ghost_result function) results
        <-> forall node, In node (nodes function) ->
              ((contains "require" (lower (node_str node)) = false
                /\ contains "revert" (lower (node_str node)) = false)
               \/ (contains "amount > 0" (lower (node_str node)) = false
                   /\ contains "amount >= min" (lower (node_str node)) = false
                   /\ contains "minstake" (lower (node_str node)) = false
                   /\ contains "_amount > 0" (lower (node_str node)) = false))
              /\ (contains "if" (lower (node_str node)) = false
                  \/ contains "== 0" (lower (node_str node)) = false
                  \/ contains "revert" (lower (node_str node)) = false))
    /\ (forall before after node,
          nodes function = (before ++ after)%list ->
          contains "require" (lower (node_str node)) = true
          \/ contains "revert" (lower (node_str node)) = true ->
          contains "amount > 0" (lower (node_str node)) = true
          \/ contains "amount >= min" (lower (node_str node)) = true
          \/ contains "minstake" (lower (node_str node)) = true
          \/ contains "_amount > 0" (lower (node_str node)) = true ->
          GhostStakerDetector.detect_function
            (set_nodes function (before ++ node :: after)%list) = []).
Proof.
  intros Hcontract Hfunction Hname.
  assert (Hstake : GhostStakerDetector.is_stake_function function = true).
  { unfold GhostStakerDetector.is_stake_function, any_in.
    apply existsb_exists. exact Hname. }
  pose proof node_enforces_minimum_false as Hfalse.
  eexists. split; [reflexivity|]. split.
  - rewrite ghost_staker_findings. split.
    + intros (contract' & function' & _ & _ & _ & Hmin & Heq) node Hnode.
      apply ghost_result_inj in Heq. subst function'.
      apply Hfalse.
      unfold GhostStakerDetector._enforces_minimum in Hmin.
      destruct (GhostStakerDetector.node_enforces_minimum node) eqn:Hn;
        [|reflexivity].
      assert (Hex : existsb GhostStakerDetector.node_enforces_minimum
                      (nodes function) = true)
        by (apply existsb_exists; eauto).
      congruence.
    + intros Hnone. exists contract, function. repeat split; auto.
      unfold GhostStakerDetector._enforces_minimum.
      destruct (existsb _ (nodes function)) eqn:Hex; [|reflexivity].
      apply existsb_exists in Hex as (node & Hnode & Hmin).
      rewrite (proj2 (Hfalse node) (Hnone node Hnode)) in Hmin.
      discriminate.
  - intros before after node _ Hrequire Hpattern.
    unfold GhostStakerDetector.detect_function,
      GhostStakerDetector._enforces_minimum.
    destruct (GhostStakerDetector.is_stake_function _); [|reflexivity].
    simpl. rewrite existsb_app. simpl.
    rewrite (proj2 (node_enforces_minimum_spec node)); [|now left].
    now rewrite orb_true_r.
Qed.

(** The rule's wiki scenario triggers the finding; with the [require] the
    wiki text asks for, it does not. *)
Lemma ghost_staker_rule_witness :
  (exists results,
     GhostStakerDetector._detect (Scenario.staking_unit Scenario.stake_body)
     = Ok results
     /\ In (GhostStakerDetector.ghost_result
              (Scenario.stake Scenario.stake_body)) results)
  /\ GhostStakerDetector.detect_function
       (Scenario.stake (Scenario.require_minimum :: Scenario.stake_body))
     = [].
Proof.
  destruct (ghost_staker_rule
              (Scenario.staking_unit Scenario.stake_body)
              (Scenario.contract "Staking"
                 [Scenario.stake Scenario.stake_body] [])
              (Scenario.stake Scenario.stake_body))
    as (results & Hdetect & Hfinding & Hinsert).
  - simpl. auto.
  - simpl. auto.
  - exists "stake". split; [simpl; auto|reflexivity].
  - split.
    + exists results. split; [exact Hdetect|]. apply Hfinding.
      intros node [<-|[<-|[<-|[]]]]; split; auto.
    + exact (Hinsert [] Scenario.stake_body Scenario.require_minimum
               eq_refl (or_introl eq_refl)
               (or_intror (or_introl eq_refl))).
Defined.

(* ================================================================== *)
(** * fcfs-cascade-dos                                                  *)
(* ================================================================== *)

Lemma cascading_scan_inside (body : list Node) (loop_count : nat) (b : bool) :
  (0 < loop_count)%nat ->
  snd (fold_left CascadingTierUpdateDoSDetector.cascading_step body
         (loop_count, b))
  = b || existsb CascadingTierUpdateDoSDetector.mentions_update body.
Proof.
  revert loop_count b. induction body as [|node body IH]; intros k b Hk; simpl.
  - now rewrite orb_false_r.
  - destruct (CascadingTierUpdateDoSDetector.is_loop_node node).
    + replace (0 <? k + 1)%nat with true
        by (symmetry; apply Nat.ltb_lt; lia).
      simpl. rewrite IH by lia.
      destruct (CascadingTierUpdateDoSDetector.mentions_update node);
        simpl; [now rewrite orb_true_r|reflexivity].
    + replace (0 <? k)%nat with true by (symmetry; now apply Nat.ltb_lt).
      simpl. rewrite IH by lia.
      destruct (CascadingTierUpdateDoSDetector.mentions_update node);
        simpl; [now rewrite orb_true_r|reflexivity].
Qed.

Lemma cascading_scan_outside (body : list Node) (b : bool) :
  snd (fold_left CascadingTierUpdateDoSDetector.cascading_step body (0, b))
  = b || existsb CascadingTierUpdateDoSDetector.mentions_update
           (CascadingTierUpdateDoSDetector.from_first_loop body).
Proof.
  revert b. induction body as [|node body IH]; intros b; simpl.
  - now rewrite orb_false_r.
  - destruct (CascadingTierUpdateDoSDetector.is_loop_node node); simpl.
    + rewrite cascading_scan_inside by lia.
      destruct (CascadingTierUpdateDoSDetector.mentions_update node);
        simpl; [now rewrite orb_true_r|reflexivity].
    + apply IH.
Qed.

(** What the scan computes: some node from the first loop node on, up to
    the end of the body, mentions an update.  The end of a loop plays no
    part. *)
Lemma has_cascading_loop_spec (function : Function) :
  CascadingTierUpdateDoSDetector._has_cascading_loop function
  = existsb CascadingTierUpdateDoSDetector.mentions_update
      (CascadingTierUpdateDoSDetector.from_first_loop (nodes function)).
Proof.
  unfold CascadingTierUpdateDoSDetector._has_cascading_loop.
  now rewrite cascading_scan_outside.
Qed.

(** C5. The body of [unstakeAll] is a loop (nodes 2 to 6, from
    [BEGIN_LOOP] to [END_LOOP]) no node of which mentions an update,
    followed by one call [updateRanking] after the loop has ended; there
    is no other loop node.  [_has_cascading_loop] answers true, and the
    rule reports the function. *)
Theorem update_after_loop_reported :
  nodes Scenario.unstake_all
  = ([ Scenario.node 0 ENTRYPOINT "ENTRY_POINT" [];
       Scenario.node 1 VARIABLE "NEW VARIABLE i = 0" [] ]
     ++ Scenario.unstake_loop
     ++ [ Scenario.node 7 EXPRESSION
            "EXPRESSION updateRanking(msg.sender)" [] ])%list
  /\ option_map node_type (hd_error Scenario.unstake_loop) = Some STARTLOOP
  /\ option_map node_type (hd_error (rev Scenario.unstake_loop))
     = Some ENDLOOP
  /\ existsb CascadingTierUpdateDoSDetector.mentions_update
       Scenario.unstake_loop = false
  /\ filter CascadingTierUpdateDoSDetector.is_loop_node
       (nodes Scenario.unstake_all)
     = firstn 2 Scenario.unstake_loop
  /\ CascadingTierUpdateDoSDetector._has_cascading_loop Scenario.unstake_all
     = true
  /\ exists result,
       CascadingTierUpdateDoSDetector._detect Scenario.pool_unit
       = Ok [result].
Proof.
  repeat split; try reflexivity. eexists. reflexivity.
Qed.

(* ================================================================== *)
(** * admin-upgrade-no-timelock                                         *)
(* ================================================================== *)

Lemma anyM_all_false {A : Type} (f : A -> Result bool) (l : list A) :
  (forall x, In x l -> f x = Ok false) -> anyM f l = Ok false.
Proof.
  induction l as [|x l IH]; intros Hf; simpl; [reflexivity|].
  rewrite (Hf x (or_introl eq_refl)). simpl.
  apply IH. intros y Hy. apply Hf. now right.
Qed.

Lemma anyM_hit {A : Type} (f : A -> Result bool) (before after : list A)
  (x : A) :
  (forall y, In y before -> exists b, f y = Ok b) ->
  f x = Ok true ->
  anyM f (before ++ x :: after) = Ok true.
Proof.
  induction before as [|y before IH]; intros Hbefore Hx; simpl.
  - now rewrite Hx.
  - destruct (Hbefore y (or_introl eq_refl)) as [[|] ->]; simpl;
      [reflexivity|].
    apply IH; [|assumption]. intros z Hz. apply Hbefore. now right.
Qed.

Lemma anyM_total {A : Type} (f : A -> Result bool) (l : list A) :
  (forall x, In x l -> exists b, f x = Ok b) -> exists b, anyM f l = Ok b.
Proof.
  induction l as [|x l IH]; intros Hf; simpl; [eauto|].
  destruct (Hf x (or_introl eq_refl)) as [[|] ->]; simpl; [eauto|].
  apply IH. intros y Hy. apply Hf. now right.
Qed.

Lemma flat_map_all_nil {A B : Type} (f : A -> list B) (l : list A) :
  (forall x, In x l -> f x = []) -> flat_map f l = [].
Proof.
  induction l as [|x l IH]; intros Hf; simpl; [reflexivity|].
  rewrite (Hf x (or_introl eq_refl)), IH; [reflexivity|].
  intros y Hy. apply Hf. now right.
Qed.

Lemma lower_of_named (n : option string) :
  n <> None -> exists s, n = Some s /\ lower_of n = Ok (lower s).
Proof. destruct n as [s|]; [eauto|congruence]. Qed.

Section ProxyUpgrade.

Variable order : SetOrder.
Hypothesis order_permutes : forall s, Permutation (order s) s.

Lemma timelock_name_test_total (var : Variable_) :
  var_name var <> None ->
  exists b,
    (name_ <- lower_of (var_name var) ;;
     Ok (any_in (order ProxyUpgradeNoTimelock.TIMELOCK_PATTERNS) name_))
    = Ok b.
Proof.
  intros Hnamed. destruct (lower_of_named _ Hnamed) as (s & _ & ->).
  simpl. eauto.
Qed.

Lemma contract_has_timelock_total (contract : Contract) :
  (forall v, In v (state_variables contract) -> var_name v <> None) ->
  exists b, ProxyUpgradeNoTimelock._contract_has_timelock order contract
            = Ok b.
Proof.
  intros Hnamed. unfold ProxyUpgradeNoTimelock._contract_has_timelock.
  destruct (anyM_total
              (fun var =>
                 name_ <- lower_of (var_name var) ;;
                 Ok (any_in (order ProxyUpgradeNoTimelock.TIMELOCK_PATTERNS)
                            name_))
              (state_variables contract)) as [b ->].
  - intros v Hv. apply timelock_name_test_total. now apply Hnamed.
  - simpl. destruct b; eauto.
Qed.

Lemma detect_contract_total (contract : Contract) :
  (forall v, In v (state_variables contract) -> var_name v <> None) ->
  exists r, ProxyUpgradeNoTimelock.detect_contract order contract = Ok r.
Proof.
  intros Hnamed. unfold ProxyUpgradeNoTimelock.detect_contract.
  destruct (negb _); [eauto|].
  destruct (contract_has_timelock_total contract Hnamed) as [b ->].
  simpl. eauto.
Qed.

Lemma contract_has_timelock_false (contract : Contract) :
  (forall v, In v (state_variables contract) -> var_name v <> None) ->
  (forall v n, In v (state_variables contract) -> var_name v = Some n ->
     any_in ProxyUpgradeNoTimelock.TIMELOCK_PATTERNS (lower n) = false) ->
  (forall g, In g (functions contract) ->
     any_in ["schedule"; "queue"; "execute"] (lower (name g)) = false) ->
  ProxyUpgradeNoTimelock._contract_has_timelock order contract = Ok false.
Proof.
  intros Hnamed Hvars Hfuncs.
  unfold ProxyUpgradeNoTimelock._contract_has_timelock.
  rewrite anyM_all_false.
  - cbn [bind]. f_equal. destruct (existsb _ (functions contract)) eqn:Hex;
      [|reflexivity].
    apply existsb_exists in Hex as (g & Hg & Hex). cbv beta in Hex.
    rewrite (Hfuncs g Hg) in Hex. discriminate.
  - intros v Hv. destruct (lower_of_named _ (Hnamed v Hv)) as (s & Hs & ->).
    simpl. rewrite (any_in_Permutation _ _ _ (order_permutes _)).
    now rewrite (Hvars v s Hv Hs).
Qed.

Lemma function_has_delay_false (function : Function) :
  (forall node, In node (nodes function) ->
     any_in ProxyUpgradeNoTimelock.TIMELOCK_PATTERNS (lower (node_str node))
     = false
     /\ contains "block.timestamp" (lower (node_str node))
        && contains ">=" (lower (node_str node)) = false) ->
  ProxyUpgradeNoTimelock._function_has_delay order function = false.
Proof.
  intros Hnodes. unfold ProxyUpgradeNoTimelock._function_has_delay.
  destruct (existsb _ (nodes function)) eqn:Hex; [|reflexivity].
  apply existsb_exists in Hex as (node & Hnode & Hex). cbv beta zeta in Hex.
  destruct (Hnodes node Hnode) as [Hpattern Hcompare].
  rewrite (any_in_Permutation _ _ _ (order_permutes _)), Hpattern, Hcompare
    in Hex.
  discriminate.
Qed.

(** C3, amended. In a unit whose derived contracts (those no other
    contract of the unit inherits from, the only ones the rule visits)
    have state variables that all have a name, take a derived contract
    that [_is_proxy_or_admin] accepts and one of its functions that
    [_is_upgrade_function] accepts, the pattern sets being iterated in
    any order.  If no state variable
    of the contract has a timelock pattern in its lowercase name, no
    function of the contract has "schedule", "queue" or "execute" in its
    lowercase name, and no node of the function's body has, in its
    lowercase text, a timelock pattern or both "block.timestamp" and
    ">=", then the admin-upgrade rule returns normally and the finding
    for the function is among the results.  Inserting a state variable
    named "timelockDelay" into the contract leaves the contract without
    any finding. *)
Theorem upgrade_without_timelock (cu : CompilationUnit) (contract : Contract)
  (function : Function) :
  In contract (contracts_derived cu) ->
  In function (functions contract) ->
  (forall c v, In c (contracts_derived cu) -> In v (state_variables c) ->
     var_name v <> None) ->
  ProxyUpgradeNoTimelock._is_proxy_or_admin contract = true ->
  ProxyUpgradeNoTimelock._is_upgrade_function order function = true ->
  ((forall v n, In v (state_variables contract) -> var_name v = Some n ->
      any_in ProxyUpgradeNoTimelock.TIMELOCK_PATTERNS (lower n) = false) ->
   (forall g, In g (functions contract) ->
      any_in ["schedule"; "queue"; "execute"] (lower (name g)) = false) ->
   (forall node, In node (nodes function) ->
      any_in ProxyUpgradeNoTimelock.TIMELOCK_PATTERNS (lower (node_str node))
      = false
      /\ contains "block.timestamp" (lower (node_str node))
         && contains ">=" (lower (node_str node)) = false) ->
   exists results,
     ProxyUpgradeNoTimelock._detect order cu = Ok results
     /\ In (ProxyUpgradeNoTimelock.upgrade_result function) results)
  /\ (forall before after v,
        state_variables contract = (before ++ after)%list ->
        var_name v = Some "timelockDelay" ->
        ProxyUpgradeNoTimelock.detect_contract order
          (set_state_variables contract (before ++ v :: after)%list)
        = Ok []).
Proof.
  intros Hcontract Hfunction Hnamed Hproxy Hupgrade. split.
  - intros Hvars Hfuncs Hnodes.
    destruct (concatM_completes
                (ProxyUpgradeNoTimelock.detect_contract order)
                (contracts_derived cu)) as [results Hresults].
    { intros c Hc. apply detect_contract_total. intros v. now apply Hnamed. }
    exists results. split; [exact Hresults|].
    apply (concatM_Ok_in _ _ _ Hresults).
    exists contract,
      (flat_map (ProxyUpgradeNoTimelock.detect_function order false)
                (functions contract)).
    split; [assumption|]. split.
    + unfold ProxyUpgradeNoTimelock.detect_contract. rewrite Hproxy. simpl.
      rewrite contract_has_timelock_false; auto.
      intros v. now apply Hnamed.
    + apply in_flat_map. exists function. split; [assumption|].
      unfold ProxyUpgradeNoTimelock.detect_function.
      rewrite Hupgrade, (function_has_delay_false function Hnodes).
      now left.
  - intros before after v Hsplit Hv.
    assert (Hproxy' : ProxyUpgradeNoTimelock._is_proxy_or_admin
                        (set_state_variables contract
                           (before ++ v :: after)%list) = true)
      by exact Hproxy.
    unfold ProxyUpgradeNoTimelock.detect_contract,
      ProxyUpgradeNoTimelock._contract_has_timelock.
    rewrite Hproxy'.
    cbn [set_state_variables state_variables negb].
    rewrite anyM_hit.
    + cbn [bind]. f_equal. apply flat_map_all_nil. intros g _.
      unfold ProxyUpgradeNoTimelock.detect_function.
      now rewrite andb_false_r.
    + intros y Hy. apply timelock_name_test_total.
      apply (Hnamed contract y Hcontract). rewrite Hsplit.
      apply in_or_app. now left.
    + rewrite Hv. simpl.
      rewrite (any_in_Permutation _ _ _ (order_permutes _)). reflexivity.
Qed.

End ProxyUpgrade.

(** A proxy admin with a bare [upgradeTo] is reported; once it declares
    [timelockDelay], it is not. *)
Lemma upgrade_without_timelock_witness :
  (exists results,
     ProxyUpgradeNoTimelock._detect source_order
       (Scenario.proxy_unit Scenario.plain_body []) = Ok results
     /\ In (ProxyUpgradeNoTimelock.upgrade_result
              (Scenario.upgrade_to Scenario.plain_body)) results)
  /\ ProxyUpgradeNoTimelock.detect_contract source_order
       (set_state_variables (Scenario.proxy_admin Scenario.plain_body [])
          [Scenario.state_variable "timelockDelay" "uint256"])
     = Ok [].
Proof.
  destruct (upgrade_without_timelock source_order
              (fun s => Permutation_refl s)
              (Scenario.proxy_unit Scenario.plain_body [])
              (Scenario.proxy_admin Scenario.plain_body [])
              (Scenario.upgrade_to Scenario.plain_body))
    as [Hfinding Hinsert].
  - simpl. auto.
  - simpl. auto.
  - intros c v [<-|[]] [].
  - reflexivity.
  - reflexivity.
  - split.
    + apply Hfinding.
      * intros v n [].
      * intros g [<-|[]]. reflexivity.
      * intros node [<-|[<-|[]]]; split; reflexivity.
    + exact (Hinsert [] [] (Scenario.state_variable "timelockDelay" "uint256")
               eq_refl eq_refl).
Defined.

(** C3, as the claim states it, fails twice.  In [inherited_proxy_unit]
    the contract [ProxyAdmin] has the bare [upgradeTo], no state variable
    and no function named after "schedule", "queue" or "execute", and no
    node of the body contains a timelock pattern or compares
    [block.timestamp]; yet the rule returns no finding, because
    [Treasury] inherits from [ProxyAdmin] and the rule visits derived
    contracts only.  In the second unit [ProxyAdmin] is derived and no
    node of [upgradeTo] contains a timelock pattern; yet the rule returns
    no finding, because one node compares [block.timestamp] with [>=]. *)
Lemma bare_upgrade_unreported :
  (In (Scenario.proxy_admin Scenario.plain_body [])
      (contracts Scenario.inherited_proxy_unit)
   /\ contracts_derived Scenario.inherited_proxy_unit = [Scenario.treasury]
   /\ In (Scenario.upgrade_to Scenario.plain_body)
         (functions (Scenario.proxy_admin Scenario.plain_body []))
   /\ ProxyUpgradeNoTimelock._is_proxy_or_admin
        (Scenario.proxy_admin Scenario.plain_body []) = true
   /\ ProxyUpgradeNoTimelock._is_upgrade_function source_order
        (Scenario.upgrade_to Scenario.plain_body) = true
   /\ state_variables (Scenario.proxy_admin Scenario.plain_body []) = []
   /\ forallb (fun g => negb (any_in ["schedule"; "queue"; "execute"]
                                (lower (name g))))
              (functions (Scenario.proxy_admin Scenario.plain_body []))
      = true
   /\ ProxyUpgradeNoTimelock._function_has_delay source_order
        (Scenario.upgrade_to Scenario.plain_body) = false
   /\ ProxyUpgradeNoTimelock._detect source_order
        Scenario.inherited_proxy_unit = Ok [])
  /\ (In (Scenario.proxy_admin Scenario.guarded_body [])
         (contracts_derived (Scenario.proxy_unit Scenario.guarded_body []))
      /\ In (Scenario.upgrade_to Scenario.guarded_body)
            (functions (Scenario.proxy_admin Scenario.guarded_body []))
      /\ ProxyUpgradeNoTimelock._is_proxy_or_admin
           (Scenario.proxy_admin Scenario.guarded_body []) = true
      /\ ProxyUpgradeNoTimelock._is_upgrade_function source_order
           (Scenario.upgrade_to Scenario.guarded_body) = true
      /\ state_variables (Scenario.proxy_admin Scenario.guarded_body []) = []
      /\ forallb (fun g => negb (any_in ["schedule"; "queue"; "execute"]
                                   (lower (name g))))
                 (functions (Scenario.proxy_admin Scenario.guarded_body []))
         = true
      /\ forallb (fun node =>
                    negb (any_in ProxyUpgradeNoTimelock.TIMELOCK_PATTERNS
                            (lower (node_str node))))
                 (nodes (Scenario.upgrade_to Scenario.guarded_body)) = true
      /\ ProxyUpgradeNoTimelock._detect source_order
           (Scenario.proxy_unit Scenario.guarded_body []) = Ok []).
Proof.
  split; repeat split; try reflexivity; simpl; auto.
Qed.

(* ================================================================== *)
(** * Evaluation does not depend on the iteration order of sets         *)
(* ================================================================== *)

Section SetOrders.

Variables order1 order2 : SetOrder.
Hypothesis order1_permutes : forall s, Permutation (order1 s) s.
Hypothesis order2_permutes : forall s, Permutation (order2 s) s.

Lemma orders_Permutation (s : list string) :
  Permutation (order1 s) (order2 s).
Proof.
  eapply Permutation_trans; [apply order1_permutes|].
  apply Permutation_sym, order2_permutes.
Qed.

Lemma any_in_orders (patterns : list string) (s : string) :
  any_in (order1 patterns) s = any_in (order2 patterns) s.
Proof. apply any_in_Permutation, orders_Permutation. Qed.

Lemma existsb_any_in_orders {A : Type} (patterns : list string)
  (text : A -> string) (l : list A) :
  existsb (fun x => any_in (order1 patterns) (text x)) l
  = existsb (fun x => any_in (order2 patterns) (text x)) l.
Proof. apply existsb_ext_in. intros x _. apply any_in_orders. Qed.

(** Two loops over the functions of the derived contracts agree when
    their bodies do. *)
Lemma function_loop_ext (body1 body2 : Function -> list Output)
  (cu : CompilationUnit) :
  (forall f, body1 f = body2 f) ->
  Ok (flat_map (fun contract => flat_map body1 (functions contract))
               (contracts_derived cu))
  = Ok (flat_map (fun contract => flat_map body2 (functions contract))
                 (contracts_derived cu)).
Proof.
  intros H. f_equal. apply flat_map_ext. intros contract.
  apply flat_map_ext. exact H.
Qed.

Lemma missing_slippage_orders (cu : CompilationUnit) :
  MissingSlippageProtection._detect order1 cu
  = MissingSlippageProtection._detect order2 cu.
Proof.
  unfold MissingSlippageProtection._detect.
  apply concatM_ext. intros contract _.
  apply concatM_ext. intros function _.
  unfold MissingSlippageProtection.detect_function,
    MissingSlippageProtection._check_function_slippage.
  destruct (_ || _); [reflexivity|]. f_equal.
  apply concatM_ext. intros node _. apply concatM_ext. intros ir _.
  unfold MissingSlippageProtection.check_operation.
  destruct ir as [destination [c|] arguments| |]; try reflexivity.
  cbn [lower_method bind].
  now rewrite (mem_Permutation _ _ _
                 (Permutation_map lower
                    (orders_Permutation
                       MissingSlippageProtection.DEX_SWAP_FUNCTIONS))).
Qed.

Lemma oracle_manipulation_orders (cu : CompilationUnit) :
  OracleManipulationRisk._detect order1 cu
  = OracleManipulationRisk._detect order2 cu.
Proof.
  unfold OracleManipulationRisk._detect. apply function_loop_ext.
  intros function. unfold OracleManipulationRisk._check_oracle_usage.
  now rewrite !existsb_any_in_orders.
Qed.

Lemma sequencer_dependency_orders (cu : CompilationUnit) :
  SequencerDependency._detect order1 cu = SequencerDependency._detect order2 cu.
Proof.
  unfold SequencerDependency._detect.
  destruct (negb _); [reflexivity|]. f_equal.
  apply flat_map_ext. intros contract.
  unfold SequencerDependency.detect_contract.
  replace (SequencerDependency._contract_checks_sequencer order1 contract)
    with (SequencerDependency._contract_checks_sequencer order2 contract).
  - apply flat_map_ext. intros function.
    unfold SequencerDependency._is_time_sensitive.
    now rewrite any_in_orders.
  - unfold SequencerDependency._contract_checks_sequencer.
    apply existsb_ext_in. intros function _.
    symmetry. apply existsb_any_in_orders.
Qed.

Lemma message_risk_orders (cu : CompilationUnit) :
  L1L2MessageRisk._detect order1 cu = L1L2MessageRisk._detect order2 cu.
Proof.
  unfold L1L2MessageRisk._detect. apply function_loop_ext.
  intros function. unfold L1L2MessageRisk.detect_function,
    L1L2MessageRisk._is_message_handler.
  now rewrite any_in_orders.
Qed.

Lemma restaking_slashing_orders (cu : CompilationUnit) :
  RestakingSlashingRisk._detect order1 cu
  = RestakingSlashingRisk._detect order2 cu.
Proof.
  unfold RestakingSlashingRisk._detect.
  apply concatM_ext. intros contract _.
  destruct (negb _); [reflexivity|].
  apply concatM_ext. intros function _.
  unfold RestakingSlashingRisk.detect_function,
    RestakingSlashingRisk._is_slashing_function.
  now rewrite any_in_orders.
Qed.

Lemma restaking_delegation_orders (cu : CompilationUnit) :
  RestakingDelegationRisk._detect order1 cu
  = RestakingDelegationRisk._detect order2 cu.
Proof.
  unfold RestakingDelegationRisk._detect. apply function_loop_ext.
  intros function. unfold RestakingDelegationRisk.detect_function,
    RestakingDelegationRisk._is_delegation_function.
  now rewrite any_in_orders.
Qed.

Lemma intent_replay_orders (cu : CompilationUnit) :
  IntentReplayRisk._detect order1 cu = IntentReplayRisk._detect order2 cu.
Proof.
  unfold IntentReplayRisk._detect. apply function_loop_ext.
  intros function. unfold IntentReplayRisk.detect_function,
    IntentReplayRisk._is_intent_handler.
  now rewrite any_in_orders.
Qed.

Lemma points_sybil_orders (cu : CompilationUnit) :
  PointsSybilRisk._detect order1 cu = PointsSybilRisk._detect order2 cu.
Proof.
  unfold PointsSybilRisk._detect. apply function_loop_ext.
  intros function. unfold PointsSybilRisk.detect_function,
    PointsSybilRisk._is_points_function.
  now rewrite any_in_orders.
Qed.

Lemma contract_has_timelock_orders (contract : Contract) :
  ProxyUpgradeNoTimelock._contract_has_timelock order1 contract
  = ProxyUpgradeNoTimelock._contract_has_timelock order2 contract.
Proof.
  unfold ProxyUpgradeNoTimelock._contract_has_timelock. f_equal.
  apply anyM_ext. intros var _.
  destruct (lower_of (var_name var)); simpl; [|reflexivity].
  now rewrite any_in_orders.
Qed.

Lemma function_has_delay_orders (function : Function) :
  ProxyUpgradeNoTimelock._function_has_delay order1 function
  = ProxyUpgradeNoTimelock._function_has_delay order2 function.
Proof.
  unfold ProxyUpgradeNoTimelock._function_has_delay.
  apply existsb_ext_in. intros node _. cbv zeta.
  now rewrite any_in_orders.
Qed.

Lemma proxy_upgrade_orders (cu : CompilationUnit) :
  ProxyUpgradeNoTimelock._detect order1 cu
  = ProxyUpgradeNoTimelock._detect order2 cu.
Proof.
  unfold ProxyUpgradeNoTimelock._detect.
  apply concatM_ext. intros contract _.
  unfold ProxyUpgradeNoTimelock.detect_contract.
  destruct (negb _); [reflexivity|].
  rewrite contract_has_timelock_orders.
  destruct (ProxyUpgradeNoTimelock._contract_has_timelock order2 contract)
    as [has_timelock|]; simpl; [|reflexivity].
  f_equal. apply flat_map_ext. intros function.
  unfold ProxyUpgradeNoTimelock.detect_function,
    ProxyUpgradeNoTimelock._is_upgrade_function.
  now rewrite any_in_orders, function_has_delay_orders.
Qed.

Lemma bridge_exit_orders (cu : CompilationUnit) :
  L2BridgeExitRisk._detect order1 cu = L2BridgeExitRisk._detect order2 cu.
Proof.
  unfold L2BridgeExitRisk._detect. apply function_loop_ext.
  intros function. unfold L2BridgeExitRisk.detect_function,
    L2BridgeExitRisk._is_admin_withdrawal.
  now rewrite existsb_any_in_orders.
Qed.

Lemma emergency_withdraw_orders (cu : CompilationUnit) :
  EmergencyWithdrawRisk._detect order1 cu
  = EmergencyWithdrawRisk._detect order2 cu.
Proof.
  unfold EmergencyWithdrawRisk._detect. apply function_loop_ext.
  intros function. unfold EmergencyWithdrawRisk.detect_function,
    EmergencyWithdrawRisk._is_emergency_function.
  now rewrite any_in_orders.
Qed.

End SetOrders.

(** C6. The evaluation of a rule is a function of the rule and of the
    contract model, and of nothing else: under any two iteration orders
    the interpreter may give to the rules' pattern sets (the only
    ingredient of an evaluation that is neither), each rule of the
    catalogue returns the same sequence of findings, or raises the same
    exception, on the same model.  With twice the same order these are
    two evaluations in one run.  No evaluation writes to the model: a
    rule's [_detect] returns findings only. *)
Theorem evaluation_deterministic (order1 order2 : SetOrder) :
  (forall s, Permutation (order1 s) s) ->
  (forall s, Permutation (order2 s) s) ->
  Forall2 (fun rule1 rule2 =>
             ARGUMENT rule1 = ARGUMENT rule2
             /\ forall cu : CompilationUnit,
                  _detect rule1 cu = _detect rule2 cu)
          (ALL_DETECTORS order1) (ALL_DETECTORS order2).
Proof.
  intros H1 H2.
  unfold ALL_DETECTORS, MEV_DETECTORS, L2_DETECTORS, EMERGING_DETECTORS,
    ADMIN_DETECTORS, CRYPTO_DETECTORS, FCFS_DETECTORS.
  repeat (apply Forall2_cons;
          [split; [reflexivity|intros cu; cbn [_detect];
                   first [ reflexivity
                         | now apply missing_slippage_orders
                         | now apply oracle_manipulation_orders
                         | now apply sequencer_dependency_orders
                         | now apply message_risk_orders
                         | now apply restaking_slashing_orders
                         | now apply restaking_delegation_orders
                         | now apply intent_replay_orders
                         | now apply points_sybil_orders
                         | now apply proxy_upgrade_orders
                         | now apply bridge_exit_orders
                         | now apply emergency_withdraw_orders ]]|]).
  apply Forall2_nil.
Qed.

(** The order of the source and its reverse give the same evaluation. *)
Lemma evaluation_deterministic_witness :
  Forall2 (fun rule1 rule2 =>
             ARGUMENT rule1 = ARGUMENT rule2
             /\ forall cu : CompilationUnit,
                  _detect rule1 cu = _detect rule2 cu)
          (ALL_DETECTORS source_order) (ALL_DETECTORS (@rev string)).
Proof.
  apply evaluation_deterministic.
  - intros s. apply Permutation_refl.
  - intros s. apply Permutation_sym, Permutation_rev.
Defined.

(* ================================================================== *)
(** * Substrings                                                        *)
(* ================================================================== *)

Lemma append_assoc (a b c : string) : (a ++ b) ++ c = a ++ b ++ c.
Proof. induction a as [|x a IH]; simpl; [reflexivity|now rewrite IH]. Qed.

Lemma append_empty_r (a : string) : a ++ "" = a.
Proof. induction a as [|x a IH]; simpl; [reflexivity|now rewrite IH]. Qed.

Lemma prefix_spec (p s : string) :
  prefix p s = true <-> exists post, s = p ++ post.
Proof.
  revert s. induction p as [|a p IH]; intros s.
  - split; [intros _; now exists s|now destruct s].
  - destruct s as [|b s]; simpl.
    + split; [discriminate|intros [post H]; discriminate H].
    + destruct (ascii_dec a b) as [->|Hab].
      * rewrite IH. split; intros [post H]; exists post; congruence.
      * split; [discriminate|intros [post H]; congruence].
Qed.

(** [p in s] holds exactly when [s] is [before ++ p ++ after]. *)
Lemma contains_spec (p s : string) :
  contains p s = true <-> exists before after, s = before ++ p ++ after.
Proof.
  induction s as [|c s IH]; cbn [contains].
  - rewrite prefix_spec. split.
    + intros [post H]. exists "", post. exact H.
    + intros (before & after & H). destruct before; [|discriminate H].
      exists after. exact H.
  - rewrite orb_true_iff, IH, prefix_spec. split.
    + intros [[post H]|(before & after & H)].
      * exists "", post. exact H.
      * exists (String c before), after. simpl. now rewrite H.
    + intros ([|c' before] & after & H).
      * left. exists after. exact H.
      * right. exists before, after. simpl in H. congruence.
Qed.

(** A text that contains [p] contains every substring of [p]. *)
Lemma contains_weaken (q p s : string) :
  contains q p = true -> contains p s = true -> contains q s = true.
Proof.
  rewrite !contains_spec.
  intros (b1 & a1 & ->) (b2 & a2 & ->).
  exists (b2 ++ b1), (a1 ++ a2). now rewrite !append_assoc.
Qed.

Lemma lower_char_idempotent (c : ascii) :
  lower_char (lower_char c) = lower_char c.
Proof. destruct c as [[] [] [] [] [] [] [] []]; reflexivity. Qed.

Lemma lower_idempotent (s : string) : lower (lower s) = lower s.
Proof.
  induction s as [|c s IH]; simpl; [reflexivity|].
  now rewrite lower_char_idempotent, IH.
Qed.

Lemma lower_remove_char (c : ascii) (s : string) :
  lower s = s -> lower (remove_char c s) = remove_char c s.
Proof.
  induction s as [|d s IH]; simpl; [reflexivity|].
  intros [= Hd Hs]. destruct (Ascii.eqb c d); simpl; [auto|].
  now rewrite Hd, IH.
Qed.

(** A normalized name has no capital letter. *)
Lemma normalized_lower (n : string) : lower (normalized n) = normalized n.
Proof. apply lower_remove_char, lower_idempotent. Qed.

(* ================================================================== *)
(** * Pattern lists: which entries decide                               *)
(* ================================================================== *)

(** X1. [_is_upgrade_function] accepts a function exactly when its
    normalized name contains "upgrade", "setimplementation" or
    "changeimplementation": the other three entries of
    [UPGRADE_PATTERNS], "upgradeto", "upgradetoandcall" and
    "_setimplementation", each contain one of these and never decide. *)
Theorem upgrade_patterns_effective (order : SetOrder) (function : Function) :
  (forall s, Permutation (order s) s) ->
  ProxyUpgradeNoTimelock._is_upgrade_function order function
  = contains "upgrade" (normalized (name function))
    || contains "setimplementation" (normalized (name function))
    || contains "changeimplementation" (normalized (name function)).
Proof.
  intros Hperm. unfold ProxyUpgradeNoTimelock._is_upgrade_function.
  rewrite (any_in_Permutation _ _ _ (Hperm _)).
  change (remove_char "_" (lower (name function)))
    with (normalized (name function)).
  set (n := normalized (name function)).
  pose proof (contains_weaken "upgrade" "upgradeto" n eq_refl) as H2.
  pose proof (contains_weaken "upgrade" "upgradetoandcall" n eq_refl) as H3.
  pose proof (contains_weaken "setimplementation" "_setimplementation" n
                eq_refl) as H6.
  unfold any_in, ProxyUpgradeNoTimelock.UPGRADE_PATTERNS. cbn [existsb].
  destruct (contains "upgrade" n), (contains "upgradeto" n),
    (contains "upgradetoandcall" n), (contains "setimplementation" n),
    (contains "changeimplementation" n), (contains "_setimplementation" n);
    first [ reflexivity
          | discriminate (H2 eq_refl)
          | discriminate (H3 eq_refl)
          | discriminate (H6 eq_refl) ].
Qed.

Lemma upgrade_patterns_effective_witness :
  ProxyUpgradeNoTimelock._is_upgrade_function (@rev string)
    (Scenario.upgrade_to [])
  = true.
Proof.
  rewrite (upgrade_patterns_effective (@rev string) (Scenario.upgrade_to [])).
  - reflexivity.
  - intros s. apply Permutation_sym, Permutation_rev.
Defined.

(** X2. [_has_zero_check] accepts a function exactly when the lowercase
    text of some node contains "!= 0", "!= address(0)" or "> 0".  The
    entries written as regular expressions are compared as plain text and
    contain "!= 0", like the three other entries: none of them decides.
    Any comparison [> 0] in the body counts as a zero-point check. *)
Theorem zero_check_effective (function : Function) :
  BN254ZeroPointDetector._has_zero_check function
  = existsb (fun node =>
               contains "!= 0" (lower (node_str node))
               || contains "!= address(0)" (lower (node_str node))
               || contains "> 0" (lower (node_str node)))
            (nodes function).
Proof.
  unfold BN254ZeroPointDetector._has_zero_check.
  apply existsb_ext_in. intros node _.
  set (s := lower (node_str node)).
  pose proof (contains_weaken "!= 0" "!= 0x0" s eq_refl) as H2.
  pose proof (contains_weaken "!= 0" "point.x != 0" s eq_refl) as H5.
  pose proof (contains_weaken "!= 0" "point.y != 0" s eq_refl) as H6.
  pose proof (contains_weaken "!= 0" "require(.*key.*!= 0" s eq_refl) as H7.
  pose proof (contains_weaken "!= 0" "require(.*point.*!= 0" s eq_refl) as H8.
  unfold BN254ZeroPointDetector.zero_patterns. cbn [existsb].
  change (lower "!= 0") with "!= 0".
  change (lower "!= 0x0") with "!= 0x0".
  change (lower "!= address(0)") with "!= address(0)".
  change (lower "> 0") with "> 0".
  change (lower "point.x != 0") with "point.x != 0".
  change (lower "point.y != 0") with "point.y != 0".
  change (lower "require(.*key.*!= 0") with "require(.*key.*!= 0".
  change (lower "require(.*point.*!= 0") with "require(.*point.*!= 0".
  destruct (contains "!= 0" s), (contains "!= 0x0" s),
    (contains "!= address(0)" s), (contains "> 0" s),
    (contains "point.x != 0" s), (contains "point.y != 0" s),
    (contains "require(.*key.*!= 0" s), (contains "require(.*point.*!= 0" s);
    first [ reflexivity
          | discriminate (H2 eq_refl)
          | discriminate (H5 eq_refl)
          | discriminate (H6 eq_refl)
          | discriminate (H7 eq_refl)
          | discriminate (H8 eq_refl) ].
Qed.

(** X3. The callback test of [_check_flash_loan_risk] compares the
    normalized, lowercase name with [FLASH_LOAN_CALLBACKS].  Four entries
    of that set are written with capital letters ("executeOperation",
    "uniswapV2Call", "uniswapV3FlashCallback", "pancakeCall") and can
    never be equal to it: the test accepts exactly the names
    "onflashloan", "callee" and "callback", and a function with any other
    name gets no callback issue, validated caller or not. *)
Theorem flash_loan_callbacks_effective (function : Function)
  (contract : Contract) :
  mem (normalized (name function)) FlashLoanEnabler.FLASH_LOAN_CALLBACKS
  = mem (normalized (name function)) ["onflashloan"; "callee"; "callback"]
  /\ (mem (normalized (name function)) ["onflashloan"; "callee"; "callback"]
      = false ->
      FlashLoanEnabler._check_flash_loan_risk function contract
      = flat_map (fun ext_node =>
                    FlashLoanEnabler.state_change_after function ext_node
                      (FlashLoanEnabler.state_change_nodes function))
                 (FlashLoanEnabler.external_call_nodes function contract)).
Proof.
  assert (Hmem :
    mem (normalized (name function)) FlashLoanEnabler.FLASH_LOAN_CALLBACKS
    = mem (normalized (name function)) ["onflashloan"; "callee"; "callback"]).
  { pose proof (normalized_lower (name function)) as Hlow.
    set (n := normalized (name function)) in *.
    assert (Hcapital : forall e, lower e <> e -> String.eqb n e = false).
    { intros e He. apply String.eqb_neq. intros ->. contradiction. }
    unfold mem, FlashLoanEnabler.FLASH_LOAN_CALLBACKS. cbn [existsb].
    rewrite (Hcapital "executeOperation"), (Hcapital "uniswapV2Call"),
      (Hcapital "uniswapV3FlashCallback"), (Hcapital "pancakeCall");
      try discriminate.
    reflexivity. }
  split; [exact Hmem|].
  intros Hother. unfold FlashLoanEnabler._check_flash_loan_risk.
  change (remove_char "_" (lower (name function)))
    with (normalized (name function)).
  now rewrite Hmem, Hother.
Qed.

(** Aave's callback [executeOperation], which does not validate its
    caller, gets no callback issue. *)
Lemma flash_loan_callbacks_effective_witness :
  FlashLoanEnabler._check_flash_loan_risk
    (Scenario.external_function "executeOperation"
       "Receiver.executeOperation(address,uint256)" [] [])
    (Scenario.contract "Receiver" [] [])
  = [].
Proof.
  rewrite (proj2 (flash_loan_callbacks_effective
                    (Scenario.external_function "executeOperation"
                       "Receiver.executeOperation(address,uint256)" [] [])
                    (Scenario.contract "Receiver" [] []))); reflexivity.
Defined.

(* ================================================================== *)
(** * mev-missing-slippage: the scan and its origin                     *)
(* ================================================================== *)

Lemma concatM_all_nil {A B : Type} (f : A -> Result (list B)) (l : list A) :
  (forall x, In x l -> f x = Ok []) -> concatM f l = Ok [].
Proof.
  induction l as [|x l IH]; intros Hf; simpl; [reflexivity|].
  rewrite (Hf x (or_introl eq_refl)), IH; [reflexivity|].
  intros y Hy. apply Hf. now right.
Qed.

(** One step of the loop over the arguments. *)
Lemma scan_arguments_cons (arg : Argument) (rest : list Argument)
  (function : Function) :
  (arg_value arg = Some "0"
   /\ MissingSlippageProtection.scan_arguments (arg :: rest) function = false)
  \/ (arg_value arg <> Some "0"
      /\ MissingSlippageProtection.scan_arguments (arg :: rest) function
         = (depends_on_a_parameter arg function
            || MissingSlippageProtection.scan_arguments rest function)).
Proof.
  simpl. destruct (arg_value arg) as [v|].
  - destruct (String.eqb_spec v "0") as [->|Hne]; [now left|].
    right. split; [congruence|].
    destruct v as [|[[] [] [] [] [] [] [] []] [|c v]];
      solve [ now destruct (depends_on_a_parameter arg function)
            | congruence ].
  - right. split; [discriminate|].
    now destruct (depends_on_a_parameter arg function).
Qed.

(** X4. The scan of a call's arguments answers "protected" exactly when
    some argument depends on a parameter of the function and neither it
    nor any argument before it is the constant 0: the first argument that
    is the constant 0 or depends on a parameter decides, wherever the
    minimum output stands in the call. *)
Theorem scan_arguments_spec (arguments : list Argument) (function : Function) :
  MissingSlippageProtection.scan_arguments arguments function = true
  <-> exists before arg after,
        arguments = (before ++ arg :: after)%list
        /\ (forall b, In b before ->
              arg_value b <> Some "0"
              /\ depends_on_a_parameter b function = false)
        /\ arg_value arg <> Some "0"
        /\ depends_on_a_parameter arg function = true.
Proof.
  induction arguments as [|a arguments IH].
  - simpl. split; [discriminate|].
    intros (before & arg & after & H & _). now destruct before.
  - destruct (scan_arguments_cons a arguments function)
      as [[Hzero ->]|[Hnonzero ->]].
    + split; [discriminate|].
      intros ([|b before] & arg & after & H & Hbefore & Harg & _).
      * injection H as <- _. contradiction.
      * injection H as <- _.
        destruct (Hbefore a (or_introl eq_refl)). contradiction.
    + rewrite orb_true_iff, IH. split.
      * intros [Hdep|(before & arg & after & -> & Hbefore & Harg & Hdep)].
        -- exists [], a, arguments.
           split; [reflexivity|]. split; [intros ? []|]. now split.
        -- destruct (depends_on_a_parameter a function) eqn:Ha.
           ++ exists [], a, (before ++ arg :: after)%list.
              split; [reflexivity|]. split; [intros ? []|]. now split.
           ++ exists (a :: before), arg, after.
              split; [reflexivity|]. split; [|now split].
              intros x [<-|Hx]; [now split|now apply Hbefore].
      * intros ([|x before] & arg & after & H & Hbefore & Harg & Hdep).
        -- injection H as <- _. now left.
        -- injection H as <- ->. right.
           exists before, arg, after.
           split; [reflexivity|]. split; [|now split].
           intros y Hy. apply Hbefore. now right.
Qed.

(** In [f(a, 0)] the argument [a] decides; in [f(0, a)] the constant
    does. *)
Lemma scan_arguments_spec_witness :
  MissingSlippageProtection.scan_arguments
    [Scenario.variable [0]; Scenario.constant "0"]
    (Scenario.convert (Scenario.parameter "amount" "uint256"))
  = true.
Proof.
  apply (proj2 (scan_arguments_spec
                  [Scenario.variable [0]; Scenario.constant "0"]
                  (Scenario.convert (Scenario.parameter "amount" "uint256")))).
  exists [], (Scenario.variable [0]), [Scenario.constant "0"].
  split; [reflexivity|]. split; [intros b []|].
  split; [discriminate|reflexivity].
Defined.



(** A loop each of whose iterations adds nothing or raises [e] adds
    nothing or raises [e]. *)
Lemma concatM_nil_or_raise {A B : Type} (f : A -> Result (list B))
  (l : list A) (e : Exception) :
  (forall x, In x l -> f x = Ok [] \/ f x = Raise e) ->
  (concatM f l = Ok [] /\ forall x, In x l -> f x = Ok [])
  \/ (concatM f l = Raise e /\ exists x, In x l /\ f x = Raise e).
Proof.
  induction l as [|a l IH]; intros Hf; simpl.
  - left. split; [reflexivity|intros x []].
  - destruct (Hf a (or_introl eq_refl)) as [Ha|Ha]; rewrite Ha; cbn [bind].
    + destruct IH as [[-> Hall]|[-> (x & Hx & Hfx)]];
        [intros x Hx; apply Hf; now right| |].
      * left. split; [reflexivity|]. intros x [<-|Hx]; auto.
      * right. split; [reflexivity|]. exists x. auto.
    + right. split; [reflexivity|]. exists a. auto.
Qed.

Section NamedCalls.

Variable order : SetOrder.
Hypothesis order_permutes : forall s, Permutation (order s) s.

(** The empty text is no entry of [DEX_SWAP_FUNCTIONS]. *)
Lemma empty_name_is_no_swap :
  mem EmptyString
      (map lower (order MissingSlippageProtection.DEX_SWAP_FUNCTIONS))
  = false.
Proof.
  now rewrite (mem_Permutation _ _ _
                 (Permutation_map lower (order_permutes _))).
Qed.

Lemma check_operation_cases (function : Function) (node : Node)
  (ir : Operation) :
  match ir with
  | HighLevelCall _ (Some _) _ =>
      MissingSlippageProtection.check_operation order function node ir
      = Raise AttributeError
  | _ =>
      MissingSlippageProtection.check_operation order function node ir
      = Ok []
  end.
Proof.
  destruct ir as [destination [c|] arguments| |]; try reflexivity.
  unfold MissingSlippageProtection.check_operation.
  cbn [lower_method bind lower]. now rewrite empty_name_is_no_swap.
Qed.

Lemma check_operation_nil_or_raise (function : Function) (node : Node)
  (ir : Operation) :
  MissingSlippageProtection.check_operation order function node ir = Ok []
  \/ MissingSlippageProtection.check_operation order function node ir
     = Raise AttributeError.
Proof.
  pose proof (check_operation_cases function node ir) as H.
  destruct ir as [destination [c|] arguments| |]; auto.
Qed.

Lemma check_node_nil_or_raise (function : Function) (node : Node) :
  (concatM (MissingSlippageProtection.check_operation order function node)
           (irs node) = Ok []
   /\ forall destination c arguments,
        ~ In (HighLevelCall destination (Some c) arguments) (irs node))
  \/ concatM (MissingSlippageProtection.check_operation order function node)
             (irs node) = Raise AttributeError.
Proof.
  destruct (concatM_nil_or_raise
              (MissingSlippageProtection.check_operation order function node)
              (irs node) AttributeError) as [[Hnil Hall]|[Hraise _]].
  - intros ir _. apply check_operation_nil_or_raise.
  - left. split; [exact Hnil|]. intros destination c arguments Hin.
    pose proof (check_operation_cases function node
                  (HighLevelCall destination (Some c) arguments)) as H.
    cbv beta iota in H. rewrite (Hall _ Hin) in H. discriminate H.
  - now right.
Qed.

Lemma check_function_slippage_cases (function : Function) :
  (MissingSlippageProtection._check_function_slippage order function = Ok []
   /\ forall node destination c arguments,
        In node (nodes function) ->
        ~ In (HighLevelCall destination (Some c) arguments) (irs node))
  \/ MissingSlippageProtection._check_function_slippage order function
     = Raise AttributeError.
Proof.
  unfold MissingSlippageProtection._check_function_slippage.
  destruct (concatM_nil_or_raise
              (fun node =>
                 concatM (MissingSlippageProtection.check_operation
                            order function node) (irs node))
              (nodes function) AttributeError) as [[Hnil Hall]|[Hraise _]].
  - intros node _.
    destruct (check_node_nil_or_raise function node) as [[H _]|H]; auto.
  - left. split; [exact Hnil|].
    intros node destination c arguments Hnode.
    destruct (check_node_nil_or_raise function node) as [[_ H]|H];
      [apply H|].
    rewrite (Hall node Hnode) in H. discriminate H.
  - now right.
Qed.

Lemma detect_function_nil_or_raise (function : Function) :
  MissingSlippageProtection.detect_function order function = Ok []
  \/ MissingSlippageProtection.detect_function order function
     = Raise AttributeError.
Proof.
  unfold MissingSlippageProtection.detect_function.
  destruct (_ || _); [now left|].
  destruct (check_function_slippage_cases function) as [[-> _]| ->];
    [now left|now right].
Qed.

(** X6. The missing-slippage rule never returns a finding.  The scan of
    a function's operations raises [AttributeError] at the first
    high-level call that has a [function_name], before any name or
    argument is compared: the name is a [Constant], and the scan calls
    [lower] on it.  A call without one is compared as the empty text,
    which is no entry of [DEX_SWAP_FUNCTIONS].  So whenever [_detect]
    returns, it returns the empty list. *)
Theorem missing_slippage_never_reports :
  (forall function node destination c arguments,
     In node (nodes function) ->
     In (HighLevelCall destination (Some c) arguments) (irs node) ->
     MissingSlippageProtection._check_function_slippage order function
     = Raise AttributeError)
  /\ (forall cu results,
        MissingSlippageProtection._detect order cu = Ok results ->
        results = []).
Proof.
  split.
  - intros function node destination c arguments Hnode Hir.
    destruct (check_function_slippage_cases function) as [[_ Hnone]|H];
      [|exact H].
    destruct (Hnone node destination c arguments Hnode Hir).
  - intros cu results Hresults.
    unfold MissingSlippageProtection._detect in Hresults.
    destruct (concatM_nil_or_raise
                (fun contract =>
                   concatM (MissingSlippageProtection.detect_function order)
                           (functions contract))
                (contracts_derived cu) AttributeError) as [[Hnil _]|[Hraise _]].
    + intros contract _.
      destruct (concatM_nil_or_raise
                  (MissingSlippageProtection.detect_function order)
                  (functions contract) AttributeError) as [[H _]|[H _]]; auto.
      intros function _. apply detect_function_nil_or_raise.
    + congruence.
    + congruence.
Qed.

End NamedCalls.

(** The scan of the wiki scenario's [swap] raises at its call. *)
Lemma missing_slippage_never_reports_witness :
  MissingSlippageProtection._check_function_slippage source_order
    Scenario.wiki_swap
  = Raise AttributeError.
Proof.
  apply (proj1 (missing_slippage_never_reports source_order
                  (fun s => Permutation_refl s))
           Scenario.wiki_swap
           (Scenario.node 1 EXPRESSION
              "EXPRESSION router.swapExactTokensForTokens(amountIn,0,path,msg.sender,block.timestamp)"
              [Scenario.wiki_call])
           (DVariable "router")
           {| constant_text := "swapExactTokensForTokens" |}
           [ Scenario.variable [2]; Scenario.constant "0";
             Scenario.variable []; Scenario.variable [];
             Scenario.variable [] ]).
  - simpl. auto.
  - simpl. auto.
Defined.

(* ================================================================== *)
(** * mev-missing-deadline                                              *)
(* ================================================================== *)

Lemma anyM_named (test : string -> bool) (vars : list Variable_) :
  all_named vars ->
  anyM (fun v => n <- lower_of (var_name v) ;; Ok (test n)) vars
  = Ok (existsb (fun v => match var_name v with
                          | Some n => test (lower n)
                          | None => false
                          end) vars).
Proof.
  induction vars as [|v vars IH]; intros Hnamed; simpl; [reflexivity|].
  destruct (lower_of_named _ (Hnamed v (or_introl eq_refl))) as (s & -> & _).
  simpl. destruct (test (lower s)); [reflexivity|].
  apply IH. intros y Hy. apply Hnamed. now right.
Qed.

(** X7. What silences the missing-deadline rule and what does not.  A
    function that declares a parameter whose normalized name is in
    [DEADLINE_PARAMS] gets no finding, whether or not its body uses the
    parameter.  A swap-named function with named parameters, none of them
    such, and without any node that holds a [require] or [assert], gets
    the finding, whatever its nodes say: a deadline enforced with
    [if ... revert] is not seen. *)
Theorem missing_deadline_behaviour (function : Function) :
  (forall before p after n,
     parameters function = (before ++ p :: after)%list ->
     all_named before ->
     var_name p = Some n ->
     mem (normalized n) MissingDeadlineCheck.DEADLINE_PARAMS = true ->
     MissingDeadlineCheck.detect_function function = Ok [])
  /\ (MissingDeadlineCheck._is_swap_function function = true ->
      all_named (parameters function) ->
      (forall p n, In p (parameters function) -> var_name p = Some n ->
         mem (normalized n) MissingDeadlineCheck.DEADLINE_PARAMS = false) ->
      (forall node, In node (nodes function) ->
         contains_require_or_assert node = false) ->
      exists result,
        MissingDeadlineCheck.detect_function function = Ok [result]).
Proof.
  split.
  - intros before p after n Hparams Hnamed Hp Hmem.
    unfold MissingDeadlineCheck.detect_function,
      MissingDeadlineCheck._has_deadline_check.
    destruct (MissingDeadlineCheck._is_swap_function function);
      [|reflexivity].
    rewrite Hparams, anyM_hit; [reflexivity| |].
    + intros y Hy. destruct (lower_of_named _ (Hnamed y Hy)) as (s & _ & ->).
      simpl. eauto.
    + rewrite Hp. simpl. f_equal. exact Hmem.
  - intros Hswap Hnamed Hparams Hnodes.
    unfold MissingDeadlineCheck.detect_function,
      MissingDeadlineCheck._has_deadline_check.
    rewrite Hswap.
    rewrite (anyM_named
               (fun n => mem (remove_char "_" n)
                           MissingDeadlineCheck.DEADLINE_PARAMS)
               _ Hnamed).
    replace (existsb _ (parameters function)) with false.
    + cbn [bind]. replace (existsb _ (nodes function)) with false.
      * simpl. eauto.
      * symmetry. destruct (existsb _ (nodes function)) eqn:Hex;
          [|reflexivity].
        apply existsb_exists in Hex as (node & Hnode & Hex).
        rewrite (Hnodes node Hnode) in Hex. discriminate.
    + symmetry. destruct (existsb _ (parameters function)) eqn:Hex;
        [|reflexivity].
      apply existsb_exists in Hex as (p & Hp & Hex).
      destruct (var_name p) as [n|] eqn:Hn; [|discriminate].
      rewrite <- (Hparams p n Hp Hn). symmetry. exact Hex.
Qed.

(** [swap(uint256 amountIn, uint256 _dead_line)] is not reported;
    [swap(uint256 amountIn)] without [require] is. *)
Lemma missing_deadline_behaviour_witness :
  MissingDeadlineCheck.detect_function
    (Scenario.external_function "swap" "Vault.swap(uint256,uint256)"
       [ Scenario.parameter "amountIn" "uint256";
         Scenario.parameter "_dead_line" "uint256" ] [])
  = Ok []
  /\ exists result,
       MissingDeadlineCheck.detect_function
         (Scenario.external_function "swap" "Vault.swap(uint256)"
            [Scenario.parameter "amountIn" "uint256"]
            [Scenario.node 1 IF
               "IF block.timestamp > deadline" []])
       = Ok [result].
Proof.
  split.
  - apply (proj1 (missing_deadline_behaviour _)
             [Scenario.parameter "amountIn" "uint256"]
             (Scenario.parameter "_dead_line" "uint256") [] "_dead_line").
    + reflexivity.
    + intros v [<-|[]]. discriminate.
    + reflexivity.
    + reflexivity.
  - apply (proj2 (missing_deadline_behaviour _)).
    + reflexivity.
    + intros v [<-|[]]. discriminate.
    + intros p n [<-|[]] [= <-]. reflexivity.
    + intros node [<-|[]]. reflexivity.
Defined.

(* ================================================================== *)
(** * mev-flash-loan-enabler: state changes after external calls        *)
(* ================================================================== *)

Lemma state_change_after_silent (function : Function) (ext_node : Node)
  (state_nodes : list Node) :
  FlashLoanEnabler._has_reentrancy_guard function = true
  \/ (forall st, In st state_nodes -> node_id st <= node_id ext_node) ->
  FlashLoanEnabler.state_change_after function ext_node state_nodes = [].
Proof.
  intros H. induction state_nodes as [|st state_nodes IH]; simpl;
    [reflexivity|].
  replace ((node_id ext_node <? node_id st)%nat
           && negb (FlashLoanEnabler._has_reentrancy_guard function))
    with false.
  - apply IH. destruct H as [H|H]; [now left|right].
    intros x Hx. apply H. now right.
  - symmetry. destruct H as [->|H]; [now rewrite andb_false_r|].
    apply andb_false_intro1, Nat.ltb_ge, H. now left.
Qed.

Lemma state_change_after_length (function : Function) (ext_node : Node)
  (state_nodes : list Node) :
  length (FlashLoanEnabler.state_change_after function ext_node state_nodes)
  <= 1.
Proof.
  induction state_nodes as [|st state_nodes IH]; simpl; [lia|].
  destruct (_ && _); simpl; [lia|exact IH].
Qed.

Lemma external_call_nodes_length (function : Function)
  (contract : Contract) :
  length (FlashLoanEnabler.external_call_nodes function contract)
  = length (filter (FlashLoanEnabler.is_external_call contract)
                   (flat_map irs (nodes function))).
Proof.
  unfold FlashLoanEnabler.external_call_nodes.
  induction (nodes function) as [|node body IH]; simpl; [reflexivity|].
  now rewrite filter_app, !length_app, length_map, IH.
Qed.

(** X8. [external_call_nodes] holds one entry for each high-level call
    operation sent to another destination than the contract: a node
    that holds two such calls is listed twice.  The flash-loan rule
    reports a state change after an external call at most once per
    entry, and not at all when the function has a modifier named after
    "nonreentrant", "lock" or "mutex", or when no state-changing node has
    a greater [node_id] than an external-call node (checks, effects, then
    interactions): what is left then is at most the callback issue. *)
Theorem state_change_after_call_conditions (function : Function)
  (contract : Contract) :
  length (FlashLoanEnabler.external_call_nodes function contract)
  = length (filter (FlashLoanEnabler.is_external_call contract)
                   (flat_map irs (nodes function)))
  /\ length (flat_map (fun ext_node =>
                         FlashLoanEnabler.state_change_after function ext_node
                           (FlashLoanEnabler.state_change_nodes function))
                      (FlashLoanEnabler.external_call_nodes function contract))
     <= length (filter (FlashLoanEnabler.is_external_call contract)
                       (flat_map irs (nodes function)))
  /\ (FlashLoanEnabler._has_reentrancy_guard function = true
      \/ (forall ext st,
            In ext (FlashLoanEnabler.external_call_nodes function contract) ->
            In st (FlashLoanEnabler.state_change_nodes function) ->
            node_id st <= node_id ext) ->
      forall issue,
        In issue (FlashLoanEnabler._check_flash_loan_risk function contract) ->
        issue = [ IStr ("Flash loan callback " ++ canonical_name function
                        ++ " ");
                  IStr ("does not validate caller - may enable unauthorized calls"
                        ++ LF) ]).
Proof.
  split; [apply external_call_nodes_length|]. split.
  - rewrite <- external_call_nodes_length.
    induction (FlashLoanEnabler.external_call_nodes function contract)
      as [|ext l IH]; simpl; [lia|].
    rewrite length_app.
    pose proof (state_change_after_length function ext
                  (FlashLoanEnabler.state_change_nodes function)).
    lia.
  - intros H issue Hin.
    unfold FlashLoanEnabler._check_flash_loan_risk in Hin.
    apply in_app_or in Hin as [Hin|Hin].
    + destruct (_ && _); [|destruct Hin].
      destruct Hin as [<-|[]]. reflexivity.
    + apply in_flat_map in Hin as (ext & Hext & Hin).
      rewrite state_change_after_silent in Hin; [destruct Hin|].
      destruct H as [H|H]; [now left|right].
      intros st Hst. now apply H.
Qed.

(** A [nonReentrant] function that writes state after an external call
    gets no issue but, at most, the callback one. *)
Lemma state_change_after_call_conditions_witness :
  FlashLoanEnabler._has_reentrancy_guard
    {| name := "withdraw"; canonical_name := "Bank.withdraw()";
       visibility := external; is_constructor := false;
       parameters := [];
       modifiers := [ {| modifier_name := "nonReentrant" |} ];
       nodes := [ Scenario.node 1 EXPRESSION
                    "EXPRESSION token.transfer(msg.sender,amount)"
                    [HighLevelCall (DVariable "token") (Scenario.called "transfer")
                       [Scenario.variable []]];
                  Scenario.node 2 EXPRESSION "EXPRESSION balance = 0"
                    [Assignment true] ];
       state_variables_written := []; internal_calls := [] |}
  = true
  /\ Forall
       (fun issue =>
          issue
          = [ IStr ("Flash loan callback " ++ "Bank.withdraw()" ++ " ");
              IStr ("does not validate caller - may enable unauthorized calls"
                    ++ LF) ])
       (FlashLoanEnabler._check_flash_loan_risk
          {| name := "withdraw"; canonical_name := "Bank.withdraw()";
             visibility := external; is_constructor := false;
             parameters := [];
             modifiers := [ {| modifier_name := "nonReentrant" |} ];
             nodes := [ Scenario.node 1 EXPRESSION
                          "EXPRESSION token.transfer(msg.sender,amount)"
                          [HighLevelCall (DVariable "token") (Scenario.called "transfer")
                             [Scenario.variable []]];
                        Scenario.node 2 EXPRESSION "EXPRESSION balance = 0"
                          [Assignment true] ];
             state_variables_written := []; internal_calls := [] |}
          (Scenario.contract "Bank" [] [])).
Proof.
  split; [reflexivity|].
  apply Forall_forall.
  exact (proj2 (proj2 (state_change_after_call_conditions
                  {| name := "withdraw"; canonical_name := "Bank.withdraw()";
                     visibility := external; is_constructor := false;
                     parameters := [];
                     modifiers := [ {| modifier_name := "nonReentrant" |} ];
                     nodes := [ Scenario.node 1 EXPRESSION
                                  "EXPRESSION token.transfer(msg.sender,amount)"
                                  [HighLevelCall (DVariable "token")
                                     (Scenario.called "transfer") [Scenario.variable []]];
                                Scenario.node 2 EXPRESSION
                                  "EXPRESSION balance = 0" [Assignment true] ];
                     state_variables_written := []; internal_calls := [] |}
                  (Scenario.contract "Bank" [] [])))
               (or_introl eq_refl)).
Defined.

(* ================================================================== *)
(** * l2-gas-calculation: what the scan reads                           *)
(* ================================================================== *)

Lemma after_prefix_spec (p s rest : string) :
  after_prefix p s = Some rest <-> s = p ++ rest.
Proof.
  revert s. induction p as [|a p IH]; intros s; simpl.
  - split; [now intros [= ->]|now intros ->].
  - destruct s as [|b s]; [split; discriminate|].
    destruct (Ascii.eqb_spec a b) as [->|Hab].
    + rewrite IH. split; [now intros ->|now intros [= ->]].
    + split; [discriminate|intros [= -> _]; contradiction].
Qed.

Lemma lstrip_split (s : string) :
  exists ws, s = ws ++ lstrip s /\ all_spaces ws = true.
Proof.
  induction s as [|c s (ws & Hs & Hws)]; simpl.
  - now exists "".
  - destruct (is_space c) eqn:Hc.
    + exists (String c ws). simpl. rewrite Hc, Hws.
      split; [f_equal; exact Hs|reflexivity].
    + now exists "".
Qed.

Lemma lstrip_spaces_digit (ws : string) (c : ascii) (rest : string) :
  all_spaces ws = true -> is_digit c = true ->
  lstrip (ws ++ String c rest) = String c rest.
Proof.
  intros Hws Hc. induction ws as [|w ws IH]; simpl.
  - now rewrite (digit_not_space c Hc).
  - simpl in Hws. apply andb_prop in Hws as [-> Hws]. auto.
Qed.

Lemma take_digits_split (s : string) :
  exists rest, s = take_digits s ++ rest /\ take_digits rest = "".
Proof.
  induction s as [|c s (rest & Hs & Hrest)]; simpl.
  - now exists "".
  - destruct (is_digit c) eqn:Hc.
    + exists rest. simpl. split; [f_equal; exact Hs|exact Hrest].
    + exists (String c s). simpl. now rewrite Hc.
Qed.

Lemma match_number_after_sound (lit s d : string) :
  match_number_after lit s = Some d ->
  exists ws rest,
    s = lit ++ ws ++ d ++ rest /\ all_spaces ws = true
    /\ all_digits d = true /\ d <> "" /\ take_digits rest = "".
Proof.
  intros Hm. destruct (match_number_after_digits _ _ _ Hm) as [Hd Hne].
  unfold match_number_after in Hm.
  destruct (after_prefix lit s) as [tail|] eqn:Htail; [|discriminate].
  apply after_prefix_spec in Htail.
  destruct (lstrip_split tail) as (ws & Hws & Hspaces).
  destruct (take_digits_split (lstrip tail)) as (rest & Hsplit & Hrest).
  destruct (take_digits (lstrip tail)) as [|c r] eqn:Htake; [discriminate|].
  injection Hm as <-.
  exists ws, rest. repeat split; auto. congruence.
Qed.

Lemma match_number_after_complete (lit ws rest : string) (c : ascii) :
  all_spaces ws = true -> is_digit c = true ->
  exists d, match_number_after lit (lit ++ ws ++ String c rest) = Some d.
Proof.
  intros Hws Hc. unfold match_number_after.
  rewrite (proj2 (after_prefix_spec lit _ (ws ++ String c rest)) eq_refl).
  rewrite (lstrip_spaces_digit ws c rest Hws Hc). simpl. rewrite Hc. eauto.
Qed.

Lemma search_number_after_sound (lit s d : string) :
  search_number_after lit s = Some d ->
  exists before tail, s = before ++ tail /\ match_number_after lit tail = Some d.
Proof.
  induction s as [|c s IH]; simpl.
  - destruct (match_number_after lit "") as [d'|] eqn:Hm; [|discriminate].
    intros [= <-]. now exists "", "".
  - destruct (match_number_after lit (String c s)) as [d'|] eqn:Hm.
    + intros [= <-]. now exists "", (String c s).
    + intros H. destruct (IH H) as (before & tail & -> & Htail).
      now exists (String c before), tail.
Qed.

Lemma search_number_after_complete (lit before tail d : string) :
  match_number_after lit tail = Some d ->
  exists d', search_number_after lit (before ++ tail) = Some d'.
Proof.
  intros Hm. induction before as [|c before IH]; simpl.
  - destruct tail as [|c tail]; simpl; rewrite Hm; eauto.
  - destruct (match_number_after lit (String c (before ++ tail))); eauto.
Qed.

(** X9. What the scan of [_check_gas_usage] reads.  It yields nothing
    exactly when the text has no "gas:" followed, after optional white
    space, by a digit.  When it yields [n], the text is
    [before ++ "gas:" ++ ws ++ d ++ rest] with [ws] white space, [d] a
    non-empty run of digits that [rest] does not continue, and [n] the
    value [int] gives to [d]: the whole run of digits is read, leading
    zeros included. *)
Theorem gas_value_reading (content : string) :
  (L2GasCalculationRisk.gas_value_of content = Ok None
   <-> ~ exists before ws c rest,
           content = before ++ "gas:" ++ ws ++ String c rest
           /\ all_spaces ws = true /\ is_digit c = true)
  /\ (forall n,
        L2GasCalculationRisk.gas_value_of content = Ok (Some n) ->
        exists before ws d rest,
          content = before ++ "gas:" ++ ws ++ d ++ rest
          /\ all_spaces ws = true /\ all_digits d = true /\ d <> ""
          /\ take_digits rest = "" /\ int_of_str d = Ok n).
Proof.
  unfold L2GasCalculationRisk.gas_value_of.
  destruct (search_number_after "gas:" content) as [d|] eqn:Hs.
  - destruct (search_number_after_digits _ _ _ Hs) as [Hd Hne].
    destruct (search_number_after_sound _ _ _ Hs) as (before & tail & -> & Hm).
    destruct (match_number_after_sound _ _ _ Hm)
      as (ws & rest & -> & Hws & _ & _ & Hrest).
    split.
    + split.
      * intros H. destruct (int_of_str d); discriminate H.
      * intros Hnone. exfalso. apply Hnone.
        destruct d as [|c d]; [congruence|].
        exists before, ws, c, (d ++ rest). simpl in Hd.
        apply andb_prop in Hd as [Hc _]. auto.
    + intros n H. destruct (int_of_str d) as [z|e] eqn:Hz; cbn [bind] in H;
        [|discriminate H].
      injection H as <-. exists before, ws, d, rest. auto 10.
  - split; [|discriminate]. split; [|reflexivity].
    intros _ (before & ws & c & rest & -> & Hws & Hc).
    destruct (match_number_after_complete "gas:" ws rest c Hws Hc) as [d Hm].
    destruct (search_number_after_complete "gas:" before _ d Hm) as [d' Hd'].
    congruence.
Qed.

Lemma gas_value_reading_witness :
  exists before ws d rest,
    ".call{gas: 02300}()" = before ++ "gas:" ++ ws ++ d ++ rest
    /\ all_spaces ws = true /\ all_digits d = true /\ d <> ""
    /\ take_digits rest = "" /\ int_of_str d = Ok 2300%Z.
Proof.
  apply (proj2 (gas_value_reading ".call{gas: 02300}()")). reflexivity.
Defined.


(** A match of the scan contains [gas:]. *)
Lemma search_number_after_contains (lit s d : string) :
  search_number_after lit s = Some d -> contains lit s = true.
Proof.
  intros Hs.
  destruct (search_number_after_sound _ _ _ Hs) as (before & tail & -> & Hm).
  destruct (match_number_after_sound _ _ _ Hm) as (ws & rest & -> & _).
  apply contains_spec. now exists before, (ws ++ d ++ rest).
Qed.

(** The outcome of one node, by the text of the node. *)
Lemma gas_check_node_cases (node : Node) :
  (exists issues,
     L2GasCalculationRisk.check_node node = Ok issues
     /\ (forall d,
           contains ".call{gas:" (node_str node)
           || contains ".call{value:" (node_str node) = true ->
           search_number_after "gas:" (node_str node) = Some d ->
           (Z.of_nat (String.length d) <= int_max_str_digits)%Z)
     /\ forall issue, In issue issues ->
          issue = "block.gaslimit differs significantly on L2 networks"
          \/ exists n,
               (0 < n < 1000000)%Z
               /\ L2GasCalculationRisk.gas_value_of (node_str node)
                  = Ok (Some n)
               /\ contains ".call{gas:" (node_str node)
                  || contains ".call{value:" (node_str node) = true
               /\ issue = "hardcoded gas limit (" ++ str_Z n
                          ++ ") may be insufficient on L2")
  \/ (L2GasCalculationRisk.check_node node = Raise ValueError
      /\ contains ".call{gas:" (node_str node)
         || contains ".call{value:" (node_str node) = true
      /\ exists d,
           search_number_after "gas:" (node_str node) = Some d
           /\ (int_max_str_digits < Z.of_nat (String.length d))%Z).
Proof.
  unfold L2GasCalculationRisk.check_node. cbv zeta.
  set (content := node_str node).
  assert (Hlimit : forall issue,
            In issue (if contains "block.gaslimit" content
                      then ["block.gaslimit differs significantly on L2 networks"]
                      else []) ->
            issue = "block.gaslimit differs significantly on L2 networks").
  { intros issue. destruct (contains "block.gaslimit" content);
      [intros [<-|[]]; reflexivity|intros []]. }
  destruct (contains ".call{gas:" content || contains ".call{value:" content)
    eqn:Hcall; cbn [andb].
  - destruct (gas_value_of_cases content)
      as [[Hs Hn]|[(d & n & Hs & Hle & _ & _ & Hn)|(d & Hs & Hgt & Hn)]].
    + left. destruct (contains "gas:" content); [rewrite Hn|]; cbn [bind];
        (eexists; split; [reflexivity|]; split;
         [intros d _ Hd; congruence|intros issue Hin; left; now apply Hlimit]).
    + left. rewrite (search_number_after_contains _ _ _ Hs), Hn. cbn [bind].
      destruct ((0 <? n)%Z && (n <? 1000000)%Z) eqn:Hrange; cbn [bind];
        (eexists; split; [reflexivity|]; split;
         [intros d' _ Hd'; congruence|]).
      * intros issue [<-|Hin]; [|left; now apply Hlimit].
        right. exists n. apply andb_prop in Hrange as [H0 H1].
        apply Z.ltb_lt in H0, H1. auto.
      * intros issue Hin. left. now apply Hlimit.
    + right. rewrite (search_number_after_contains _ _ _ Hs), Hn.
      split; [reflexivity|]. split; [reflexivity|]. eauto.
  - left. cbn [bind]. eexists. split; [reflexivity|].
    split; [intros d Hd; discriminate Hd|].
    intros issue Hin. left. now apply Hlimit.
Qed.

Lemma gas_check_node_short (node : Node) :
  (forall d,
     contains ".call{gas:" (node_str node)
     || contains ".call{value:" (node_str node) = true ->
     search_number_after "gas:" (node_str node) = Some d ->
     (Z.of_nat (String.length d) <= int_max_str_digits)%Z) ->
  exists issues, L2GasCalculationRisk.check_node node = Ok issues.
Proof.
  intros Hshort.
  destruct (gas_check_node_cases node)
    as [(issues & H & _)|(_ & Hcall & d & Hd & Hlong)]; [eauto|].
  specialize (Hshort d Hcall Hd). lia.
Qed.

Lemma gas_rule_completes (cu : CompilationUnit) :
  short_gas_values cu ->
  exists results, L2GasCalculationRisk._detect cu = Ok results.
Proof.
  intros Hshort. unfold L2GasCalculationRisk._detect.
  apply concatM_completes. intros contract Hcontract.
  apply concatM_completes. intros function Hfunction.
  unfold L2GasCalculationRisk.detect_function,
    L2GasCalculationRisk._check_gas_usage.
  destruct (concatM_completes L2GasCalculationRisk.check_node
              (nodes function)) as [issues ->].
  - intros node Hnode. apply gas_check_node_short. intros d.
    exact (Hshort contract function node d Hcontract Hfunction Hnode).
  - cbn [bind]. eauto.
Qed.



(* ================================================================== *)
(** * admin-upgrade-no-timelock: names that silence a contract          *)
(* ================================================================== *)

(** X11. A contract whose state variables have names and one of whose
    functions has "schedule", "queue" or "execute" in its lowercase name
    gets no finding from the admin-upgrade rule.  The function may be the
    upgrade function itself: an immediate [executeUpgrade] is never
    reported. *)
Theorem timelock_function_name_silences (order : SetOrder)
  (contract : Contract) (g : Function) :
  all_named (state_variables contract) ->
  In g (functions contract) ->
  any_in ["schedule"; "queue"; "execute"] (lower (name g)) = true ->
  ProxyUpgradeNoTimelock.detect_contract order contract = Ok [].
Proof.
  intros Hnamed Hg Hname.
  unfold ProxyUpgradeNoTimelock.detect_contract.
  destruct (negb _); [reflexivity|].
  assert (Htimelock :
            ProxyUpgradeNoTimelock._contract_has_timelock order contract
            = Ok true).
  { unfold ProxyUpgradeNoTimelock._contract_has_timelock.
    rewrite (anyM_named
               (any_in (order ProxyUpgradeNoTimelock.TIMELOCK_PATTERNS))
               _ Hnamed).
    cbn [bind]. destruct (existsb _ (state_variables contract));
      [reflexivity|].
    f_equal. apply existsb_exists. exists g. now split. }
  rewrite Htimelock. cbn [bind]. f_equal.
  apply flat_map_all_nil. intros f _.
  unfold ProxyUpgradeNoTimelock.detect_function.
  now rewrite andb_false_r.
Qed.

Lemma timelock_function_name_silences_witness :
  ProxyUpgradeNoTimelock.detect_contract source_order
    (Scenario.contract "ProxyAdmin"
       [ Scenario.external_function "executeUpgrade"
           "ProxyAdmin.executeUpgrade(address)"
           [Scenario.parameter "newImplementation" "address"]
           Scenario.plain_body ] [])
  = Ok [].
Proof.
  apply (timelock_function_name_silences source_order _
           (Scenario.external_function "executeUpgrade"
              "ProxyAdmin.executeUpgrade(address)"
              [Scenario.parameter "newImplementation" "address"]
              Scenario.plain_body)).
  - intros v [].
  - now left.
  - reflexivity.
Defined.

(* ================================================================== *)
(** * crypto-precompile-gas-l2: what is counted                         *)
(* ================================================================== *)

Lemma count_precompiles_in_node (text : string) (patterns : list string)
  (count : nat) :
  fold_left (fun count precompile =>
               if contains precompile text then count + 1 else count)
            patterns count
  = count + length (filter (fun precompile => contains precompile text)
                           patterns).
Proof.
  revert count. induction patterns as [|p patterns IH]; intros count; simpl.
  - lia.
  - rewrite IH. destruct (contains p text); simpl; lia.
Qed.

Lemma count_precompiles_fold (body : list Node) (count : nat) :
  fold_left (fun count node =>
               fold_left (fun count precompile =>
                            if contains precompile (lower (node_str node))
                            then count + 1 else count)
                         PrecompileGasExhaustionDetector.ECC_PRECOMPILES count)
            body count
  = count
    + list_sum
        (map (fun node =>
                length (filter (fun precompile =>
                                  contains precompile (lower (node_str node)))
                               PrecompileGasExhaustionDetector.ECC_PRECOMPILES))
             body).
Proof.
  revert count. induction body as [|node body IH]; intros count;
    cbn [fold_left map list_sum fold_right].
  - lia.
  - rewrite IH, count_precompiles_in_node. apply Nat.add_assoc || (symmetry; apply Nat.add_assoc).
Qed.

(** X12. [_count_precompile_uses] counts the pairs of a node and an entry
    of [ECC_PRECOMPILES] such that the lowercase text of the node
    contains the entry: a node counts once per entry however often it
    mentions it, so the count is at most five per node.  The rule reports
    a function exactly when some node contains some entry. *)
Theorem count_precompile_uses_spec (function : Function) :
  PrecompileGasExhaustionDetector._count_precompile_uses function
  = list_sum
      (map (fun node =>
              length (filter (fun precompile =>
                                contains precompile (lower (node_str node)))
                             PrecompileGasExhaustionDetector.ECC_PRECOMPILES))
           (nodes function))
  /\ PrecompileGasExhaustionDetector._count_precompile_uses function
     <= 5 * length (nodes function)
  /\ (PrecompileGasExhaustionDetector.detect_function function = []
      <-> forall node precompile,
            In node (nodes function) ->
            In precompile PrecompileGasExhaustionDetector.ECC_PRECOMPILES ->
            contains precompile (lower (node_str node)) = false).
Proof.
  assert (Hspec :
    PrecompileGasExhaustionDetector._count_precompile_uses function
    = list_sum
        (map (fun node =>
                length (filter (fun precompile =>
                                  contains precompile (lower (node_str node)))
                               PrecompileGasExhaustionDetector.ECC_PRECOMPILES))
             (nodes function))).
  { unfold PrecompileGasExhaustionDetector._count_precompile_uses.
    now rewrite count_precompiles_fold. }
  split; [exact Hspec|]. rewrite Hspec. clear Hspec. split.
  - induction (nodes function) as [|node body IH]; [simpl; lia|].
    cbn [map list_sum fold_right length].
    pose proof (filter_length_le
                  (fun precompile =>
                     contains precompile (lower (node_str node)))
                  PrecompileGasExhaustionDetector.ECC_PRECOMPILES) as Hle.
    change (length PrecompileGasExhaustionDetector.ECC_PRECOMPILES)
      with 5 in Hle.
    rewrite Nat.mul_succ_r, Nat.add_comm.
    apply Nat.add_le_mono; [exact IH|exact Hle].
  - unfold PrecompileGasExhaustionDetector.detect_function. cbv zeta.
    unfold PrecompileGasExhaustionDetector._count_precompile_uses.
    rewrite count_precompiles_fold. cbn [Nat.add].
    induction (nodes function) as [|node body IH].
    + simpl. split; [intros _ node precompile []|reflexivity].
    + cbn [map list_sum fold_right].
      destruct (filter _ PrecompileGasExhaustionDetector.ECC_PRECOMPILES)
        as [|p ps] eqn:Hfilter.
      * cbn [length Nat.add]. rewrite IH. split.
        -- intros Hbody node' precompile [<-|Hnode] Hp.
           ++ destruct (contains precompile (lower (node_str node))) eqn:Hc;
                [|reflexivity].
              assert (Hin : In precompile []).
              { rewrite <- Hfilter. apply filter_In. now split. }
              destruct Hin.
           ++ now apply Hbody.
        -- intros Hall node' precompile Hnode. apply Hall. now right.
      * cbn [length Nat.add Nat.ltb Nat.leb]. split; [discriminate|].
        intros Hall. exfalso.
        assert (Hp : In p (p :: ps)) by now left.
        rewrite <- Hfilter in Hp. apply filter_In in Hp as [Hp Hc].
        rewrite (Hall node p (or_introl eq_refl) Hp) in Hc. discriminate.
Qed.

Lemma count_precompile_uses_spec_witness :
  PrecompileGasExhaustionDetector.detect_function Scenario.unstake_all = [].
Proof.
  apply (proj2 (proj2 (count_precompile_uses_spec Scenario.unstake_all))).
  intros node precompile Hnode Hp. simpl in Hnode, Hp.
  repeat (destruct Hnode as [<-|Hnode];
          [repeat (destruct Hp as [<-|Hp]; [reflexivity|]); destruct Hp|]).
  destruct Hnode.
Defined.

(* ================================================================== *)
(** * mev-excessive-slippage: when the rule raises                      *)
(* ================================================================== *)


Lemma excessive_slippage_completes (cu : CompilationUnit) :
  (forall contract,
     In contract (contracts_derived cu) ->
     all_named (state_variables contract)) ->
  short_slippage_values cu ->
  exists results, ExcessiveSlippageTolerance._detect cu = Ok results.
Proof.
  intros Hnamed Hshort. unfold ExcessiveSlippageTolerance._detect.
  apply concatM_completes. intros contract Hcontract.
  apply concatM_completes. intros v Hv.
  unfold ExcessiveSlippageTolerance.detect_variable.
  destruct (ExcessiveSlippageTolerance._is_slippage_variable v)
    as [[|]|e] eqn:Hname; cbn [bind].
  - destruct (check_slippage_value_cases v contract)
      as [->|[(expression & value & _ & _ & _ & ->)
             |(expression & value & He & Hvalue & Hlong & _)]];
      cbn [bind]; eauto.
    specialize (Hshort contract v expression value Hcontract Hv Hname He
                  Hvalue). lia.
  - eauto.
  - unfold ExcessiveSlippageTolerance._is_slippage_variable in Hname.
    destruct (lower_of_named _ (Hnamed contract Hcontract v Hv))
      as (s0 & _ & Hs0).
    rewrite Hs0 in Hname. discriminate Hname.
Qed.

(** Every variable of [oversized_unit] has a name, and the rule raises:
    the bound of 4301 digits is above the threshold, and the issue that
    quotes it cannot be formatted. *)
Example excessive_slippage_long_integer :
  (forall contract, In contract (contracts_derived Scenario.oversized_unit) ->
     all_named (state_variables contract))
  /\ ExcessiveSlippageTolerance._detect Scenario.oversized_unit
     = Raise ValueError.
Proof.
  split; [|vm_compute; reflexivity].
  intros contract [<-|[]] v [<-|[]]. discriminate.
Qed.



(* ================================================================== *)
(** * merkle-proof-risk: the test on the joined parameter names         *)
(* ================================================================== *)

Lemma no_space_cons (a : ascii) (p : string) :
  contains " " (String a p) = false ->
  a <> " "%char /\ contains " " p = false.
Proof.
  cbn [contains]. intros H. apply orb_false_elim in H as [Hprefix Hrest].
  split; [|exact Hrest]. intros ->. now destruct p.
Qed.

Lemma prefix_before_space (p x b : string) :
  contains " " p = false ->
  prefix p (x ++ String " " b) = prefix p x.
Proof.
  revert x. induction p as [|a p IH]; intros x Hp.
  - now destruct x.
  - destruct (no_space_cons a p Hp) as [Ha Hp'].
    destruct x as [|c x]; simpl.
    + destruct (ascii_dec a " "); [contradiction|reflexivity].
    + destruct (ascii_dec a c); [now apply IH|reflexivity].
Qed.

Lemma contains_across_space (p x b : string) :
  p <> "" -> contains " " p = false ->
  contains p (x ++ String " " b) = contains p x || contains p b.
Proof.
  intros Hne Hp. induction x as [|c x IH].
  - destruct p as [|a p]; [congruence|].
    destruct (no_space_cons a p Hp) as [Ha _].
    cbn [append contains prefix].
    destruct (ascii_dec a " "); [contradiction|reflexivity].
  - change (String c x ++ String " " b) with (String c (x ++ String " " b)).
    cbn [contains]. rewrite IH.
    change (String c (x ++ String " " b))
      with (String c x ++ String " " b).
    rewrite (prefix_before_space p (String c x) b Hp).
    now rewrite orb_assoc.
Qed.

(** A word without space occurs in [" ".join(l)] exactly when it occurs
    in an element of [l]. *)
Lemma contains_join (p : string) (l : list string) :
  p <> "" -> contains " " p = false ->
  contains p (join " " l) = existsb (contains p) l.
Proof.
  intros Hne Hp. induction l as [|x l IH].
  - destruct p; [congruence|reflexivity].
  - destruct l as [|y l].
    + simpl. now rewrite orb_false_r.
    + change (join " " (x :: y :: l)) with (x ++ " " ++ join " " (y :: l)).
      change (x ++ " " ++ join " " (y :: l))
        with (x ++ String " " (join " " (y :: l))).
      rewrite (contains_across_space p x _ Hne Hp), IH. reflexivity.
Qed.

Lemma existsb_of_map {A B : Type} (p : B -> bool) (f : A -> B) (l : list A) :
  existsb p (map f l) = existsb (fun x => p (f x)) l.
Proof. induction l as [|x l IH]; simpl; [reflexivity|now rewrite IH]. Qed.

Lemma mapM_named (vars : list Variable_) :
  all_named vars ->
  mapM (fun v => lower_of (var_name v)) vars
  = Ok (map (fun v => match var_name v with
                      | Some n => lower n
                      | None => EmptyString
                      end) vars).
Proof.
  induction vars as [|v vars IH]; intros Hnamed; simpl; [reflexivity|].
  destruct (lower_of_named _ (Hnamed v (or_introl eq_refl))) as (s & -> & _).
  simpl. rewrite IH; [reflexivity|].
  intros y Hy. apply Hnamed. now right.
Qed.

(** X14. [_is_merkle_claim] tests "proof" against the parameter names
    joined by spaces.  For named parameters the join creates no match
    that straddles two names: the function is taken for a Merkle claim
    exactly when its lowercase name contains "claim" or "redeem" and the
    lowercase name of one of its parameters contains "proof". *)
Theorem merkle_claim_test (function : Function) :
  all_named (parameters function) ->
  MerkleProofRisk._is_merkle_claim function
  = Ok ((contains "claim" (lower (name function))
         || contains "redeem" (lower (name function)))
        && existsb (fun p => match var_name p with
                             | Some n => contains "proof" (lower n)
                             | None => false
                             end)
                   (parameters function)).
Proof.
  intros Hnamed. unfold MerkleProofRisk._is_merkle_claim. cbv zeta.
  rewrite (mapM_named _ Hnamed). cbn [bind]. f_equal. f_equal.
  rewrite contains_join; [|discriminate|reflexivity].
  rewrite existsb_of_map. apply existsb_ext_in. intros p Hp.
  destruct (lower_of_named _ (Hnamed p Hp)) as (s & -> & _). reflexivity.
Qed.

(** The names [pro] and [of] side by side do not make a claim. *)
Lemma merkle_claim_test_witness :
  MerkleProofRisk._is_merkle_claim
    (Scenario.external_function "claim" "Drop.claim(uint256,uint256)"
       [Scenario.parameter "pro" "uint256"; Scenario.parameter "of" "uint256"]
       [])
  = Ok false.
Proof.
  rewrite merkle_claim_test; [reflexivity|].
  intros v [<-|[<-|[]]]; discriminate.
Defined.

(* ================================================================== *)
(** * Which models every rule evaluates without an exception            *)
(* ================================================================== *)

Lemma lower_of_total (v : Variable_) :
  var_name v <> None -> exists s, lower_of (var_name v) = Ok s.
Proof. intros H. destruct (lower_of_named _ H) as (s & _ & ->). eauto. Qed.

Lemma mapM_total {A B : Type} (f : A -> Result B) (l : list A) :
  (forall x, In x l -> exists y, f x = Ok y) -> exists ys, mapM f l = Ok ys.
Proof.
  induction l as [|x l IH]; intros Hf; simpl; [eauto|].
  destruct (Hf x (or_introl eq_refl)) as [y ->]. simpl.
  destruct IH as [ys ->]; [intros z Hz; apply Hf; now right|].
  simpl. eauto.
Qed.

Ltac head_of t :=
  lazymatch t with
  | ?f _ => head_of f
  | _ => t
  end.

(** What [well_named] says of the contract and the function at hand. *)
Ltac learn :=
  repeat match goal with
    | Hw : well_named ?cu, Hc : In ?c (contracts_derived ?cu) |- _ =>
        lazymatch goal with
        | _ : all_named (state_variables c) |- _ => fail
        | _ => destruct (Hw c Hc) as [? ?]
        end
    | Hf : forall function, In function (functions ?c) -> _,
      Hin : In ?f (functions ?c) |- _ =>
        lazymatch goal with
        | _ : all_named (parameters f) |- _ => fail
        | _ => destruct (Hf f Hin) as [? ?]
        end
    end.

(** The evaluation at hand returns normally. *)
Ltac total :=
  learn; cbv beta zeta; cbn [bind];
  lazymatch goal with
  | |- exists r, Ok _ = Ok r => eexists; reflexivity
  | |- exists r, lower_of (var_name ?v) = Ok r =>
      apply lower_of_total;
      match goal with
      | Hn : all_named ?l, Hv : In v ?l |- _ => exact (Hn v Hv)
      end
  | |- exists r, ExcessiveSlippageTolerance._extract_numeric_value _ = Ok r =>
      apply extract_numeric_value_total
  | |- exists r, concatM _ _ = Ok r =>
      apply concatM_completes; intros ? ?; total
  | |- exists r, anyM _ _ = Ok r => apply anyM_total; intros ? ?; total
  | |- exists r, mapM _ _ = Ok r => apply mapM_total; intros ? ?; total
  | |- exists r, bind ?m _ = Ok r =>
      let Hm := fresh "Hm" in
      let x := fresh "x" in
      assert (Hm : exists x, m = Ok x) by total;
      destruct Hm as [x Hm]; rewrite Hm; total
  | |- exists r, match ?x with _ => _ end = Ok r => destruct x; total
  | |- exists r, ?lhs = Ok r => let h := head_of lhs in progress unfold h; total
  end.

(** Without a named high-level call the scan of the missing-slippage
    rule meets no [Constant]. *)
Lemma missing_slippage_completes (order : SetOrder) (cu : CompilationUnit) :
  well_named cu -> no_named_call cu ->
  exists results, MissingSlippageProtection._detect order cu = Ok results.
Proof.
  intros Hwell Hcalls. unfold MissingSlippageProtection._detect.
  apply concatM_completes. intros contract Hcontract.
  apply concatM_completes. intros function Hfunction.
  unfold MissingSlippageProtection.detect_function.
  destruct (is_constructor function) eqn:Hcons; cbn [orb]; [eauto|].
  destruct (mem (visibility_str (visibility function))
                ["private"; "internal"]) eqn:Hskip; [eauto|].
  assert (Hvis : visibility function <> private
                 /\ visibility function <> internal).
  { split; intros Heq; rewrite Heq in Hskip; discriminate Hskip. }
  destruct Hvis as [Hprivate Hinternal].
  assert (Hscan : exists issues,
            MissingSlippageProtection._check_function_slippage order function
            = Ok issues).
  { unfold MissingSlippageProtection._check_function_slippage.
    apply concatM_completes. intros node Hnode.
    apply concatM_completes. intros ir Hir.
    unfold MissingSlippageProtection.check_operation.
    destruct ir as [destination [c|] arguments| |]; [|total|eauto|eauto].
    destruct (Hcalls contract function node destination c arguments
                Hcontract Hfunction Hcons Hprivate Hinternal Hnode Hir). }
  destruct Hscan as [issues ->]. cbn [bind]. eauto.
Qed.

(** X16. On a unit in which the state variables of the derived contracts,
    the parameters of their functions and the state variables these write
    all have a name, every rule of the catalogue but three returns a list
    of findings.  The missing-slippage rule does when, besides, no
    function it scans makes a high-level call that has a
    [function_name]; the excessive-slippage rule and the gas rule do when
    no number they convert exceeds [int_max_str_digits] digits. *)
Theorem no_rule_raises_on_named_models (order : SetOrder)
  (cu : CompilationUnit) :
  well_named cu ->
  Forall (fun rule =>
            (ARGUMENT rule = MissingSlippageProtection.ARGUMENT ->
             no_named_call cu) ->
            (ARGUMENT rule = ExcessiveSlippageTolerance.ARGUMENT ->
             short_slippage_values cu) ->
            (ARGUMENT rule = L2GasCalculationRisk.ARGUMENT ->
             short_gas_values cu) ->
            exists results, _detect rule cu = Ok results)
         (ALL_DETECTORS order).
Proof.
  intros Hwell.
  unfold ALL_DETECTORS, MEV_DETECTORS, L2_DETECTORS, EMERGING_DETECTORS,
    ADMIN_DETECTORS, CRYPTO_DETECTORS, FCFS_DETECTORS,
    mev_risks.DETECTORS, l2_specific.DETECTORS,
    emerging_protocols.DETECTORS, admin_security.DETECTORS,
    cryptographic_primitives.DETECTORS, fcfs_tiering.DETECTORS.
  cbn [app].
  repeat (apply Forall_cons;
          [lazymatch goal with
           | |- _ -> _ -> _ -> exists r, _detect ?d _ = Ok r =>
               let h := head_of d in unfold h
           end;
           cbn [_detect ARGUMENT]; intros Hcalls Hslippage Hgas;
           first
             [ apply (missing_slippage_completes _ _ Hwell (Hcalls eq_refl))
             | apply excessive_slippage_completes;
               [intros contract Hcontract; exact (proj1 (Hwell _ Hcontract))
               |exact (Hslippage eq_refl)]
             | apply (gas_rule_completes _ (Hgas eq_refl))
             | clear Hcalls Hslippage Hgas; total ]|]).
  apply Forall_nil.
Qed.

(** On the proxy admin with a bare [upgradeTo] no rule raises. *)
Lemma no_rule_raises_on_named_models_witness :
  Forall (fun rule =>
            exists results,
              _detect rule (Scenario.proxy_unit Scenario.plain_body [])
              = Ok results)
         (ALL_DETECTORS source_order).
Proof.
  assert (Hwell : well_named (Scenario.proxy_unit Scenario.plain_body [])).
  { intros contract [<-|[]]. split; [intros v []|].
    intros function [<-|[]]; split; intros v Hv; simpl in Hv;
      repeat (destruct Hv as [<-|Hv]; [discriminate|]); destruct Hv. }
  refine (Forall_impl _ _
            (no_rule_raises_on_named_models source_order
               (Scenario.proxy_unit Scenario.plain_body []) Hwell)).
  intros rule H. apply H; intros _.
  - intros contract function node destination c arguments
      [<-|[]] [<-|[]] _ _ _ Hnode Hir.
    destruct Hnode as [<-|[<-|[]]]; simpl in Hir;
      [destruct Hir|destruct Hir as [Hir|[]]; discriminate Hir].
  - intros contract var expression value [<-|[]] [].
  - intros contract function node d [<-|[]] [<-|[]] [<-|[<-|[]]] Hcall;
      discriminate Hcall.
Defined.

(* ================================================================== *)
(** * merkle-proof-risk: every parameter name is read                   *)
(* ================================================================== *)

Lemma mapM_raises {A B : Type} (f : A -> Result B) (l : list A) (x : A)
  (e : Exception) :
  In x l -> f x = Raise e -> exists e', mapM f l = Raise e'.
Proof.
  induction l as [|a l IH]; simpl; [intros []|].
  intros [->|Hx] Hfx.
  - rewrite Hfx. simpl. eauto.
  - destruct (f a) as [y|e0]; simpl; [|eauto].
    destruct (IH Hx Hfx) as [e' ->]. simpl. eauto.
Qed.

(** X17. The Merkle rule lowercases the name of every parameter of every
    function before it looks at the function's name: one nameless
    parameter, in any function of a derived contract, claim or not, makes
    the whole rule raise. *)
Theorem merkle_rule_reads_every_parameter (cu : CompilationUnit)
  (contract : Contract) (function : Function) (p : Variable_) :
  In contract (contracts_derived cu) ->
  In function (functions contract) ->
  In p (parameters function) ->
  var_name p = None ->
  exists e, MerkleProofRisk._detect cu = Raise e.
Proof.
  intros Hcontract Hfunction Hp Hnone.
  assert (Hraise : exists e,
            MerkleProofRisk.detect_function contract function = Raise e).
  { unfold MerkleProofRisk.detect_function, MerkleProofRisk._is_merkle_claim.
    cbv zeta.
    destruct (mapM_raises (fun q => lower_of (var_name q))
                (parameters function) p AttributeError Hp) as [e ->].
    - now rewrite Hnone.
    - simpl. eauto. }
  destruct Hraise as [e He].
  destruct (concatM_raises _ _ _ _ Hfunction He) as [e' He'].
  exact (concatM_raises
           (fun contract =>
              concatM (MerkleProofRisk.detect_function contract)
                      (functions contract))
           _ _ _ Hcontract He').
Qed.

(** [convert] is no claim, yet its nameless parameter stops the rule. *)
Lemma merkle_rule_reads_every_parameter_witness :
  exists e, MerkleProofRisk._detect Scenario.faulty_desk = Raise e.
Proof.
  apply (merkle_rule_reads_every_parameter Scenario.faulty_desk
           (Scenario.contract "Desk"
              [ Scenario.sell_all;
                Scenario.convert (Scenario.nameless_parameter "uint256");
                Scenario.buy_back ] [])
           (Scenario.convert (Scenario.nameless_parameter "uint256"))
           (Scenario.nameless_parameter "uint256")).
  - simpl. auto.
  - simpl. auto.
  - simpl. auto.
  - reflexivity.
Defined.

(* ================================================================== *)
(** * fcfs-cascade-dos: what the scan of the body answers               *)
(* ================================================================== *)

Lemma from_first_loop_none (body : list Node) :
  (forall node, In node body ->
     CascadingTierUpdateDoSDetector.is_loop_node node = false) ->
  CascadingTierUpdateDoSDetector.from_first_loop body = [].
Proof.
  induction body as [|node body IH]; intros H; simpl; [reflexivity|].
  rewrite (H node (or_introl eq_refl)). apply IH.
  intros x Hx. apply H. now right.
Qed.

Lemma from_first_loop_suffix (before after : list Node) (loop : Node) :
  CascadingTierUpdateDoSDetector.is_loop_node loop = true ->
  exists kept,
    CascadingTierUpdateDoSDetector.from_first_loop
      (before ++ loop :: after)%list
    = (kept ++ loop :: after)%list.
Proof.
  intros Hloop. induction before as [|node before (kept & IH)]; simpl.
  - rewrite Hloop. now exists [].
  - destruct (CascadingTierUpdateDoSDetector.is_loop_node node).
    + now exists (node :: before).
    + now exists kept.
Qed.

(** X18. [_has_cascading_loop] answers whether some node from the first
    [STARTLOOP] or [IFLOOP] node on mentions an update.  A function
    without loop node is never flagged, whatever its nodes mention; a
    node that mentions an update and stands at or after a loop node
    always flags the function, nested in that loop or not. *)
Theorem cascading_scan_behaviour (function : Function) :
  CascadingTierUpdateDoSDetector._has_cascading_loop function
  = existsb CascadingTierUpdateDoSDetector.mentions_update
      (CascadingTierUpdateDoSDetector.from_first_loop (nodes function))
  /\ ((forall node, In node (nodes function) ->
         CascadingTierUpdateDoSDetector.is_loop_node node = false) ->
      CascadingTierUpdateDoSDetector._has_cascading_loop function = false)
  /\ (forall before loop after node,
        nodes function = (before ++ loop :: after)%list ->
        CascadingTierUpdateDoSDetector.is_loop_node loop = true ->
        In node (loop :: after) ->
        CascadingTierUpdateDoSDetector.mentions_update node = true ->
        CascadingTierUpdateDoSDetector._has_cascading_loop function = true).
Proof.
  assert (Hspec :
    CascadingTierUpdateDoSDetector._has_cascading_loop function
    = existsb CascadingTierUpdateDoSDetector.mentions_update
        (CascadingTierUpdateDoSDetector.from_first_loop (nodes function))).
  { unfold CascadingTierUpdateDoSDetector._has_cascading_loop.
    now rewrite cascading_scan_outside. }
  split; [exact Hspec|]. rewrite Hspec. split.
  - intros Hnone. now rewrite from_first_loop_none.
  - intros before loop after node Hbody Hloop Hnode Hupdate.
    rewrite Hbody.
    destruct (from_first_loop_suffix before after loop Hloop) as [kept ->].
    apply existsb_exists. exists node. split; [|exact Hupdate].
    apply in_or_app. now right.
Qed.

Lemma cascading_scan_behaviour_witness :
  CascadingTierUpdateDoSDetector._has_cascading_loop
    (Scenario.stake Scenario.stake_body) = false.
Proof.
  apply (proj1 (proj2 (cascading_scan_behaviour
                         (Scenario.stake Scenario.stake_body)))).
  intros node [<-|[<-|[<-|[]]]]; reflexivity.
Defined.


(* ================================================================== *)
(** * Which rules can raise, and what                                   *)
(* ================================================================== *)

Lemma lower_of_raises (n : option string) (e : Exception) :
  lower_of n = Raise e -> e = AttributeError.
Proof. destruct n; simpl; [discriminate|]. now intros [= <-]. Qed.

Lemma lower_method_raises (x : TextOrConstant) (e : Exception) :
  lower_method x = Raise e -> e = AttributeError.
Proof. destruct x; simpl; [discriminate|]. now intros [= <-]. Qed.

Lemma anyM_Raise_in {A : Type} (f : A -> Result bool) (l : list A)
  (e : Exception) :
  anyM f l = Raise e -> exists x, In x l /\ f x = Raise e.
Proof.
  induction l as [|a l IH]; simpl; [discriminate|].
  destruct (f a) as [[|]|e0] eqn:Hfa; simpl.
  - discriminate.
  - intros H. destruct (IH H) as (x & Hx & Hfx). eauto.
  - intros [= ->]. eauto.
Qed.

Lemma mapM_Raise_in {A B : Type} (f : A -> Result B) (l : list A)
  (e : Exception) :
  mapM f l = Raise e -> exists x, In x l /\ f x = Raise e.
Proof.
  induction l as [|a l IH]; simpl; [discriminate|].
  destruct (f a) as [y|e0] eqn:Hfa; simpl.
  - destruct (mapM f l) as [ys|e1]; simpl; [discriminate|].
    intros [= ->]. destruct (IH eq_refl) as (x & Hx & Hfx). eauto.
  - intros [= ->]. eauto.
Qed.

(** The exception of the evaluation at hand comes from a name without
    [lower] or from a number of too many digits. *)
Ltac blame H :=
  cbv beta zeta in H; cbn [bind] in H;
  lazymatch type of H with
  | Ok _ = Raise _ => discriminate H
  | lower_of _ = Raise _ =>
      left; split; [exact (lower_of_raises _ _ H)|reflexivity]
  | lower_method _ = Raise _ =>
      left; split; [exact (lower_method_raises _ _ H)|reflexivity]
  | int_of_str _ = Raise _ =>
      right; split; [exact (int_of_str_raises _ _ H)|reflexivity]
  | format_int _ = Raise _ =>
      right; split; [exact (format_int_raises _ _ H)|reflexivity]
  | ExcessiveSlippageTolerance._extract_numeric_value ?x = Raise _ =>
      destruct (extract_numeric_value_total x) as [? ?]; congruence
  | concatM _ _ = Raise _ =>
      apply concatM_Raise_in in H as (? & _ & H); blame H
  | anyM _ _ = Raise _ =>
      apply anyM_Raise_in in H as (? & _ & H); blame H
  | mapM _ _ = Raise _ =>
      apply mapM_Raise_in in H as (? & _ & H); blame H
  | bind ?m _ = Raise _ =>
      let Hm := fresh "Hm" in
      destruct m eqn:Hm; cbn [bind] in H;
      [ blame H
      | lazymatch type of H with
        | Raise _ = Raise _ => injection H as <-; blame Hm
        end ]
  | match ?x with _ => _ end = Raise _ => destruct x; blame H
  | ?lhs = Raise _ => let h := head_of lhs in progress unfold h in H; blame H
  end.

(** X19. The exceptions of the catalogue.  Twelve rules call [lower] on a
    name that may be [None] or a [Constant]: each of them raises
    [AttributeError] on a unit whose variables have no name.  Two rules
    convert between [int] and [str] outside any [try]: each of them
    raises [ValueError] on a unit whose numbers exceed
    [int_max_str_digits] digits.  No rule raises anything else, and the
    eighteen rules that do neither return a list of findings on every
    model. *)
Theorem rules_that_raise (order : SetOrder) :
  (forall s, Permutation (order s) s) ->
  Forall (fun rule =>
            (forall cu e,
               _detect rule cu = Raise e ->
               (e = AttributeError
                /\ mem (ARGUMENT rule) name_reading_rules = true)
               \/ (e = ValueError
                   /\ mem (ARGUMENT rule) digit_limit_rules = true))
            /\ (mem (ARGUMENT rule) name_reading_rules = true ->
                _detect rule nameless_unit = Raise AttributeError)
            /\ (mem (ARGUMENT rule) digit_limit_rules = true ->
                _detect rule Scenario.oversized_unit = Raise ValueError)
            /\ (mem (ARGUMENT rule) name_reading_rules = false ->
                mem (ARGUMENT rule) digit_limit_rules = false ->
                forall cu, exists results, _detect rule cu = Ok results))
         (ALL_DETECTORS order).
Proof.
  intros Horder.
  pose proof (fun s : list string => Permutation_refl s) as Hsource.
  unfold ALL_DETECTORS, MEV_DETECTORS, L2_DETECTORS, EMERGING_DETECTORS,
    ADMIN_DETECTORS, CRYPTO_DETECTORS, FCFS_DETECTORS,
    mev_risks.DETECTORS, l2_specific.DETECTORS,
    emerging_protocols.DETECTORS, admin_security.DETECTORS,
    cryptographic_primitives.DETECTORS, fcfs_tiering.DETECTORS.
  cbn [app].
  repeat (apply Forall_cons;
    [ lazymatch goal with
      | |- _ /\ (mem (ARGUMENT ?d) ?names = true -> _)
           /\ (mem _ ?digits = true -> _) /\ _ =>
          let h := head_of d in
          unfold h; cbn [_detect ARGUMENT];
          lazymatch goal with
          | |- _ /\ (mem ?a names = true -> _) /\ _ =>
              let b := eval vm_compute in (mem a names) in
              let c := eval vm_compute in (mem a digits) in
              change (mem a names) with b; change (mem a digits) with c
          end
      end;
      lazymatch goal with
      | |- _ /\ _ /\ _ /\ (false = false -> false = false -> _) =>
          lazymatch goal with
          | |- (forall cu e, ?f cu = Raise e -> _) /\ _ =>
              assert (T : forall cu, exists results, f cu = Ok results)
                by (intros cu; total);
              split; [intros cu e H; destruct (T cu) as [r Hr]; congruence|];
              split; [discriminate|];
              split; [discriminate|intros _ _; exact T]
          end
      | |- _ =>
          split; [intros cu e H; blame H|];
          split;
            [ first
                [ discriminate
                | intros _;
                  first
                    [ reflexivity
                    | rewrite (missing_slippage_orders order source_order
                                 Horder Hsource); reflexivity
                    | rewrite (restaking_slashing_orders order source_order
                                 Horder Hsource); reflexivity
                    | rewrite (proxy_upgrade_orders order source_order
                                 Horder Hsource); reflexivity ] ]
            | split;
                [ first [discriminate|intros _; vm_compute; reflexivity]
                | intros H; discriminate H || (intros H'; discriminate H') ] ]
      end |]).
  apply Forall_nil.
Qed.

Lemma rules_that_raise_witness :
  Forall (fun rule =>
            (forall cu e,
               _detect rule cu = Raise e ->
               (e = AttributeError
                /\ mem (ARGUMENT rule) name_reading_rules = true)
               \/ (e = ValueError
                   /\ mem (ARGUMENT rule) digit_limit_rules = true))
            /\ (mem (ARGUMENT rule) name_reading_rules = true ->
                _detect rule nameless_unit = Raise AttributeError)
            /\ (mem (ARGUMENT rule) digit_limit_rules = true ->
                _detect rule Scenario.oversized_unit = Raise ValueError)
            /\ (mem (ARGUMENT rule) name_reading_rules = false ->
                mem (ARGUMENT rule) digit_limit_rules = false ->
                forall cu, exists results, _detect rule cu = Ok results))
         (ALL_DETECTORS source_order).
Proof.
  apply (rules_that_raise source_order).
  intros s. apply Permutation_refl.
Defined.
